(** * Cloud Deploy API gateway: a shallow embedding of the request handlers

    The development follows the layout of the Python sources:
    - [models.py]: the four tables and the two status enums;
    - [routers/deployments.py]: trigger, background simulator, read, cancel;
    - [routers/projects.py]: owner-scoped CRUD;
    - [routers/analytics.py]: user, project and admin statistics;
    - [middleware/rate_limiter.py]: the sliding-window limiter;
    - [routers/auth.py] and [dependencies.py]: logout and the bearer check.

    The database session is modelled by explicit state passing over a record
    of tables; a handler returns either a value or the exception it
    raises.  Datetimes are instants counted in microseconds (type [Z]). *)

From Stdlib Require Import ZArith QArith Qround Lqa String Ascii List.
From stdpp Require Import base decidable option list sorting gmap strings pretty.
Import ListNotations.

Local Open Scope string_scope.
Local Open Scope list_scope.
Local Open Scope Z_scope.

(** ** Common vocabulary *)

(** The line feed, written [\n] in the Python string literals. *)
Definition LF : string := String "010"%char EmptyString.

(** The text of [s] up to (not including) its first line feed. *)
Fixpoint first_line (s : string) : string :=
  match s with
  | EmptyString => EmptyString
  | String c r => if Ascii.eqb c "010"%char then EmptyString else String c (first_line r)
  end.

Definition datetime : Type := Z.

Inductive DeploymentStatus : Set :=
  | PENDING | BUILDING | DEPLOYING | SUCCESS | FAILED | CANCELLED.

Inductive ProjectStatus : Set := ACTIVE | INACTIVE | ERROR.

#[global] Instance DeploymentStatus_eq_dec : EqDecision DeploymentStatus.
Proof. solve_decision. Defined.

#[global] Instance ProjectStatus_eq_dec : EqDecision ProjectStatus.
Proof. solve_decision. Defined.

(** [DeploymentStatus.value] *)
Definition status_value (s : DeploymentStatus) : string :=
  match s with
  | PENDING => "pending" | BUILDING => "building" | DEPLOYING => "deploying"
  | SUCCESS => "success" | FAILED => "failed" | CANCELLED => "cancelled"
  end.

(** The [detail] of an [HTTPException]: a literal, or the f-string of
    [cancel_deployment], whose interpolated status is kept symbolic. *)
Inductive Detail : Type :=
  | Msg (m : string)
  | CannotCancel (s : DeploymentStatus).

(** The exceptions the modelled code can raise.  [HTTPException] becomes the
    response; anything else escapes the handler (an internal server error). *)
Inductive exception : Type :=
  | HTTPException (status_code : Z) (detail : Detail)
  | IntegrityError
  | ValueError
  | ZeroDivisionError
  | TypeError.

Inductive result (A : Type) : Type :=
  | Ok (a : A)
  | Raise (e : exception).
Arguments Ok {A} a.
Arguments Raise {A} e.

(** Sequencing: an exception raised by [r] ends the computation. *)
Definition bind {A B : Type} (r : result A) (k : A -> result B) : result B :=
  match r with
  | Ok a => k a
  | Raise e => Raise e
  end.

Notation "'let*' x ':=' r 'in' k" := (bind r (fun x => k))
  (at level 10, x name, r at level 100, k at level 200).

Definition HTTP_400_BAD_REQUEST : Z := 400.
Definition HTTP_401_UNAUTHORIZED : Z := 401.
Definition HTTP_403_FORBIDDEN : Z := 403.
Definition HTTP_404_NOT_FOUND : Z := 404.

(** ** models.py *)

Module User.
Record t : Type := mk {
  id : Z;
  email : string;
  hashed_password : string;
  created_at : datetime;
  is_active : bool;
  is_admin : bool
}.
End User.

Module Project.
Record t : Type := mk {
  id : Z;
  name : string;
  github_url : string;
  status : ProjectStatus;
  user_id : Z;
  created_at : datetime
}.
End Project.

Module Deployment.
Record t : Type := mk {
  id : Z;
  project_id : Z;
  status : DeploymentStatus;
  logs : string;
  started_at : datetime;
  completed_at : option datetime
}.

Definition set_status (s : DeploymentStatus) (d : t) : t :=
  mk (id d) (project_id d) s (logs d) (started_at d) (completed_at d).
Definition set_logs (l : string) (d : t) : t :=
  mk (id d) (project_id d) (status d) l (started_at d) (completed_at d).
Definition set_completed_at (c : option datetime) (d : t) : t :=
  mk (id d) (project_id d) (status d) (logs d) (started_at d) c.
End Deployment.

Module RefreshToken.
Record t : Type := mk {
  id : Z;
  token : string;
  user_id : Z;
  expires_at : datetime;
  created_at : datetime
}.
End RefreshToken.

(** The persistent store: one list of rows per table, in table order. *)
Record DB : Type := mkDB {
  users : list User.t;
  projects : list Project.t;
  deployments : list Deployment.t;
  refresh_tokens : list RefreshToken.t
}.

Definition with_projects (ps : list Project.t) (db : DB) : DB :=
  mkDB (users db) ps (deployments db) (refresh_tokens db).
Definition with_deployments (ds : list Deployment.t) (db : DB) : DB :=
  mkDB (users db) (projects db) ds (refresh_tokens db).
Definition with_refresh_tokens (ts : list RefreshToken.t) (db : DB) : DB :=
  mkDB (users db) (projects db) (deployments db) ts.

(** [query.filter(...).first()] *)
Definition first {A : Type} (p : A -> bool) (rows : list A) : option A :=
  List.find p rows.

(** The UPDATE a [commit] issues for a modified row, keyed by primary key. *)
Definition update_deployment (d : Deployment.t) (db : DB) : DB :=
  with_deployments
    (map (fun x => if Deployment.id x =? Deployment.id d then d else x) (deployments db))
    db.

(** The value an autoincrement primary key takes on INSERT. *)
Definition next_id (ids : list Z) : Z := 1 + fold_right Z.max 0 ids.

(** [db.query(Project).filter(Project.id == project_id,
                              Project.user_id == user_id).first()] *)
Definition query_project (db : DB) (project_id user_id : Z) : option Project.t :=
  first (fun p => (Project.id p =? project_id) && (Project.user_id p =? user_id))
        (projects db).

(** [db.query(Deployment).join(Project).filter(Deployment.id == deployment_id,
                                               Project.user_id == user_id).first()] *)
Definition query_deployment (db : DB) (deployment_id user_id : Z) : option Deployment.t :=
  first (fun d => (Deployment.id d =? deployment_id)
                  && existsb (fun p => (Project.id p =? Deployment.project_id d)
                                       && (Project.user_id p =? user_id))
                             (projects db))
        (deployments db).

(** [a < b] on rationals, as a boolean. *)
Definition Qltb (a b : Q) : bool := negb (Qle_bool b a).

(** ** routers/deployments.py *)

Module Deployments.

(** A handler threads the session's store and either returns or raises;
    a handler that raises has committed nothing. *)
Definition handler (A : Type) : Type := DB -> result A * DB.

(** The points at which the coroutine [simulate_deployment] can be
    resumed: after each [asyncio.sleep] and after each [db.commit()]. *)
Inductive sim_pc : Set :=
  | InitialDelay      (* sleeping 2s, nothing done yet *)
  | BuildDelay        (* BUILDING committed, sleeping 3s *)
  | BuildLogged       (* build lines committed *)
  | DeployDelay       (* DEPLOYING committed, sleeping 2s *)
  | Finished.

(** The row the session's [deployment] object stands for.  The object is
    loaded once by primary key; every [commit] expires it, so the next
    attribute read ([deployment.logs += ...]) reloads the committed row,
    while an attribute assignment ([deployment.status = ...]) writes
    without reading. *)
Definition load (db : DB) (deployment_id : Z) : option Deployment.t :=
  first (fun d => Deployment.id d =? deployment_id) (deployments db).

(** One resumption of [simulate_deployment(deployment_id, db)], up to its
    next [commit].  [rnd] is the value of [random.random()] and [now] that
    of [datetime.utcnow()], both read only by the last stage. *)
Definition simulate_deployment
    (deployment_id : Z) (pc : sim_pc) (rnd : Q) (now : datetime) (db : DB)
  : DB * sim_pc :=
  match pc with
  | Finished => (db, Finished)
  | InitialDelay =>
      match load db deployment_id with
      | None => (db, Finished)
      | Some deployment =>
          let deployment := Deployment.set_status BUILDING deployment in
          let deployment :=
            Deployment.set_logs ("Starting build process..." +:+ LF) deployment in
          (update_deployment deployment db, BuildDelay)
      end
  | BuildDelay =>
      match load db deployment_id with
      | None => (db, Finished)
      | Some deployment =>
          let deployment :=
            Deployment.set_logs
              (Deployment.logs deployment +:+ "✓ Dependencies installed" +:+ LF) deployment in
          let deployment :=
            Deployment.set_logs
              (Deployment.logs deployment +:+ "✓ Building application..." +:+ LF) deployment in
          (update_deployment deployment db, BuildLogged)
      end
  | BuildLogged =>
      match load db deployment_id with
      | None => (db, Finished)
      | Some deployment =>
          let deployment := Deployment.set_status DEPLOYING deployment in
          let deployment :=
            Deployment.set_logs
              (Deployment.logs deployment +:+ "✓ Build completed successfully" +:+ LF)
              deployment in
          let deployment :=
            Deployment.set_logs
              (Deployment.logs deployment +:+ "Starting deployment..." +:+ LF) deployment in
          (update_deployment deployment db, DeployDelay)
      end
  | DeployDelay =>
      match load db deployment_id with
      | None => (db, Finished)
      | Some deployment =>
          let deployment :=
            if Qltb (2 # 10) rnd then
              Deployment.set_logs
                (Deployment.logs deployment +:+ "✓ Deployment completed successfully!" +:+ LF)
                (Deployment.set_status SUCCESS deployment)
            else
              Deployment.set_logs
                (Deployment.logs deployment +:+ "✗ Deployment failed: Build timeout" +:+ LF)
                (Deployment.set_status FAILED deployment) in
          let deployment := Deployment.set_completed_at (Some now) deployment in
          (update_deployment deployment db, Finished)
      end
  end.

(** [POST /deployments/projects/{project_id}/deploy].  The new row gets its
    key from the sequence and [started_at] from the server default; the
    handler also returns the id it hands to [background_tasks.add_task]. *)
Definition trigger_deployment
    (project_id : Z) (current_user : User.t) (now : datetime)
  : handler Deployment.t := fun db =>
  match query_project db project_id (User.id current_user) with
  | None => (Raise (HTTPException HTTP_404_NOT_FOUND (Msg "Project not found")), db)
  | Some _ =>
      let deployment :=
        Deployment.mk (next_id (map Deployment.id (deployments db)))
                      project_id PENDING ("Deployment queued..." +:+ LF) now None in
      (Ok deployment, with_deployments (deployments db ++ [deployment]) db)
  end.

(** [GET /deployments/{deployment_id}] *)
Definition get_deployment (deployment_id : Z) (current_user : User.t)
  : handler Deployment.t := fun db =>
  match query_deployment db deployment_id (User.id current_user) with
  | None => (Raise (HTTPException HTTP_404_NOT_FOUND (Msg "Deployment not found")), db)
  | Some deployment => (Ok deployment, db)
  end.

(** [GET /deployments/{deployment_id}/logs] *)
Definition get_deployment_logs (deployment_id : Z) (current_user : User.t)
  : handler string := fun db =>
  match query_deployment db deployment_id (User.id current_user) with
  | None => (Raise (HTTPException HTTP_404_NOT_FOUND (Msg "Deployment not found")), db)
  | Some deployment => (Ok (Deployment.logs deployment), db)
  end.

(** [POST /deployments/{deployment_id}/cancel] *)
Definition cancel_deployment
    (deployment_id : Z) (current_user : User.t) (now : datetime)
  : handler string := fun db =>
  match query_deployment db deployment_id (User.id current_user) with
  | None => (Raise (HTTPException HTTP_404_NOT_FOUND (Msg "Deployment not found")), db)
  | Some deployment =>
      if bool_decide (Deployment.status deployment ∈ [SUCCESS; FAILED; CANCELLED]) then
        (Raise (HTTPException HTTP_400_BAD_REQUEST
                                (CannotCancel (Deployment.status deployment))), db)
      else
        let deployment := Deployment.set_status CANCELLED deployment in
        let deployment := Deployment.set_completed_at (Some now) deployment in
        let deployment :=
          Deployment.set_logs
            (Deployment.logs deployment +:+ LF +:+ "✗ Deployment cancelled by user" +:+ LF)
            deployment in
        (Ok "Deployment cancelled successfully", update_deployment deployment db)
  end.

End Deployments.

(** ** The deployment lifecycle: handlers and background tasks interleaved *)

Module Lifecycle.

(** The committed store together with the simulator coroutines that
    [BackgroundTasks] has started, one per triggered deployment. *)
Record World : Type := mkWorld {
  store : DB;
  tasks : gmap Z Deployments.sim_pc
}.

(** What can happen next: a request is served, or the event loop resumes
    the simulator of one deployment. *)
Inductive event : Type :=
  | Trigger (project_id : Z) (current_user : User.t) (now : datetime)
  | Cancel (deployment_id : Z) (current_user : User.t) (now : datetime)
  | Resume (deployment_id : Z) (rnd : Q) (now : datetime).

Definition exec (w : World) (e : event) : World :=
  match e with
  | Trigger project_id current_user now =>
      match Deployments.trigger_deployment project_id current_user now (store w) with
      | (Ok deployment, db) =>
          mkWorld db (<[Deployment.id deployment := Deployments.InitialDelay]> (tasks w))
      | (Raise _, db) => mkWorld db (tasks w)
      end
  | Cancel deployment_id current_user now =>
      mkWorld (snd (Deployments.cancel_deployment deployment_id current_user now (store w)))
              (tasks w)
  | Resume deployment_id rnd now =>
      match tasks w !! deployment_id with
      | None => w
      | Some pc =>
          let '(db, pc') :=
            Deployments.simulate_deployment deployment_id pc rnd now (store w) in
          mkWorld db (<[deployment_id := pc']> (tasks w))
      end
  end.

Definition run (w : World) (es : list event) : World := fold_left exec es w.

(** The committed row of a deployment, as any reader sees it. *)
Definition row (w : World) (deployment_id : Z) : option Deployment.t :=
  Deployments.load (store w) deployment_id.

Definition terminal (s : DeploymentStatus) : bool :=
  bool_decide (s ∈ [SUCCESS; FAILED; CANCELLED]).

End Lifecycle.

(** ** routers/projects.py *)

Module Projects.

Import Deployments.

(** The body of a [ProjectCreate] request. *)
Record ProjectCreate : Type := mkProjectCreate {
  name : string;
  github_url : string
}.

(** [GET /projects/{project_id}]: the project with its deployments
    (the [ProjectWithDeployments] response model). *)
Definition get_project (project_id : Z) (current_user : User.t)
  : handler (Project.t * list Deployment.t) := fun db =>
  match query_project db project_id (User.id current_user) with
  | None => (Raise (HTTPException HTTP_404_NOT_FOUND (Msg "Project not found")), db)
  | Some project =>
      (Ok (project,
           filter (fun d => Deployment.project_id d = Project.id project) (deployments db)),
       db)
  end.

(** [PUT /projects/{project_id}] *)
Definition update_project
    (project_id : Z) (project_update : ProjectCreate) (current_user : User.t)
  : handler Project.t := fun db =>
  match query_project db project_id (User.id current_user) with
  | None => (Raise (HTTPException HTTP_404_NOT_FOUND (Msg "Project not found")), db)
  | Some project =>
      let project :=
        Project.mk (Project.id project) (name project_update) (github_url project_update)
                   (Project.status project) (Project.user_id project)
                   (Project.created_at project) in
      (Ok project,
       with_projects
         (map (fun x => if Project.id x =? Project.id project then project else x)
              (projects db))
         db)
  end.

(** [DELETE /projects/{project_id}].  The [deployments] relationship has no
    delete cascade, so the unit of work first detaches the children by
    nulling [project_id]; the column is not nullable, hence a project that
    still has deployments makes the flush fail and nothing is committed. *)
Definition delete_project (project_id : Z) (current_user : User.t)
  : handler unit := fun db =>
  match query_project db project_id (User.id current_user) with
  | None => (Raise (HTTPException HTTP_404_NOT_FOUND (Msg "Project not found")), db)
  | Some project =>
      if existsb (fun d => Deployment.project_id d =? Project.id project) (deployments db)
      then (Raise IntegrityError, db)
      else
        (Ok tt,
         with_projects
           (filter (fun x => Project.id x ≠ Project.id project) (projects db)) db)
  end.

(** The answer of a paginated query: the page, or the failure of the
    statement (PostgreSQL rejects a negative OFFSET or LIMIT). *)
Inductive page (A : Type) : Type :=
  | Rows (rows : list A)
  | Rejected.
Arguments Rows {A} rows.
Arguments Rejected {A}.

(** [query.offset(skip).limit(limit).all()] *)
Definition offset_limit {A : Type} (skip limit : Z) (rows : list A) : page A :=
  if (skip <? 0) || (limit <? 0) then Rejected
  else Rows (take (Z.to_nat limit) (drop (Z.to_nat skip) rows)).

(** [GET /projects/] *)
Definition list_projects (skip limit : Z) (current_user : User.t) (db : DB)
  : page Project.t :=
  offset_limit skip limit
    (filter (fun p => Project.user_id p = User.id current_user) (projects db)).

(** [POST /projects/].  The row gets its key from the sequence and
    [created_at] from the server default; [github_url] is the string form of
    the validated URL. *)
Definition create_project
    (project : ProjectCreate) (current_user : User.t) (now : datetime)
  : handler Project.t := fun db =>
  let db_project :=
    Project.mk (next_id (map Project.id (projects db)))
               (name project) (github_url project) ACTIVE (User.id current_user) now in
  (Ok db_project, with_projects (projects db ++ [db_project]) db).

End Projects.

(** ** Dates and numbers used by routers/analytics.py *)

Module Calendar.

(** Microseconds in a day. *)
Definition DAY : Z := 86400000000.

(** [timedelta(days=n)] *)
Definition days (n : Z) : Z := n * DAY.

(** [(b - a).days]: whole days of a difference, rounded down. *)
Definition timedelta_days (delta : Z) : Z := delta / DAY.

(** [t.date()], as the number of days since 1970-01-01. *)
Definition date (t : datetime) : Z := t / DAY.

(** The proleptic Gregorian calendar: day number from (year, month, day). *)
Definition days_from_civil (y m d : Z) : Z :=
  let y := if m <=? 2 then y - 1 else y in
  let era := y / 400 in
  let yoe := y - era * 400 in
  let doy := (153 * (if 2 <? m then m - 3 else m + 9) + 2) / 5 + d - 1 in
  let doe := yoe * 365 + yoe / 4 - yoe / 100 + doy in
  era * 146097 + doe - 719468.

(** (year, month, day) of a day number. *)
Definition civil_from_days (z : Z) : Z * Z * Z :=
  let z := z + 719468 in
  let era := z / 146097 in
  let doe := z - era * 146097 in
  let yoe := (doe - doe / 1460 + doe / 36524 - doe / 146096) / 365 in
  let y := yoe + era * 400 in
  let doy := doe - (365 * yoe + yoe / 4 - yoe / 100) in
  let mp := (5 * doy + 2) / 153 in
  let d := doy - (153 * mp + 2) / 5 + 1 in
  let m := if mp <? 10 then mp + 3 else mp - 9 in
  (if m <=? 2 then y + 1 else y, m, d).

(** [t.replace(day=1)]: same month and time of day, first day. *)
Definition replace_day_1 (t : datetime) : datetime :=
  let '(y, m, _) := civil_from_days (date t) in
  days_from_civil y m 1 * DAY + t mod DAY.

(** [t.replace(hour=0, minute=0, second=0, microsecond=0)] *)
Definition start_of_day (t : datetime) : datetime := date t * DAY.

(** [t.replace(hour=23, minute=59, second=59, microsecond=999999)] *)
Definition end_of_day (t : datetime) : datetime := date t * DAY + (DAY - 1).

(** [t.strftime("%Y-%m")], as the pair (year, month). *)
Definition year_month (t : datetime) : Z * Z :=
  let '(y, m, _) := civil_from_days (date t) in (y, m).

(** [column.between(lo, hi)] *)
Definition between (lo hi t : datetime) : bool := (lo <=? t) && (t <=? hi).

End Calendar.

(** Python floats are not computed here: the handlers are written against
    the operations they use, and hold for any implementation of them. *)
Class FloatOps : Type := {
  float : Type;
  (** [a / b] for two ints, [b] non-zero *)
  int_truediv : Z -> Z -> float;
  (** [x * n] and [x / n] for a float and an int, [n] non-zero in [x / n] *)
  float_mul : float -> Z -> float;
  float_div : float -> Z -> float;
  (** [sum(xs)] *)
  float_sum : list float -> float;
  (** [round(x, ndigits)] *)
  float_round : float -> Z -> float;
  (** [timedelta.total_seconds()] of a difference in microseconds *)
  total_seconds : Z -> float
}.

(** Exact rational arithmetic, an idealisation used to run the handlers. *)
#[global] Instance exact_floats : FloatOps := {|
  float := Q;
  int_truediv a b := (inject_Z a / inject_Z b)%Q;
  float_mul x n := (x * inject_Z n)%Q;
  float_div x n := (x / inject_Z n)%Q;
  float_sum xs := fold_left Qplus xs 0%Q;
  float_round x n :=
    (inject_Z (Qfloor (x * inject_Z (10 ^ n) + (1 # 2))) / inject_Z (10 ^ n))%Q;
  total_seconds us := (inject_Z us / inject_Z 1000000)%Q
|}.

Section Numbers.
Context `{FloatOps}.

(** A value that is an [int] on one branch and a [float] on the other. *)
Inductive number : Type :=
  | Int (z : Z)
  | Float (x : float).

(** [a / b]: true division raises on a zero divisor. *)
Definition truediv (a b : Z) : result float :=
  if b =? 0 then Raise ZeroDivisionError else Ok (int_truediv a b).

Definition truediv_float (x : float) (n : Z) : result float :=
  if n =? 0 then Raise ZeroDivisionError else Ok (float_div x n).

(** [round(x, 2)]: an int is returned as it is. *)
Definition round (x : number) (ndigits : Z) : number :=
  match x with
  | Int z => Int z
  | Float x => Float (float_round x ndigits)
  end.

End Numbers.

(** ** routers/analytics.py *)

Module Analytics.

(** An ISO 8601 string that [datetime.fromisoformat] accepts, by what it
    parses to: the instant, and whether the datetime is offset-aware (the
    string carries a UTC offset, or a trailing [Z], which the code rewrites
    to [+00:00]) or naive.  A naive datetime is placed on the time line by
    reading its wall clock as UTC. *)
Record isoformat : Type := mkIsoformat {
  instant : datetime;
  offset_aware : bool
}.

(** [t.isoformat()] for a naive [t], such as [datetime.utcnow()]. *)
Definition naive (t : datetime) : isoformat := mkIsoformat t false.

(** The database behind the session.  A [DateTime(timezone=True)] column is
    read back offset-aware from PostgreSQL (the configured [DATABASE_URL])
    and naive from SQLite (the engine of the test suite). *)
Inductive Dialect : Set := PostgreSQL | SQLite.

(** [row.created_at.isoformat()] *)
Definition column_isoformat (dialect : Dialect) (t : datetime) : isoformat :=
  mkIsoformat t match dialect with PostgreSQL => true | SQLite => false end.

(** A date query parameter, by what the handler can do with it: absent (or
    empty), a string [datetime.fromisoformat] rejects, a string without
    offset, or a string with an offset (or a trailing [Z]). *)
Inductive date_param : Type :=
  | NotGiven
  | Malformed
  | Given (t : datetime)
  | GivenAware (t : datetime).

(** The parameter after the default has been filled in; [None] stands for
    a string that does not parse. *)
Definition or_default (p : date_param) (default : isoformat) : option isoformat :=
  match p with
  | NotGiven => Some default
  | Malformed => None
  | Given t => Some (mkIsoformat t false)
  | GivenAware t => Some (mkIsoformat t true)
  end.

(** [validator.validate_date_range] (utils/validation.py).  Only the
    [ValueError] of a string that does not parse is caught; comparing a naive
    with an offset-aware datetime raises [TypeError], which escapes. *)
Definition validate_date_range (start_date end_date : option isoformat)
  : result (bool * string) :=
  match start_date, end_date with
  | Some start, Some end_ =>
      if negb (Bool.eqb (offset_aware start) (offset_aware end_)) then Raise TypeError
      else if instant start >? instant end_
      then Ok (false, "Start date must be before end date")
      else if Calendar.timedelta_days (instant end_ - instant start) >? 365
      then Ok (false, "Date range cannot exceed 1 year")
      else Ok (true, "Valid date range")
  | _, _ => Ok (false, "Invalid date format. Use ISO format: YYYY-MM-DDTHH:MM:SS")
  end.

(** [counts[k] = counts.get(k, 0) + 1] for each key in turn *)
Definition tally `{Countable K} (keys : list K) : gmap K Z :=
  fold_left (fun counts k => <[k := default 0 (counts !! k) + 1]> counts) keys ∅.

(** [.join(Project).filter(Project.user_id == user_id)] on a deployment *)
Definition owned_by (db : DB) (user_id : Z) (d : Deployment.t) : bool :=
  existsb (fun p => (Project.id p =? Deployment.project_id d)
                    && (Project.user_id p =? user_id)) (projects db).

(** Rows by [started_at], latest first; equal instants keep table order. *)
Fixpoint insert_desc (d : Deployment.t) (l : list Deployment.t) : list Deployment.t :=
  match l with
  | [] => [d]
  | x :: r =>
      if Deployment.started_at x <? Deployment.started_at d
      then d :: l else x :: insert_desc d r
  end.
Definition order_by_started_at_desc (l : list Deployment.t) : list Deployment.t :=
  fold_right insert_desc [] l.

(** [db.query(Deployment).join(Project).filter(
       Project.user_id == user_id, Deployment.started_at.between(start, end)).all()] *)
Definition user_deployments (db : DB) (user_id : Z) (start end_ : datetime)
  : list Deployment.t :=
  filter (fun d => owned_by db user_id d = true
                   ∧ Calendar.between start end_ (Deployment.started_at d) = true)
         (deployments db).

(** [db.query(Deployment).filter(
       Deployment.project_id == project_id, Deployment.started_at.between(start, end)
     ).order_by(Deployment.started_at.desc()).all()] *)
Definition project_deployments (db : DB) (project_id : Z) (start end_ : datetime)
  : list Deployment.t :=
  order_by_started_at_desc
    (filter (fun d => Deployment.project_id d = project_id
                      ∧ Calendar.between start end_ (Deployment.started_at d) = true)
            (deployments db)).

(** [.count()] of the rows that satisfy a filter *)
Definition count {A : Type} (p : A -> bool) (rows : list A) : Z :=
  Z.of_nat (length (List.filter p rows)).

(** [datetime.utcnow().replace(day=1, hour=0, minute=0, second=0, microsecond=0)] *)
Definition current_month_start (now : datetime) : datetime :=
  Calendar.start_of_day (Calendar.replace_day_1 now).

(** [(current_month_start - timedelta(days=1)).replace(day=1)] *)
Definition last_month_start (now : datetime) : datetime :=
  Calendar.replace_day_1 (current_month_start now - Calendar.days 1).

(** [db.query(User).filter(User.created_at >= current_month_start).count()] *)
Definition new_users_this_month (db : DB) (now : datetime) : Z :=
  count (fun u => current_month_start now <=? User.created_at u) (users db).

(** [db.query(User).filter(User.created_at >= last_month_start,
                           User.created_at < current_month_start).count()] *)
Definition new_users_last_month (db : DB) (now : datetime) : Z :=
  count (fun u => (last_month_start now <=? User.created_at u)
                  && (User.created_at u <? current_month_start now)) (users db).

Section Handlers.
Context `{FloatOps}.

(** [(successful / total * 100) if total > 0 else 0] *)
Definition success_rate_of (successful total : Z) : result number :=
  if total >? 0 then
    let* x := truediv successful total in
    Ok (Float (float_mul x 100))
  else Ok (Int 0).

(** The durations of the deployments that have a completion time. *)
Definition durations (ds : list Deployment.t) : list float :=
  omap (fun d => match Deployment.completed_at d with
                 | Some completed_at =>
                     Some (total_seconds (completed_at - Deployment.started_at d))
                 | None => None
                 end) ds.

(** [sum(times) / len(times) if times else 0] *)
Definition average (times : list float) : result number :=
  match times with
  | [] => Ok (Int 0)
  | _ =>
      let* x := truediv_float (float_sum times) (Z.of_nat (length times)) in
      Ok (Float x)
  end.

Record UserStats : Type := mkUserStats {
  us_period_days : Z;
  us_total_projects : Z;
  us_total_deployments : Z;
  us_success_rate : number;
  us_avg_deployment_time_seconds : number;
  us_deployment_status : gmap string Z;
  us_daily_trend : gmap Z Z;
  (** id, name, status and deployment count of the first ten projects *)
  us_projects : list (Z * string * ProjectStatus * Z)
}.

(** [GET /analytics/user/stats] *)
Definition get_user_analytics
    (start_date end_date : date_param) (current_user : User.t) (now : datetime)
    (db : DB) : result UserStats :=
  let end_date := or_default end_date (naive now) in
  let start_date := or_default start_date (naive (now - Calendar.days 30)) in
  match validate_date_range start_date end_date with
  | Raise e => Raise e
  | Ok (false, error) => Raise (HTTPException 400 (Msg error))
  | Ok (true, _) =>
      match start_date, end_date with
      | Some start_, Some end__ =>
          let start := instant start_ in
          let end_ := instant end__ in
          let projects_ :=
            filter (fun p => Project.user_id p = User.id current_user
                             ∧ Calendar.between start end_ (Project.created_at p) = true)
                   (projects db) in
          let deployments_ := user_deployments db (User.id current_user) start end_ in
          let total_projects := Z.of_nat (length projects_) in
          let total_deployments := Z.of_nat (length deployments_) in
          let status_counts :=
            tally (map (fun d => status_value (Deployment.status d)) deployments_) in
          let successful_deployments := default 0 (status_counts !! "success") in
          let* success_rate := success_rate_of successful_deployments total_deployments in
          let* avg_deployment_time := average (durations deployments_) in
          let daily_trend :=
            tally (map (fun d => Calendar.date (Deployment.started_at d)) deployments_) in
          Ok (mkUserStats
                (Calendar.timedelta_days (end_ - start))
                total_projects total_deployments
                (round success_rate 2) (round avg_deployment_time 2)
                status_counts daily_trend
                (map (fun p =>
                        (Project.id p, Project.name p, Project.status p,
                         Z.of_nat (length (filter (fun d => Deployment.project_id d
                                                            = Project.id p)
                                                  (deployments db)))))
                     (take 10 projects_)))
      | _, _ => Raise ValueError
      end
  end.

Record ProjectStats : Type := mkProjectStats {
  ps_project : Project.t;
  ps_total_deployments : Z;
  ps_success_rate : number;
  ps_avg_deployment_time_seconds : number;
  ps_failed_deployments : Z;
  ps_deployment_status : gmap string Z;
  ps_monthly_trend : gmap (Z * Z) Z;
  ps_recent_deployments : list Deployment.t
}.

(** [GET /analytics/project/{project_id}], on a session of the given
    dialect. *)
Definition get_project_analytics
    (dialect : Dialect) (project_id : Z) (start_date end_date : date_param)
    (current_user : User.t) (now : datetime) (db : DB) : result ProjectStats :=
  match query_project db project_id (User.id current_user) with
  | None => Raise (HTTPException 404 (Msg "Project not found"))
  | Some project =>
      let end_date := or_default end_date (naive now) in
      let start_date :=
        or_default start_date (column_isoformat dialect (Project.created_at project)) in
      match validate_date_range start_date end_date with
      | Raise e => Raise e
      | Ok (false, error) => Raise (HTTPException 400 (Msg error))
      | Ok (true, _) =>
          match start_date, end_date with
          | Some start_, Some end__ =>
              let start := instant start_ in
              let end_ := instant end__ in
              let deployments_ := project_deployments db project_id start end_ in
              let total_deployments := Z.of_nat (length deployments_) in
              let status_counts :=
                tally (map (fun d => status_value (Deployment.status d)) deployments_) in
              let deployment_durations := durations deployments_ in
              let successful_deployments := default 0 (status_counts !! "success") in
              let* success_rate := success_rate_of successful_deployments total_deployments in
              let* avg_deployment_time := average deployment_durations in
              let monthly_deployments :=
                tally (map (fun d => Calendar.year_month (Deployment.started_at d))
                           deployments_) in
              Ok (mkProjectStats project total_deployments
                    (round success_rate 2) (round avg_deployment_time 2)
                    (default 0 (status_counts !! "failed"))
                    status_counts monthly_deployments (take 5 deployments_))
          | _, _ => Raise ValueError
          end
      end
  end.

Record AdminOverview : Type := mkAdminOverview {
  ao_total_users : Z;
  ao_active_users_last_30_days : Z;
  ao_total_projects : Z;
  ao_total_deployments : Z;
  ao_deployment_success_rate : number;
  ao_new_users_this_month : Z;
  ao_new_users_last_month : Z;
  ao_user_growth_percentage : number;
  ao_deployment_trend_last_7_days : gmap Z Z
}.

(** [((this - last) / last * 100) if last > 0 else 100] *)
Definition user_growth_of (new_users_this_month new_users_last_month : Z)
  : result number :=
  if new_users_last_month >? 0 then
    let* x := truediv (new_users_this_month - new_users_last_month) new_users_last_month in
    Ok (Float (float_mul x 100))
  else Ok (Int 100).

(** [require_admin] (dependencies.py) *)
Definition require_admin (current_user : User.t) : result User.t :=
  if negb (User.is_admin current_user)
  then Raise (HTTPException HTTP_403_FORBIDDEN (Msg "Admin privileges required"))
  else Ok current_user.

(** [GET /analytics/admin/overview]; the ranking of the top users is
    computed by the database and is not part of the record. *)
Definition get_admin_overview (current_user : User.t) (now : datetime) (db : DB)
  : result AdminOverview :=
  let* admin := require_admin current_user in
  let total_users := Z.of_nat (length (users db)) in
  let total_projects := Z.of_nat (length (projects db)) in
  let total_deployments := Z.of_nat (length (deployments db)) in
  let thirty_days_ago := now - Calendar.days 30 in
  let active_users := count (fun u => thirty_days_ago <=? User.created_at u) (users db) in
  let successful_deployments :=
    count (fun d => bool_decide (Deployment.status d = SUCCESS)) (deployments db) in
  let* success_rate := success_rate_of successful_deployments total_deployments in
  let new_users_this_month := new_users_this_month db now in
  let new_users_last_month := new_users_last_month db now in
  let* user_growth := user_growth_of new_users_this_month new_users_last_month in
  let deployment_trend :=
    fold_left
      (fun trend i =>
         let date := now - Calendar.days i in
         <[Calendar.date date :=
             count (fun d => Calendar.between (Calendar.start_of_day date)
                                              (Calendar.end_of_day date)
                                              (Deployment.started_at d))
                   (deployments db)]> trend)
      (map Z.of_nat (seq 0 7)) ∅ in
  Ok (mkAdminOverview total_users active_users total_projects total_deployments
        (round success_rate 2)
        new_users_this_month new_users_last_month (round user_growth 2)
        deployment_trend).

End Handlers.

End Analytics.

(** ** middleware/rate_limiter.py *)

Module RateLimit.

(** [time.time()] values are modelled by rationals (seconds). *)
Definition timestamp : Type := Q.

(** [int(x)]: truncation toward zero. *)
Definition int (x : Q) : Z := Z.quot (Qnum x) (Z.pos (Qden x)).

(** [min(xs)]: the first smallest element; raises on an empty list. *)
Definition min (xs : list Q) : result Q :=
  match xs with
  | [] => Raise ValueError
  | x :: r => Ok (fold_left (fun m y => if Qltb y m then y else m) r x)
  end.

Record RateLimiter : Type := mkRateLimiter {
  requests_per_minute : Z;
  requests : gmap string (list timestamp)
}.

Definition set_requests (client_ip : string) (l : list timestamp) (self : RateLimiter)
  : RateLimiter :=
  mkRateLimiter (requests_per_minute self) (<[client_ip := l]> (requests self)).

(** [RateLimiter.is_rate_limited]; the limiter is mutated even when the
    answer is that the client is limited (its list has been cleaned). *)
Definition is_rate_limited (self : RateLimiter) (client_ip : string) (now : timestamp)
  : result (bool * Z) * RateLimiter :=
  let self :=
    match requests self !! client_ip with
    | Some l =>
        set_requests client_ip
          (List.filter (fun req_time => Qltb (now - req_time) 60) l) self
    | None => set_requests client_ip [] self
    end in
  let l := default [] (requests self !! client_ip) in
  if Z.of_nat (length l) >=? requests_per_minute self then
    (let* oldest_request := min l in
     let retry_after := int (60 - (now - oldest_request)) in
     Ok (true, retry_after),
     self)
  else
    (Ok (false, 0), set_requests client_ip (l ++ [now]) self).

(** The global instance. *)
Definition rate_limiter : RateLimiter := mkRateLimiter 60 ∅.

(** What the middleware reads of a request: [request.url.path], and
    [request.client.host] when [request.client] is set. *)
Record Request : Type := mkRequest {
  path : string;
  client : option string
}.

Inductive Content : Type :=
  (** [{"detail": f"Rate limit exceeded. Try again in {retry_after} seconds.",
        "retry_after": retry_after}] *)
  | RateLimitExceeded (retry_after : Z)
  | Body (b : string).

Record Response : Type := mkResponse {
  status_code : Z;
  content : Content;
  headers : gmap string string
}.

Definition set_header (k v : string) (r : Response) : Response :=
  mkResponse (status_code r) (content r) (<[k := v]> (headers r)).

(** [str(n)] *)
Definition str (n : Z) : string := pretty n.

Section Middleware.
(** The rest of the application. *)
Variable call_next : Request -> Response.

(** [rate_limit_middleware(request, call_next)] on the limiter [self]. *)
Definition rate_limit_middleware
    (self : RateLimiter) (request : Request) (now : timestamp)
  : result Response * RateLimiter :=
  if String.prefix "/health" (path request) then (Ok (call_next request), self)
  else
    let client_ip := default "unknown" (client request) in
    match is_rate_limited self client_ip now with
    | (Raise e, self) => (Raise e, self)
    | (Ok (is_limited, retry_after), self) =>
        if is_limited then
          (Ok (mkResponse 429 (RateLimitExceeded retry_after)
                          {["Retry-After" := str retry_after]}),
           self)
        else
          let response := call_next request in
          let response :=
            set_header "X-RateLimit-Limit" (str (requests_per_minute self)) response in
          let response :=
            set_header "X-RateLimit-Remaining"
              (str (requests_per_minute self
                    - Z.of_nat (length (default [] (requests self !! client_ip)))))
              response in
          (Ok response, self)
    end.

(** Requests served one after the other, each at its arrival time. *)
Fixpoint serve (self : RateLimiter) (arrivals : list (Request * timestamp))
  : list (result Response) * RateLimiter :=
  match arrivals with
  | [] => ([], self)
  | (request, now) :: rest =>
      let '(r, self) := rate_limit_middleware self request now in
      let '(rs, self) := serve self rest in
      (r :: rs, self)
  end.
End Middleware.

End RateLimit.

(** ** dependencies.py and routers/auth.py *)

Module Auth.

(** The claims of a decoded bearer token that the code reads. *)
Record Payload : Type := mkPayload {
  sub : option Z;
  type : option string
}.

(** [HTTPAuthorizationCredentials]: what [HTTPBearer] extracts from an
    [Authorization: Bearer ...] header. *)
Record HTTPAuthorizationCredentials : Type := mkCredentials {
  scheme : string;
  credentials : string
}.

(** The body of a logout or refresh request. *)
Record RefreshTokenCreate : Type := mkRefreshTokenCreate {
  refresh_token : string
}.

Section Handlers.
(** [jwt.decode(token, SECRET_KEY, algorithms=[ALGORITHM])]; [None] when
    it raises [JWTError] (bad signature, expired, malformed). *)
Variable jwt_decode : string -> option Payload.

Definition credentials_exception : exception :=
  HTTPException HTTP_401_UNAUTHORIZED (Msg "Could not validate credentials").

(** [get_current_user] *)
Definition get_current_user (creds : HTTPAuthorizationCredentials) (db : DB)
  : result User.t :=
  match jwt_decode (credentials creds) with
  | None => Raise credentials_exception
  | Some payload =>
      match sub payload with
      | None => Raise credentials_exception
      | Some user_id =>
          match first (fun u => User.id u =? user_id) (users db) with
          | None => Raise credentials_exception
          | Some user =>
              if negb (User.is_active user)
              then Raise (HTTPException 400 (Msg "Inactive user"))
              else Ok user
          end
      end
  end.

(** [POST /auth/logout].  The [credentials] argument is what the bearer
    scheme extracted; the body of the handler does not look at it. *)
Definition logout (token_data : RefreshTokenCreate) (creds : HTTPAuthorizationCredentials)
  : Deployments.handler string := fun db =>
  (Ok "Successfully logged out",
   with_refresh_tokens
     (filter (fun r => RefreshToken.token r ≠ refresh_token token_data)
             (refresh_tokens db))
     db).
End Handlers.

End Auth.

(** ** utils/security.py *)

Module Security.

Section Hashing.

(** [hashlib.sha256(s.encode('utf-8')).hexdigest().encode('utf-8')]: the
    64 hexadecimal characters of the digest. *)
Variable sha256_hexdigest : string -> string.

(** [bcrypt.hashpw(password, salt)]; [None] when the salt is rejected.  The
    second argument is a salt from [bcrypt.gensalt()] or a full hash, of
    which only the salt part is used. *)
Variable hashpw : string -> string -> option string.

(** [_pre_hash] *)
Definition _pre_hash (password : string) : string := sha256_hexdigest password.

(** [bcrypt.checkpw(password, hashed_password)]: hash again under the salt
    of the stored hash and compare. *)
Definition checkpw (password hashed_password : string) : result bool :=
  match hashpw password hashed_password with
  | Some ret => Ok (String.eqb ret hashed_password)
  | None => Raise ValueError
  end.

(** [verify_password]: any exception is caught and answered [False]. *)
Definition verify_password (plain_password hashed_password : string) : bool :=
  let hashed_input := _pre_hash plain_password in
  match checkpw hashed_input hashed_password with
  | Ok b => b
  | Raise _ => false
  end.

(** [get_password_hash], with the salt [bcrypt.gensalt()] produced. *)
Definition get_password_hash (password salt : string) : result string :=
  if (128 <? String.length password)%nat then Raise ValueError
  else
    let hashed_input := _pre_hash password in
    match hashpw hashed_input salt with
    | Some hashed => Ok hashed
    | None => Raise ValueError
    end.

End Hashing.

End Security.

(** ** A small populated store, used to run the handlers *)

Module Fixture.

Definition alice : User.t := User.mk 1 "alice@example.com" "$2b$12$a" 0 true false.
Definition bob : User.t := User.mk 2 "bob@example.com" "$2b$12$b" 0 true false.
Definition root : User.t := User.mk 3 "root@example.com" "$2b$12$r" 0 true true.

Definition site : Project.t :=
  Project.mk 1 "site" "https://github.com/u/r" ACTIVE (User.id alice) 50.

(** Alice owns one project; nothing has been deployed yet. *)
Definition empty_db : DB := mkDB [alice; bob; root] [site] [] [].

Definition queued : Deployment.t :=
  Deployment.mk 1 1 PENDING ("Deployment queued..." +:+ LF) 100 None.

Definition succeeded : Deployment.t :=
  Deployment.mk 2 1 SUCCESS ("Deployment queued..." +:+ LF) 100 (Some 107).

(** One deployment in flight and one completed, both under Alice's project. *)
Definition busy_db : DB := mkDB [alice; bob; root] [site] [queued; succeeded] [].

Definition idle : Lifecycle.World := Lifecycle.mkWorld empty_db ∅.

End Fixture.

(** ** Vocabulary of the properties *)

(** The row a successful cancellation leaves behind. *)
Definition cancelled_row (deployment : Deployment.t) (now : datetime) : Deployment.t :=
  Deployment.mk (Deployment.id deployment) (Deployment.project_id deployment)
                CANCELLED
                (Deployment.logs deployment +:+ LF +:+ "✗ Deployment cancelled by user" +:+ LF)
                (Deployment.started_at deployment)
                (Some now).

(** No project with this key is owned by the user. *)
Definition not_owner_of_project (db : DB) (user_id project_id : Z) : Prop :=
  Forall (fun p => Project.id p = project_id -> Project.user_id p <> user_id) (projects db).

(** No deployment with this key sits under a project owned by the user. *)
Definition not_owner_of_deployment (db : DB) (user_id deployment_id : Z) : Prop :=
  Forall (fun d => Deployment.id d = deployment_id ->
                   Forall (fun p => Project.id p = Deployment.project_id d ->
                                    Project.user_id p <> user_id) (projects db))
         (deployments db).

Definition not_found (what : string) : exception :=
  HTTPException HTTP_404_NOT_FOUND (Msg (what +:+ " not found")).

(** Carol owns a project with one deployment in flight; Alice owns nothing. *)
Definition carols_db : DB :=
  mkDB [Fixture.alice; User.mk 4 "carol@example.com" "$2b$12$c" 0 true false]
       [Project.mk 7 "api" "https://github.com/c/api" ACTIVE 4 10]
       [Deployment.mk 9 7 BUILDING ("Starting build process..." +:+ LF) 20 None]
       [].

(** Alice triggers a deployment of her project and cancels it before the
    simulator wakes up. *)
Definition cancelled_early : Lifecycle.World :=
  Lifecycle.run Fixture.idle
    [Lifecycle.Trigger 1 Fixture.alice 100; Lifecycle.Cancel 1 Fixture.alice 101].

(** Alice triggers a deployment of her project; nothing else has run yet. *)
Definition just_triggered : Lifecycle.World :=
  Lifecycle.run Fixture.idle [Lifecycle.Trigger 1 Fixture.alice 100].

(** The simulator of deployment 1 is resumed until it has finished. *)
Definition to_completion : list Lifecycle.event :=
  [Lifecycle.Resume 1 (1 # 2) 102; Lifecycle.Resume 1 (1 # 2) 105;
   Lifecycle.Resume 1 (1 # 2) 105; Lifecycle.Resume 1 (1 # 2) 107].

(** [completed_at] is set exactly when the status is terminal. *)
Definition completion_consistent (d : Deployment.t) : Prop :=
  Deployment.completed_at d <> None <-> Lifecycle.terminal (Deployment.status d) = true.

(** 2024-03-15 01:00:00. *)
Definition mid_march : datetime := 19797 * Calendar.DAY + 3600000000.


(** The value a computation returned, if it returned. *)
Definition returned {A : Type} (r : result A) : option A :=
  match r with
  | Ok a => Some a
  | Raise _ => None
  end.

(** The request is subject to the limiter and comes from [client_ip]. *)
Definition from_client (client_ip : string) (request : RateLimit.Request) : Prop :=
  String.prefix "/health" (RateLimit.path request) = false
  /\ default "unknown" (RateLimit.client request) = client_ip.

(** Arrival times that never go back. *)
Fixpoint in_order (times : list Q) : bool :=
  match times with
  | [] => true
  | x :: r => match r with [] => true | y :: _ => Qle_bool x y end && in_order r
  end.

(** Arrival times in order, each less than 60 seconds after the first. *)
Definition within_a_minute (times : list Q) : bool :=
  in_order times
  && match times with
     | [] => true
     | first_time :: _ => forallb (fun t => Qltb (t - first_time) 60) times
     end.

(** The response to a request that was let through, with the headers the
    middleware adds. *)
Definition allowed_response
    (call_next : RateLimit.Request -> RateLimit.Response) (request : RateLimit.Request)
    (remaining : Z) : RateLimit.Response :=
  RateLimit.set_header "X-RateLimit-Remaining" (RateLimit.str remaining)
    (RateLimit.set_header "X-RateLimit-Limit" (RateLimit.str 60) (call_next request)).

(** The response to a request that was refused. *)
Definition too_many_requests (retry_after : Z) : RateLimit.Response :=
  RateLimit.mkResponse 429 (RateLimit.RateLimitExceeded retry_after)
                       {["Retry-After" := RateLimit.str retry_after]}.

Definition list_projects_request : RateLimit.Request :=
  RateLimit.mkRequest "/projects/" (Some "203.0.113.7").

Definition ok_response (_ : RateLimit.Request) : RateLimit.Response :=
  RateLimit.mkResponse 200 (RateLimit.Body "[]") ∅.

(** A reading of the clock: 1700000000 seconds since the epoch plus [n]
    sixty-fourths of a second. *)
Definition tick (n : Z) : Q := (108800000000 + n) # 64.

(** Sixty requests, one every 64th of a second. *)
Definition burst : list (RateLimit.Request * Q) :=
  map (fun i => (list_projects_request, tick (Z.of_nat i))) (seq 0 60).

(** The burst and one more request 59.5 seconds after its first one. *)
Definition burst_then_late : list (RateLimit.Request * Q) :=
  burst ++ [(list_projects_request, tick 3808)].

(** The burst and one more request 30 seconds after its first one. *)
Definition burst_then_half_minute : list (RateLimit.Request * Q) :=
  burst ++ [(list_projects_request, tick 1920)].

(** A decoder that accepts one access token, Alice's. *)
Definition only_alice (token : string) : option Auth.Payload :=
  if String.eqb token "alice.access"
  then Some (Auth.mkPayload (Some 1) (Some "access"))
  else None.

Definition bobs_refresh_token : RefreshToken.t :=
  RefreshToken.mk 1 "bob.refresh" (User.id Fixture.bob) 604800000000 0.

Definition alices_refresh_token : RefreshToken.t :=
  RefreshToken.mk 2 "alice.refresh" (User.id Fixture.alice) 604800000000 0.

(** Alice and Bob are both logged in. *)
Definition logged_in_db : DB :=
  with_refresh_tokens [bobs_refresh_token; alices_refresh_token] Fixture.empty_db.

(** ** Vocabulary of the further properties *)

(** The row [trigger_deployment] inserts. *)
Definition queued_row (db : DB) (project_id : Z) (now : datetime) : Deployment.t :=
  Deployment.mk (next_id (map Deployment.id (deployments db))) project_id PENDING
                ("Deployment queued..." +:+ LF) now None.

(** The log of a deployment the simulator ran from start to end. *)
Definition full_log (success : bool) : string :=
  "Starting build process..." +:+ LF
  +:+ "✓ Dependencies installed" +:+ LF
  +:+ "✓ Building application..." +:+ LF
  +:+ "✓ Build completed successfully" +:+ LF
  +:+ "Starting deployment..." +:+ LF
  +:+ (if success then "✓ Deployment completed successfully!" +:+ LF
       else "✗ Deployment failed: Build timeout" +:+ LF).

(** Every row with this key is the row [d]: the key is a primary key. *)
Definition only_row (db : DB) (deployment_id : Z) (d : Deployment.t) : Prop :=
  Forall (fun x => Deployment.id x = deployment_id -> x = d) (deployments db).

(** The stage the simulator runs next. *)
Definition next_pc (pc : Deployments.sim_pc) : Deployments.sim_pc :=
  match pc with
  | Deployments.InitialDelay => Deployments.BuildDelay
  | Deployments.BuildDelay => Deployments.BuildLogged
  | Deployments.BuildLogged => Deployments.DeployDelay
  | Deployments.DeployDelay | Deployments.Finished => Deployments.Finished
  end.

(** The row a stage of the simulator commits, from the row it found. *)
Definition stage_row
    (pc : Deployments.sim_pc) (rnd : Q) (now : datetime) (d : Deployment.t)
  : Deployment.t :=
  let row status logs completed_at :=
    Deployment.mk (Deployment.id d) (Deployment.project_id d) status logs
                  (Deployment.started_at d) completed_at in
  match pc with
  | Deployments.InitialDelay =>
      row BUILDING ("Starting build process..." +:+ LF) (Deployment.completed_at d)
  | Deployments.BuildDelay =>
      row (Deployment.status d)
          (Deployment.logs d +:+ "✓ Dependencies installed" +:+ LF
           +:+ "✓ Building application..." +:+ LF)
          (Deployment.completed_at d)
  | Deployments.BuildLogged =>
      row DEPLOYING
          (Deployment.logs d +:+ "✓ Build completed successfully" +:+ LF
           +:+ "Starting deployment..." +:+ LF)
          (Deployment.completed_at d)
  | Deployments.DeployDelay =>
      if Qltb (2 # 10) rnd
      then row SUCCESS (Deployment.logs d +:+ "✓ Deployment completed successfully!" +:+ LF)
               (Some now)
      else row FAILED (Deployment.logs d +:+ "✗ Deployment failed: Build timeout" +:+ LF)
               (Some now)
  | Deployments.Finished => d
  end.

(** A settled deployment: its row is terminal, it is the only row with its
    key, and its simulator, if any, has finished. *)
Definition settled (w : Lifecycle.World) (deployment_id : Z) (d : Deployment.t) : Prop :=
  Lifecycle.row w deployment_id = Some d
  /\ only_row (Lifecycle.store w) deployment_id d
  /\ Lifecycle.terminal (Deployment.status d) = true
  /\ (forall pc, Lifecycle.tasks w !! deployment_id = Some pc -> pc = Deployments.Finished).

(** Every deployment sits under a project of the store: the foreign key of
    [deployments.project_id]. *)
Definition deployments_have_projects (db : DB) : Prop :=
  Forall (fun d => Deployment.project_id d ∈ map Project.id (projects db)) (deployments db).

(** The projects of a user, in table order. *)
Definition projects_of (db : DB) (user_id : Z) : list Project.t :=
  filter (fun p => Project.user_id p = user_id) (projects db).

(** The row [update_project] writes over [p]. *)
Definition updated_project (p : Project.t) (project_update : Projects.ProjectCreate)
  : Project.t :=
  Project.mk (Project.id p) (Projects.name project_update)
             (Projects.github_url project_update)
             (Project.status p) (Project.user_id p) (Project.created_at p).

(** The recorded requests that are less than 60 seconds old at [now]. *)
Definition recent (now : Q) (l : list Q) : list Q :=
  List.filter (fun req_time => Qltb (now - req_time) 60) l.

(** The key under which the middleware counts a request. *)
Definition client_of (request : RateLimit.Request) : string :=
  default "unknown" (RateLimit.client request).

(** No client has more recorded requests than the limit. *)
Definition within_limit (self : RateLimit.RateLimiter) : Prop :=
  forall (client_ip : string) (l : list Q),
    RateLimit.requests self !! client_ip = Some l ->
    Z.of_nat (length l) <= RateLimit.requests_per_minute self.

Definition health_request : RateLimit.Request :=
  RateLimit.mkRequest "/health/ready" (Some "203.0.113.7").

(** The global limiter after the burst of sixty requests. *)
Definition saturated_limiter : RateLimit.RateLimiter :=
  snd (RateLimit.serve ok_response RateLimit.rate_limiter burst).

(** The six statuses. *)
Definition all_statuses : list DeploymentStatus :=
  [PENDING; BUILDING; DEPLOYING; SUCCESS; FAILED; CANCELLED].

(** How many of the rows have the status [s]. *)
Definition with_status (s : DeploymentStatus) (ds : list Deployment.t) : Z :=
  Z.of_nat (length (filter (fun d => Deployment.status d = s) ds)).

(** How many of the rows started on the day [day]. *)
Definition started_on (day : Z) (ds : list Deployment.t) : Z :=
  Z.of_nat (length (filter (fun d => Calendar.date (Deployment.started_at d) = day) ds)).

(** Rows listed latest start first. *)
Definition latest_first (ds : list Deployment.t) : Prop :=
  StronglySorted (fun a b => Deployment.started_at b <= Deployment.started_at a) ds.

(** The deployments of a project that started within a range, in table
    order. *)
Definition selected (db : DB) (project_id : Z) (start end_ : datetime)
  : list Deployment.t :=
  filter (fun d => Deployment.project_id d = project_id
                   ∧ Calendar.between start end_ (Deployment.started_at d) = true)
         (deployments db).

(** How many of the rows started in the month [ym] (year and month). *)
Definition started_in_month (ym : Z * Z) (ds : list Deployment.t) : Z :=
  Z.of_nat (length (filter (fun d => Calendar.year_month (Deployment.started_at d) = ym)
                           ds)).

(** ** routers/admin.py *)

Definition with_users (us : list User.t) (db : DB) : DB :=
  mkDB us (projects db) (deployments db) (refresh_tokens db).

Module Admin.

Import Deployments.

(** [db.query(User).filter(User.id == user_id).first()] *)
Definition query_user (db : DB) (user_id : Z) : option User.t :=
  first (fun u => User.id u =? user_id) (users db).

(** [user.is_active = b] *)
Definition set_is_active (b : bool) (u : User.t) : User.t :=
  User.mk (User.id u) (User.email u) (User.hashed_password u) (User.created_at u)
          b (User.is_admin u).

(** [user.is_admin = b] *)
Definition set_is_admin (b : bool) (u : User.t) : User.t :=
  User.mk (User.id u) (User.email u) (User.hashed_password u) (User.created_at u)
          (User.is_active u) b.

(** The UPDATE a [commit] issues for a modified user, keyed by primary key. *)
Definition update_user (u : User.t) (db : DB) : DB :=
  with_users (map (fun x => if User.id x =? User.id u then u else x) (users db)) db.

Definition user_not_found : exception :=
  HTTPException HTTP_404_NOT_FOUND (Msg "User not found").

(** [admin: User = Depends(require_admin)]: the dependency runs before the
    body of the handler. *)
Definition depends_require_admin {A : Type} (current_user : User.t)
    (body : User.t -> handler A) : handler A := fun db =>
  match Analytics.require_admin current_user with
  | Raise e => (Raise e, db)
  | Ok admin => body admin db
  end.

(** [GET /admin/users/{user_id}] *)
Definition get_user (user_id : Z) (current_user : User.t) : handler User.t :=
  depends_require_admin current_user (fun admin db =>
    match query_user db user_id with
    | None => (Raise user_not_found, db)
    | Some user => (Ok user, db)
    end).

(** [POST /admin/users/{user_id}/deactivate] *)
Definition deactivate_user (user_id : Z) (current_user : User.t) : handler string :=
  depends_require_admin current_user (fun admin db =>
    match query_user db user_id with
    | None => (Raise user_not_found, db)
    | Some user =>
        (Ok ("User " +:+ User.email user +:+ " deactivated"),
         update_user (set_is_active false user) db)
    end).

(** [POST /admin/users/{user_id}/activate] *)
Definition activate_user (user_id : Z) (current_user : User.t) : handler string :=
  depends_require_admin current_user (fun admin db =>
    match query_user db user_id with
    | None => (Raise user_not_found, db)
    | Some user =>
        (Ok ("User " +:+ User.email user +:+ " activated"),
         update_user (set_is_active true user) db)
    end).

(** [POST /admin/users/{user_id}/make-admin] *)
Definition make_admin (user_id : Z) (current_user : User.t) : handler string :=
  depends_require_admin current_user (fun admin db =>
    match query_user db user_id with
    | None => (Raise user_not_found, db)
    | Some user =>
        (Ok ("User " +:+ User.email user +:+ " is now an admin"),
         update_user (set_is_admin true user) db)
    end).

(** [POST /admin/users/{user_id}/remove-admin] *)
Definition remove_admin (user_id : Z) (current_user : User.t) : handler string :=
  depends_require_admin current_user (fun admin db =>
    match query_user db user_id with
    | None => (Raise user_not_found, db)
    | Some user =>
        if User.id user =? User.id admin
        then (Raise (HTTPException HTTP_400_BAD_REQUEST
                       (Msg "Cannot remove admin privileges from yourself")), db)
        else
          (Ok ("Admin privileges removed from " +:+ User.email user),
           update_user (set_is_admin false user) db)
    end).

(** [DELETE /admin/projects/{project_id}]; as in [delete_project], a project
    that still has deployments makes the flush fail. *)
Definition delete_project_admin (project_id : Z) (current_user : User.t)
  : handler string :=
  depends_require_admin current_user (fun admin db =>
    match first (fun p => Project.id p =? project_id) (projects db) with
    | None => (Raise (HTTPException HTTP_404_NOT_FOUND (Msg "Project not found")), db)
    | Some project =>
        if existsb (fun d => Deployment.project_id d =? Project.id project) (deployments db)
        then (Raise IntegrityError, db)
        else
          (Ok ("Project " +:+ Project.name project +:+ " deleted by admin"),
           with_projects
             (filter (fun x => Project.id x ≠ Project.id project) (projects db)) db)
    end).

End Admin.

(** The four operations that set a flag on a user. *)
Inductive flag_operation : Set :=
  | Deactivate | Activate | MakeAdmin | RemoveAdmin.

Definition run_flag_operation (op : flag_operation) (user_id : Z) (current_user : User.t)
  : Deployments.handler string :=
  match op with
  | Deactivate => Admin.deactivate_user user_id current_user
  | Activate => Admin.activate_user user_id current_user
  | MakeAdmin => Admin.make_admin user_id current_user
  | RemoveAdmin => Admin.remove_admin user_id current_user
  end.

(** The part of a user row that no flag operation may change. *)
Definition identity_of (u : User.t) : Z * string * string * datetime :=
  (User.id u, User.email u, User.hashed_password u, User.created_at u).

(** Primary keys of the users are distinct. *)
Definition user_ids_distinct (db : DB) : Prop := NoDup (map User.id (users db)).

(** A store in which the administrator is listed after an ordinary user. *)
Definition staffed_db : DB :=
  mkDB [Fixture.alice; Fixture.root] [Fixture.site] [] [].

(** What a flag operation leaves alone on a row: its identity, and the flag
    the operation is not about. *)
Definition same_but_flag (op : flag_operation) (u u' : User.t) : Prop :=
  identity_of u' = identity_of u
  /\ match op with
     | Deactivate | Activate => User.is_admin u' = User.is_admin u
     | MakeAdmin | RemoveAdmin => User.is_active u' = User.is_active u
     end.

(** Some user of the store is an administrator. *)
Definition has_admin (db : DB) : Prop :=
  Exists (fun u => User.is_admin u = true) (users db).

(** A remove-admin request: the caller named by the bearer token is loaded
    from the store as it is when the request arrives (a caller who is unknown
    or inactive is turned away before the handler runs). *)
Definition remove_admin_request (db : DB) (request : Z * Z) : DB :=
  let '(caller_id, user_id) := request in
  match Admin.query_user db caller_id with
  | Some current_user =>
      if User.is_active current_user
      then snd (Admin.remove_admin user_id current_user db)
      else db
  | None => db
  end.

(** ** routers/auth.py, with the token functions of dependencies.py and the
       password rules of utils/security.py *)

Module Accounts.

Import Deployments.

(** The body of a register or login request.  A string is read as the
    sequence of its characters. *)
Record UserCreate : Type := mkUserCreate {
  email : string;
  password : string
}.

(** The [Token] response. *)
Record Token : Type := mkToken {
  access_token : string;
  refresh_token : string;
  token_type : string
}.

(** The claims handed to [jwt.encode]: the subject (the decimal form of a
    user key), the expiry as the encoder writes it, in whole seconds, and
    the token type. *)
Record Claims : Type := mkClaims {
  claim_sub : Z;
  claim_exp : Z;
  claim_type : string
}.

Definition ACCESS_TOKEN_EXPIRE_MINUTES : Z := 30.
Definition REFRESH_TOKEN_EXPIRE_DAYS : Z := 7.

(** Microseconds in a second. *)
Definition SECOND : Z := 1000000.

(** [timedelta(minutes=n)] *)
Definition minutes (n : Z) : Z := n * 60 * SECOND.

(** [string.punctuation] *)
Definition punctuation : string :=
  "!" +:+ String "034"%char "#$%&'()*+,-./:;<=>?@[\]^_`{|}~".

(** [any(p(c) for c in s)] *)
Definition any (p : ascii -> bool) (s : string) : bool :=
  existsb p (list_ascii_of_string s).

Section Handlers.

(** [str.isupper], [str.islower] and [str.isdigit] on one character. *)
Variables isupper islower isdigit : ascii -> bool.

Variable sha256_hexdigest : string -> string.
Variable hashpw : string -> string -> option string.

(** The text of the [ValueError] that [bcrypt.hashpw] raises. *)
Variable hashpw_error : string.

(** [jwt.encode(claims, SECRET_KEY, algorithm=ALGORITHM)] *)
Variable jwt_encode : Claims -> string.

(** [jwt.decode(token, SECRET_KEY, algorithms=[ALGORITHM])] *)
Variable jwt_decode : string -> option Auth.Payload.

(** [validate_password_strength] (utils/security.py) *)
Definition validate_password_strength (password : string) : bool * string :=
  if (String.length password <? 8)%nat
  then (false, "Password must be at least 8 characters long")
  else if (128 <? String.length password)%nat
  then (false, "Password must be shorter than 128 characters")
  else if negb (any isupper password)
  then (false, "Password must contain at least one uppercase letter")
  else if negb (any islower password)
  then (false, "Password must contain at least one lowercase letter")
  else if negb (any isdigit password)
  then (false, "Password must contain at least one digit")
  else if negb (any (fun c => existsb (Ascii.eqb c) (list_ascii_of_string punctuation))
                    password)
  then (false, "Password must contain at least one special character")
  else (true, "Password is strong").

(** [str(e)] for the [ValueError] that [get_password_hash] lets out. *)
Definition value_error_text (password : string) : string :=
  if (128 <? String.length password)%nat
  then "Password must be shorter than 128 characters"
  else hashpw_error.

(** [db.query(User).filter(User.email == email).first()] *)
Definition query_user_by_email (db : DB) (email : string) : option User.t :=
  first (fun u => String.eqb (User.email u) email) (users db).

(** [POST /auth/register], with the salt [bcrypt.gensalt()] produced.  The
    new row takes its key from the sequence, [created_at] from the server
    default and the two flags from the column defaults. *)
Definition register (user : UserCreate) (salt : string) (now : datetime)
  : handler User.t := fun db =>
  match query_user_by_email db (email user) with
  | Some db_user =>
      (Raise (HTTPException HTTP_400_BAD_REQUEST (Msg "Email already registered")), db)
  | None =>
      match validate_password_strength (password user) with
      | (false, message) => (Raise (HTTPException HTTP_400_BAD_REQUEST (Msg message)), db)
      | (true, _) =>
          match Security.get_password_hash sha256_hexdigest hashpw (password user) salt with
          | Raise ValueError =>
              (Raise (HTTPException HTTP_400_BAD_REQUEST
                        (Msg (value_error_text (password user)))), db)
          | Raise e => (Raise e, db)
          | Ok hashed_password =>
              let db_user :=
                User.mk (next_id (map User.id (users db))) (email user) hashed_password
                        now true false in
              (Ok db_user, with_users (users db ++ [db_user]) db)
          end
      end
  end.

(** [create_access_token(data={"sub": str(user_id)}, expires_delta)]; an
    absent or zero [expires_delta] selects the configured lifetime. *)
Definition create_access_token (user_id : Z) (expires_delta : option Z) (now : datetime)
  : string :=
  let expire :=
    match expires_delta with
    | Some delta =>
        if delta =? 0 then now + minutes ACCESS_TOKEN_EXPIRE_MINUTES else now + delta
    | None => now + minutes ACCESS_TOKEN_EXPIRE_MINUTES
    end in
  jwt_encode (mkClaims user_id (expire / SECOND) "access").

(** [create_refresh_token(data={"sub": str(user_id)})] *)
Definition create_refresh_token (user_id : Z) (now : datetime) : string :=
  let expire := now + Calendar.days REFRESH_TOKEN_EXPIRE_DAYS in
  jwt_encode (mkClaims user_id (expire / SECOND) "refresh").

(** The INSERT of a refresh token and its commit; the [token] column is
    unique. *)
Definition store_refresh_token (token : string) (user_id : Z) (now : datetime) (db : DB)
  : result unit * DB :=
  if existsb (fun r => String.eqb (RefreshToken.token r) token) (refresh_tokens db)
  then (Raise IntegrityError, db)
  else
    let db_refresh_token :=
      RefreshToken.mk (next_id (map RefreshToken.id (refresh_tokens db))) token user_id
                      (now + Calendar.days REFRESH_TOKEN_EXPIRE_DAYS) now in
    (Ok tt, with_refresh_tokens (refresh_tokens db ++ [db_refresh_token]) db).

Definition incorrect_email_or_password : exception :=
  HTTPException HTTP_401_UNAUTHORIZED (Msg "Incorrect email or password").

(** The common tail of [login] and [refresh]: both tokens are created, the
    refresh token is stored, and the pair is the response. *)
Definition issue_tokens (user : User.t) (now : datetime) : handler Token := fun db =>
  let access_token := create_access_token (User.id user) None now in
  let refresh_token := create_refresh_token (User.id user) now in
  match store_refresh_token refresh_token (User.id user) now db with
  | (Raise e, db) => (Raise e, db)
  | (Ok _, db) => (Ok (mkToken access_token refresh_token "bearer"), db)
  end.

(** [POST /auth/login] *)
Definition login (user : UserCreate) (now : datetime) : handler Token := fun db =>
  match query_user_by_email db (email user) with
  | None => (Raise incorrect_email_or_password, db)
  | Some db_user =>
      if negb (Security.verify_password sha256_hexdigest hashpw (password user)
                 (User.hashed_password db_user))
      then (Raise incorrect_email_or_password, db)
      else if negb (User.is_active db_user)
      then (Raise (HTTPException 400 (Msg "Inactive user")), db)
      else issue_tokens db_user now db
  end.

(** [verify_refresh_token] (dependencies.py) *)
Definition verify_refresh_token (token : string) (now : datetime) (db : DB)
  : result User.t :=
  match jwt_decode token with
  | None => Raise (HTTPException 400 (Msg "Invalid token"))
  | Some payload =>
      if negb (bool_decide (Auth.type payload = Some "refresh"))
      then Raise (HTTPException 400 (Msg "Invalid token type"))
      else
        match Auth.sub payload with
        | None => Raise (HTTPException 400 (Msg "Invalid token"))
        | Some user_id =>
            match first (fun r => String.eqb (RefreshToken.token r) token
                                  && (now <? RefreshToken.expires_at r))
                        (refresh_tokens db) with
            | None => Raise (HTTPException 400 (Msg "Invalid or expired refresh token"))
            | Some db_token =>
                match first (fun u => User.id u =? user_id) (users db) with
                | None => Raise (HTTPException 400 (Msg "User not found or inactive"))
                | Some user =>
                    if negb (User.is_active user)
                    then Raise (HTTPException 400 (Msg "User not found or inactive"))
                    else Ok user
                end
            end
        end
  end.

(** [POST /auth/refresh] *)
Definition refresh (token_data : Auth.RefreshTokenCreate) (now : datetime)
  : handler Token := fun db =>
  match verify_refresh_token (Auth.refresh_token token_data) now db with
  | Raise e => (Raise e, db)
  | Ok user => issue_tokens user now db
  end.

End Handlers.

End Accounts.

(** A password that meets every rule of the strength check. *)
Definition strong_password (isupper islower isdigit : ascii -> bool) (password : string)
  : Prop :=
  (8 <= String.length password <= 128)%nat
  /\ Exists (fun c => isupper c = true) (list_ascii_of_string password)
  /\ Exists (fun c => islower c = true) (list_ascii_of_string password)
  /\ Exists (fun c => isdigit c = true) (list_ascii_of_string password)
  /\ Exists (fun c => c ∈ list_ascii_of_string Accounts.punctuation)
            (list_ascii_of_string password).

(** [bcrypt.hashpw] under the salt of a hash it produced gives that hash
    again. *)
Definition rehash_stable (hashpw : string -> string -> option string) : Prop :=
  forall password salt hashed,
    hashpw password salt = Some hashed -> hashpw password hashed = Some hashed.

(** The character classes on the ASCII letters and digits. *)
Definition ascii_between (lo hi : nat) (c : ascii) : bool :=
  (lo <=? nat_of_ascii c)%nat && (nat_of_ascii c <=? hi)%nat.
Definition ascii_isupper : ascii -> bool := ascii_between 65 90.
Definition ascii_islower : ascii -> bool := ascii_between 97 122.
Definition ascii_isdigit : ascii -> bool := ascii_between 48 57.

(** A toy hash that ignores the salt, and toy tokens that spell out their
    claims; enough to run the handlers. *)
Definition toy_hashpw (password salt : string) : option string := Some password.
Definition toy_jwt_encode (claims : Accounts.Claims) : string :=
  Accounts.claim_type claims +:+ ":" +:+ pretty (Accounts.claim_sub claims)
  +:+ ":" +:+ pretty (Accounts.claim_exp claims).

Definition carol : Accounts.UserCreate :=
  Accounts.mkUserCreate "carol@example.com" "Passw0rd!".

(** The test the middleware makes of a request: it is not a health check
    and it is counted under [client_ip]. *)
Definition is_from (client_ip : string) (request : RateLimit.Request) : bool :=
  negb (String.prefix "/health" (RateLimit.path request))
  && String.eqb (default "unknown" (RateLimit.client request)) client_ip.

(** The client's requests among the arrivals, in order. *)
Definition own_requests (client_ip : string) (arrivals : list (RateLimit.Request * Q))
  : list (RateLimit.Request * Q) :=
  List.filter (fun a => is_from client_ip (fst a)) arrivals.

(** The responses given to the client's requests, in order. *)
Definition own_responses (client_ip : string) (arrivals : list (RateLimit.Request * Q))
    (responses : list (result RateLimit.Response)) : list (result RateLimit.Response) :=
  map snd (List.filter (fun p => is_from client_ip (fst (fst p)))
                       (combine arrivals responses)).

(** The answer to the client's request number [n] (from 0) in a window
    opened at [first_time]: let through while fewer than 60 came before. *)
Definition expected_response
    (call_next : RateLimit.Request -> RateLimit.Response) (first_time : Q) (n : nat)
    (a : RateLimit.Request * Q) : result RateLimit.Response :=
  if (n <? 60)%nat
  then Ok (allowed_response call_next (fst a) (59 - Z.of_nat n))
  else Ok (too_many_requests (RateLimit.int (60 - (snd a - first_time)))).

(** The window opened by a first request at [first_time]. *)
Definition in_window (first_time t : Q) : Prop :=
  (first_time <= t)%Q /\ (t - first_time < 60)%Q.

(** What the limiter holds for the client during the window: the limit is
    60 and, seen from any instant of the window, exactly the requests
    [counted] are less than 60 seconds old. *)
Definition holds (client_ip : string) (first_time : Q) (self : RateLimit.RateLimiter)
    (counted : list Q) : Prop :=
  RateLimit.requests_per_minute self = 60
  /\ forall now, in_window first_time now ->
       recent now (default [] (RateLimit.requests self !! client_ip)) = counted.

(** The burst of one client with the requests of another client and health
    checks in between, and one more request 30 seconds after the first. *)
Definition busy_minute : list (RateLimit.Request * Q) :=
  flat_map (fun a => [a; (RateLimit.mkRequest "/projects/" (Some "198.51.100.9"), snd a);
                      (health_request, snd a)]) burst
  ++ [(list_projects_request, tick 1920)].

(** A limiter that remembers requests of the client from more than a minute
    before. *)
Definition returning_client : RateLimit.RateLimiter :=
  RateLimit.mkRateLimiter 60 {["203.0.113.7" := [tick (-6400); tick (-3840)]]}.

(** * Properties *)

(** ** The model on concrete inputs *)

Section Runs.

Import Lifecycle.

Example civil_of_day_19797 : Calendar.civil_from_days 19797 = (2024, 3, 15).
Proof. reflexivity. Qed.

Example day_of_leap_day : Calendar.days_from_civil 2000 2 29 = 11016.
Proof. reflexivity. Qed.

Example month_starts_in_march :
  Calendar.civil_from_days (Calendar.date (Analytics.current_month_start mid_march))
  = (2024, 3, 1)
  /\ Calendar.civil_from_days (Calendar.date (Analytics.last_month_start mid_march))
     = (2024, 2, 1).
Proof. by vm_compute. Qed.

Example month_starts_in_january :
  Calendar.civil_from_days
    (Calendar.date (Analytics.last_month_start (Calendar.days_from_civil 2024 1 20
                                                * Calendar.DAY)))
  = (2023, 12, 1).
Proof. by vm_compute. Qed.

Example int_truncates_toward_zero :
  RateLimit.int (7 # 2) = 3 /\ RateLimit.int (1 # 2) = 0 /\ RateLimit.int (- (7 # 2)) = -3.
Proof. by vm_compute. Qed.

Example first_line_of_queued : first_line ("Deployment queued..." +:+ LF) = "Deployment queued...".
Proof. reflexivity. Qed.

(** A deployment nobody cancels runs PENDING, BUILDING, DEPLOYING, SUCCESS,
    and gets its completion time with the last status. *)
Example undisturbed_run :
  (fun w => (Deployment.status <$> row w 1, Deployment.completed_at <$> row w 1))
    <$> [just_triggered;
         run just_triggered (take 1 to_completion);
         run just_triggered (take 3 to_completion);
         run just_triggered to_completion]
  = [(Some PENDING, Some None); (Some BUILDING, Some None);
     (Some DEPLOYING, Some None); (Some SUCCESS, Some (Some 107))].
Proof. by vm_compute. Qed.

(** A random draw of at most 0.2 makes the last stage fail. *)
Example unlucky_run :
  Deployment.status
    <$> row (run just_triggered (take 3 to_completion ++ [Resume 1 (1 # 10) 107])) 1
  = Some FAILED.
Proof. by vm_compute. Qed.

(** A start date with a trailing [Z] against the default end: the
    comparison of the two bounds raises. *)
Example z_suffixed_start_raises :
  Analytics.get_user_analytics (Analytics.GivenAware 0) Analytics.NotGiven
    Fixture.alice mid_march Fixture.busy_db
  = Raise TypeError.
Proof. reflexivity. Qed.

(** Project statistics without date parameters on PostgreSQL: the creation
    time is read back offset-aware, the default end is naive. *)
Example project_defaults_raise_on_postgresql :
  Analytics.get_project_analytics Analytics.PostgreSQL 1 Analytics.NotGiven
    Analytics.NotGiven Fixture.alice mid_march Fixture.busy_db
  = Raise TypeError.
Proof. reflexivity. Qed.

Example half_of_the_deployments_succeeded :
  Analytics.us_success_rate
    <$> returned (Analytics.get_user_analytics (Analytics.Given 0) (Analytics.Given 1000)
                    Fixture.alice mid_march Fixture.busy_db)
  = Some (Float (5000 # 100)).
Proof. by vm_compute. Qed.

End Runs.

(** ** Queries *)

Section Queries.

Lemma first_Some_inv {A : Type} (p : A -> bool) (rows : list A) (x : A) :
  first p rows = Some x -> x ∈ rows /\ p x = true.
Proof.
  unfold first. intros Hf. apply find_some in Hf as [Hin Hp].
  split; [by apply list_elem_of_In | done].
Qed.

Lemma first_None_iff {A : Type} (p : A -> bool) (rows : list A) :
  first p rows = None <-> Forall (fun x => p x = false) rows.
Proof.
  unfold first. induction rows as [|x rows IH]; simpl.
  - split; [constructor | done].
  - destruct (p x) eqn:Hp.
    + split; [done |]. intros HF. inversion HF; congruence.
    + rewrite IH. split; [by constructor |]. intros HF. by inversion HF.
Qed.

(** After the UPDATE, the row read back by primary key is the written one. *)
Lemma load_update_deployment (db : DB) (d d0 : Deployment.t) :
  Deployments.load db (Deployment.id d) = Some d0 ->
  Deployments.load (update_deployment d db) (Deployment.id d) = Some d.
Proof.
  unfold Deployments.load, update_deployment, first. simpl.
  induction (deployments db) as [|x rows IH]; simpl; [done |].
  destruct (Deployment.id x =? Deployment.id d) eqn:Hx; simpl.
  - intros _. by rewrite Z.eqb_refl.
  - rewrite Hx. apply IH.
Qed.

(** The UPDATE touches no row with another key. *)
Lemma load_update_deployment_ne (db : DB) (d : Deployment.t) (k : Z) :
  k <> Deployment.id d ->
  Deployments.load (update_deployment d db) k = Deployments.load db k.
Proof.
  intros Hk. unfold Deployments.load, update_deployment, first. simpl.
  induction (deployments db) as [|x rows IH]; simpl; [done |].
  destruct (Deployment.id x =? Deployment.id d) eqn:Hx; simpl.
  - apply Z.eqb_eq in Hx.
    destruct (Deployment.id d =? k) eqn:Hd; [apply Z.eqb_eq in Hd; congruence |].
    destruct (Deployment.id x =? k) eqn:Hxk; [apply Z.eqb_eq in Hxk; congruence |].
    apply IH.
  - destruct (Deployment.id x =? k); [done | apply IH].
Qed.

(** A row found through the ownership join carries the key asked for. *)
Lemma query_deployment_id (db : DB) (deployment_id user_id : Z) (d : Deployment.t) :
  query_deployment db deployment_id user_id = Some d ->
  Deployment.id d = deployment_id /\ d ∈ deployments db.
Proof.
  unfold query_deployment. intros Hq. apply first_Some_inv in Hq as [Hin Hp].
  apply andb_true_iff in Hp as [Hid _]. apply Z.eqb_eq in Hid. done.
Qed.

Lemma load_is_Some (db : DB) (d : Deployment.t) :
  d ∈ deployments db -> is_Some (Deployments.load db (Deployment.id d)).
Proof.
  intros Hin. destruct (Deployments.load db (Deployment.id d)) eqn:Hl; [by eexists |].
  apply first_None_iff in Hl. rewrite Forall_forall in Hl.
  specialize (Hl d Hin). simpl in Hl. by rewrite Z.eqb_refl in Hl.
Qed.

End Queries.

(** ** Cancellation *)

Section Cancellation.

Import Deployments.

Lemma status_cases (s : DeploymentStatus) :
  s ∈ [SUCCESS; FAILED; CANCELLED] \/ s ∈ [PENDING; BUILDING; DEPLOYING].
Proof. destruct s; [right | right | right | left | left | left]; repeat constructor. Qed.

Lemma status_not_both (s : DeploymentStatus) :
  s ∈ [PENDING; BUILDING; DEPLOYING] -> s ∉ [SUCCESS; FAILED; CANCELLED].
Proof.
  intros Hs Ht. apply list_elem_of_In in Hs, Ht. simpl in Hs, Ht.
  destruct s; intuition discriminate.
Qed.

(** C2.  For a deployment the requester owns (the ownership query finds
    it): when its status is SUCCESS, FAILED or CANCELLED, cancel raises the
    400 conflict error and the store is unchanged; when its status is
    PENDING, BUILDING or DEPLOYING, cancel succeeds and the committed row
    has status CANCELLED, a completion time (the current instant), and the
    old log followed by the cancellation line. *)
Theorem cancel_deployment_conflict_or_cancelled
    (db : DB) (deployment_id : Z) (current_user : User.t) (now : datetime)
    (deployment : Deployment.t) :
  query_deployment db deployment_id (User.id current_user) = Some deployment ->
  (Deployment.status deployment ∈ [SUCCESS; FAILED; CANCELLED] ->
     cancel_deployment deployment_id current_user now db
     = (Raise (HTTPException HTTP_400_BAD_REQUEST
                             (CannotCancel (Deployment.status deployment))), db))
  /\ (Deployment.status deployment ∈ [PENDING; BUILDING; DEPLOYING] ->
        exists db',
          cancel_deployment deployment_id current_user now db
          = (Ok "Deployment cancelled successfully", db')
          /\ load db' deployment_id = Some (cancelled_row deployment now)
          /\ Deployment.completed_at (cancelled_row deployment now) <> None
          /\ users db' = users db /\ projects db' = projects db
          /\ refresh_tokens db' = refresh_tokens db).
Proof.
  intros Hq. unfold cancel_deployment. rewrite Hq.
  destruct (query_deployment_id _ _ _ _ Hq) as [Hid Hin].
  split; intros Hs.
  - by rewrite bool_decide_eq_true_2.
  - rewrite bool_decide_eq_false_2 by by apply status_not_both.
    eexists. split; [reflexivity |].
    split; [| by repeat split].
    destruct (load_is_Some db deployment Hin) as [d0 Hd0].
    rewrite <- Hid.
    exact (load_update_deployment db (cancelled_row deployment now) d0 Hd0).
Qed.

Lemma cancel_deployment_conflict_or_cancelled_witness :
  (cancel_deployment 2 Fixture.alice 200 Fixture.busy_db
   = (Raise (HTTPException 400 (CannotCancel SUCCESS)), Fixture.busy_db))
  /\ (exists db',
        cancel_deployment 1 Fixture.alice 200 Fixture.busy_db
        = (Ok "Deployment cancelled successfully", db')
        /\ load db' 1 = Some (cancelled_row Fixture.queued 200)).
Proof.
  split.
  - apply (cancel_deployment_conflict_or_cancelled
             Fixture.busy_db 2 Fixture.alice 200 Fixture.succeeded); [reflexivity |].
    simpl. repeat constructor.
  - destruct (cancel_deployment_conflict_or_cancelled
                Fixture.busy_db 1 Fixture.alice 200 Fixture.queued) as [_ Hrun];
      [reflexivity |].
    destruct Hrun as (db' & Hc & Hl & _); [simpl; repeat constructor |].
    exists db'. split; [exact Hc | exact Hl].
Defined.

End Cancellation.

(** ** Ownership scoping *)

Section Ownership.

Import Deployments Projects.

Lemma query_project_foreign (db : DB) (user_id project_id : Z) :
  not_owner_of_project db user_id project_id ->
  query_project db project_id user_id = None.
Proof.
  unfold not_owner_of_project, query_project. intros HF.
  apply first_None_iff. eapply Forall_impl; [exact HF |].
  intros p Hp. simpl. apply andb_false_iff.
  destruct (Project.id p =? project_id) eqn:Hid; [right | by left].
  apply Z.eqb_eq in Hid. apply Z.eqb_neq. by apply Hp.
Qed.

Lemma query_deployment_foreign (db : DB) (user_id deployment_id : Z) :
  not_owner_of_deployment db user_id deployment_id ->
  query_deployment db deployment_id user_id = None.
Proof.
  unfold not_owner_of_deployment, query_deployment. intros HF.
  apply first_None_iff. eapply Forall_impl; [exact HF |].
  intros d Hd. simpl. apply andb_false_iff.
  destruct (Deployment.id d =? deployment_id) eqn:Hid; [right | by left].
  apply Z.eqb_eq in Hid. specialize (Hd Hid).
  apply not_true_is_false. intros Hex. apply existsb_exists in Hex as (p & Hin & Hp).
  apply andb_true_iff in Hp as [Hpid Hown]. apply Z.eqb_eq in Hpid, Hown.
  rewrite Forall_forall in Hd. apply list_elem_of_In in Hin.
  by apply (Hd p Hin Hpid).
Qed.

(** C5.  When the project (resp. the deployment) asked for is not owned by
    the requesting user, each of retrieve, update, delete on the project and
    retrieve, log retrieval, cancel on the deployment raises 404 Not Found and
    leaves the store as it was: nothing is returned and nothing is mutated.
    The handlers do not consult the admin flag, so this covers in particular
    every non-admin requester. *)
Theorem foreign_resources_not_found
    (db : DB) (current_user : User.t) (project_id deployment_id : Z)
    (project_update : ProjectCreate) (now : datetime) :
  not_owner_of_project db (User.id current_user) project_id ->
  not_owner_of_deployment db (User.id current_user) deployment_id ->
  get_project project_id current_user db = (Raise (not_found "Project"), db)
  /\ update_project project_id project_update current_user db
     = (Raise (not_found "Project"), db)
  /\ delete_project project_id current_user db = (Raise (not_found "Project"), db)
  /\ get_deployment deployment_id current_user db = (Raise (not_found "Deployment"), db)
  /\ get_deployment_logs deployment_id current_user db
     = (Raise (not_found "Deployment"), db)
  /\ cancel_deployment deployment_id current_user now db
     = (Raise (not_found "Deployment"), db).
Proof.
  intros Hp Hd.
  apply query_project_foreign in Hp. apply query_deployment_foreign in Hd.
  unfold get_project, update_project, delete_project,
    get_deployment, get_deployment_logs, cancel_deployment.
  rewrite Hp, Hd. by repeat split.
Qed.

Lemma foreign_resources_not_found_witness :
  get_project 7 Fixture.alice carols_db = (Raise (not_found "Project"), carols_db)
  /\ cancel_deployment 9 Fixture.alice 30 carols_db
     = (Raise (not_found "Deployment"), carols_db).
Proof.
  destruct (foreign_resources_not_found carols_db Fixture.alice 7 9
              (mkProjectCreate "mine" "https://github.com/a/x") 30)
    as (Hget & _ & _ & _ & _ & Hcancel).
  - repeat constructor. simpl. lia.
  - repeat constructor. simpl. lia.
  - split; [exact Hget | exact Hcancel].
Defined.

End Ownership.

(** ** The simulator on its own *)

Section SimulatorAlone.

Import Deployments Lifecycle.

Lemma append_assoc (a b c : string) : (a +:+ b) +:+ c = a +:+ (b +:+ c).
Proof.
  induction a as [|x a IH]; [done |].
  change (String x ((a +:+ b) +:+ c) = String x (a +:+ (b +:+ c))). by rewrite IH.
Qed.

Lemma append_empty_r (a : string) : a +:+ "" = a.
Proof.
  induction a as [|x a IH]; [done |].
  change (String x (a +:+ "") = String x a). by rewrite IH.
Qed.

Lemma load_id (db : DB) (deployment_id : Z) (d : Deployment.t) :
  load db deployment_id = Some d -> Deployment.id d = deployment_id.
Proof. intros Hl. apply first_Some_inv in Hl as [_ Hp]. by apply Z.eqb_eq in Hp. Qed.

Lemma load_committed (db : DB) (deployment_id : Z) (d d' : Deployment.t) :
  load db deployment_id = Some d ->
  Deployment.id d' = deployment_id ->
  load (update_deployment d' db) deployment_id = Some d'.
Proof. intros Hl <-. by apply load_update_deployment with d. Qed.

(** On a row that is still running (status not terminal, no completion
    time), every stage of the simulator commits a row on which the
    completion time is set exactly when the status is terminal. *)
Lemma simulate_keeps_completion_consistent
    (db : DB) (deployment_id : Z) (pc : sim_pc) (rnd : Q) (now : datetime)
    (d : Deployment.t) :
  load db deployment_id = Some d ->
  terminal (Deployment.status d) = false ->
  Deployment.completed_at d = None ->
  exists d',
    load (fst (simulate_deployment deployment_id pc rnd now db)) deployment_id = Some d'
    /\ completion_consistent d'.
Proof.
  intros Hl Hrun Hnone. pose proof (load_id _ _ _ Hl) as Hid.
  assert (Hd : completion_consistent d).
  { unfold completion_consistent. rewrite Hrun, Hnone. split; [done | discriminate]. }
  unfold simulate_deployment.
  destruct pc; rewrite ?Hl; simpl fst.
  - eexists. split; [apply load_committed with d; [exact Hl | exact Hid] |].
    unfold completion_consistent. simpl. rewrite Hnone. split; [done | discriminate].
  - eexists. split; [apply load_committed with d; [exact Hl | exact Hid] |].
    unfold completion_consistent. simpl. rewrite Hnone, Hrun.
    split; [done | discriminate].
  - eexists. split; [apply load_committed with d; [exact Hl | exact Hid] |].
    unfold completion_consistent. simpl. rewrite Hnone. split; [done | discriminate].
  - eexists. split; [apply load_committed with d; [exact Hl |]; by destruct (Qltb (2 # 10) rnd) |].
    unfold completion_consistent. simpl.
    split; [intros _ | discriminate]. by destruct (Qltb (2 # 10) rnd).
  - exists d. by split.
Qed.

(** Every stage after the first appends to the log it finds. *)
Lemma simulate_appends_after_first_stage
    (db : DB) (deployment_id : Z) (pc : sim_pc) (rnd : Q) (now : datetime)
    (d : Deployment.t) :
  load db deployment_id = Some d ->
  pc <> InitialDelay ->
  exists d' suffix,
    load (fst (simulate_deployment deployment_id pc rnd now db)) deployment_id = Some d'
    /\ Deployment.logs d' = Deployment.logs d +:+ suffix.
Proof.
  intros Hl Hpc. pose proof (load_id _ _ _ Hl) as Hid.
  unfold simulate_deployment.
  destruct pc; [done | | | |]; rewrite ?Hl; simpl fst.
  - eexists. exists ("✓ Dependencies installed" +:+ LF +:+ "✓ Building application..." +:+ LF).
    split; [apply load_committed with d; [exact Hl | exact Hid] |].
    simpl. by rewrite append_assoc.
  - eexists.
    exists ("✓ Build completed successfully" +:+ LF +:+ "Starting deployment..." +:+ LF).
    split; [apply load_committed with d; [exact Hl | exact Hid] |].
    simpl. by rewrite append_assoc.
  - eexists.
    exists (if Qltb (2 # 10) rnd
            then "✓ Deployment completed successfully!" +:+ LF
            else "✗ Deployment failed: Build timeout" +:+ LF).
    split; [apply load_committed with d; [exact Hl |] |];
      by destruct (Qltb (2 # 10) rnd).
  - exists d, "". split; [exact Hl |]. by rewrite append_empty_r.
Qed.

End SimulatorAlone.

(** ** The simulator against cancellation *)

Section Simulator.

Import Deployments Lifecycle.

(** The first stage writes BUILDING and a fresh log over whatever the row
    holds: the status it loaded is not looked at. *)
Lemma simulate_first_stage_blind
    (db : DB) (deployment_id : Z) (rnd : Q) (now : datetime) (d : Deployment.t) :
  load db deployment_id = Some d ->
  exists db',
    simulate_deployment deployment_id InitialDelay rnd now db = (db', BuildDelay)
    /\ load db' deployment_id
       = Some (Deployment.mk (Deployment.id d) (Deployment.project_id d) BUILDING
                             ("Starting build process..." +:+ LF)
                             (Deployment.started_at d) (Deployment.completed_at d)).
Proof.
  intros Hl. unfold simulate_deployment. rewrite Hl.
  eexists. split; [reflexivity |].
  assert (Hid : Deployment.id d = deployment_id).
  { apply first_Some_inv in Hl as [_ Hp]. by apply Z.eqb_eq in Hp. }
  subst deployment_id.
  exact (load_update_deployment db
           (Deployment.set_logs _ (Deployment.set_status BUILDING d)) d Hl).
Qed.

(** Cancel never rewrites a row whose status is terminal. *)
Lemma cancel_keeps_terminal
    (db : DB) (deployment_id : Z) (current_user : User.t) (now : datetime) :
  (forall d, query_deployment db deployment_id (User.id current_user) = Some d ->
             terminal (Deployment.status d) = true) ->
  snd (cancel_deployment deployment_id current_user now db) = db.
Proof.
  intros Ht. unfold cancel_deployment.
  destruct (query_deployment db deployment_id (User.id current_user)) as [d|] eqn:Hq;
    [| done].
  specialize (Ht d eq_refl). unfold terminal in Ht. by rewrite Ht.
Qed.

(** C1.  The simulator does not re-read the status before it writes.  After
    trigger and a successful cancel the row is CANCELLED; the simulator's next
    resumption overwrites it with BUILDING, and run to its end it leaves the
    cancelled deployment in SUCCESS. *)
Theorem simulator_overwrites_cancelled :
  fst (cancel_deployment 1 Fixture.alice 101 (store just_triggered))
  = Ok "Deployment cancelled successfully"
  /\ Deployment.status <$> row cancelled_early 1 = Some CANCELLED
  /\ Deployment.status <$> row (exec cancelled_early (Resume 1 (1 # 2) 102)) 1
     = Some BUILDING
  /\ Deployment.status <$> row (run cancelled_early to_completion) 1 = Some SUCCESS.
Proof. by vm_compute. Qed.

(** C3.  In the same run, the row the simulator commits after the
    cancellation has the non-terminal status BUILDING together with the
    completion time stamped by cancel. *)
Theorem completed_at_set_while_building :
  exists d,
    row (exec cancelled_early (Resume 1 (1 # 2) 102)) 1 = Some d
    /\ Deployment.status d = BUILDING
    /\ Deployment.completed_at d = Some 101
    /\ ~ completion_consistent d.
Proof.
  eexists. split; [by vm_compute |].
  split; [done |]. split; [done |].
  unfold completion_consistent. simpl. intros [Hc _].
  by specialize (Hc ltac:(done)).
Qed.

(** C4.  Trigger writes the queued line, and the simulator's first stage
    assigns a new log instead of appending: from then on the first line of
    the log is the build line. *)
Theorem first_log_line_replaced_by_simulator :
  (first_line ∘ Deployment.logs) <$> row just_triggered 1 = Some "Deployment queued..."
  /\ (first_line ∘ Deployment.logs) <$> row (exec just_triggered (Resume 1 (1 # 2) 102)) 1
     = Some "Starting build process..."
  /\ (first_line ∘ Deployment.logs) <$> row (run just_triggered to_completion) 1
     = Some "Starting build process...".
Proof. by vm_compute. Qed.

End Simulator.

(** ** Analytics *)

Section AnalyticsSpec.

Import Analytics.
Context `{FloatOps}.

(** The success rate is always computed: the division runs only under
    [total > 0], where its divisor is not zero. *)
Lemma success_rate_of_Ok (successful total : Z) :
  success_rate_of successful total
  = Ok (if total >? 0 then Float (float_mul (int_truediv successful total) 100)
        else Int 0).
Proof.
  unfold success_rate_of, truediv.
  destruct (total >? 0) eqn:Hpos; [| done].
  assert (Hnz : (total =? 0) = false) by (apply Z.eqb_neq; lia).
  by rewrite Hnz.
Qed.

Lemma average_Ok (times : list float) :
  average times
  = Ok (match times with
        | [] => Int 0
        | _ => Float (float_div (float_sum times) (Z.of_nat (length times)))
        end).
Proof.
  destruct times as [|x r]; [done |].
  unfold average, truediv_float.
  assert (Hnz : (Z.of_nat (length (x :: r)) =? 0) = false)
    by (apply Z.eqb_neq; simpl; lia).
  by rewrite Hnz.
Qed.

Lemma user_growth_of_Ok (this_month last_month : Z) :
  user_growth_of this_month last_month
  = Ok (if last_month >? 0
        then Float (float_mul (int_truediv (this_month - last_month) last_month) 100)
        else Int 100).
Proof.
  unfold user_growth_of, truediv.
  destruct (last_month >? 0) eqn:Hpos; [| done].
  assert (Hnz : (last_month =? 0) = false) by (apply Z.eqb_neq; lia).
  by rewrite Hnz.
Qed.

Lemma validate_date_range_true (start_date end_date : option isoformat) (msg : string) :
  validate_date_range start_date end_date = Ok (true, msg) ->
  exists start end_,
    start_date = Some start /\ end_date = Some end_
    /\ offset_aware start = offset_aware end_.
Proof.
  unfold validate_date_range.
  destruct start_date as [start|], end_date as [end_|]; try discriminate.
  destruct (Bool.eqb (offset_aware start) (offset_aware end_)) eqn:Hsame;
    [| discriminate].
  apply Bool.eqb_prop in Hsame. intros _. by exists start, end_.
Qed.



(** C7 (as amended).  For an admin, whenever no user was created in the
    prior month the overview is returned with a growth percentage that is
    the integer 100, whatever the number of users created this month. *)
Theorem user_growth_100_when_prior_month_empty
    (current_user : User.t) (now : datetime) (db : DB) :
  User.is_admin current_user = true ->
  new_users_last_month db now = 0 ->
  exists overview,
    get_admin_overview current_user now db = Ok overview
    /\ ao_new_users_this_month overview = new_users_this_month db now
    /\ ao_user_growth_percentage overview = Int 100.
Proof.
  intros Hadmin Hlast. unfold get_admin_overview, require_admin.
  rewrite Hadmin. cbn [negb bind]. rewrite success_rate_of_Ok. cbn [bind].
  rewrite user_growth_of_Ok, Hlast. cbn [bind].
  eexists. split; [reflexivity |]. split; reflexivity.
Qed.

End AnalyticsSpec.


Lemma user_growth_100_when_prior_month_empty_witness :
  exists overview,
    Analytics.get_admin_overview Fixture.root mid_march Fixture.empty_db = Ok overview
    /\ Analytics.ao_new_users_this_month overview
       = Analytics.new_users_this_month Fixture.empty_db mid_march
    /\ Analytics.ao_user_growth_percentage overview = Int 100.
Proof.
  apply (@user_growth_100_when_prior_month_empty exact_floats); reflexivity.
Defined.

(** C7 (as stated) fails: with no user created in the prior month and none
    in the current month, the reported growth is 100, not 0. *)
Lemma user_growth_100_with_no_new_users :
  Analytics.new_users_last_month Fixture.empty_db mid_march = 0
  /\ Analytics.new_users_this_month Fixture.empty_db mid_march = 0
  /\ Analytics.ao_user_growth_percentage
       <$> returned (Analytics.get_admin_overview Fixture.root mid_march Fixture.empty_db)
     = Some (Int 100)
  /\ Analytics.ao_user_growth_percentage
       <$> returned (Analytics.get_admin_overview Fixture.root mid_march Fixture.empty_db)
     <> Some (Int 0).
Proof.
  split; [by vm_compute |]. split; [by vm_compute |]. split; [by vm_compute |].
  intros Heq. vm_compute in Heq. discriminate Heq.
Qed.
(** ** Rate limiting *)

Section RateLimitSpec.

Import RateLimit.

Lemma Qltb_true (a b : Q) : Qltb a b = true <-> (a < b)%Q.
Proof.
  unfold Qltb. rewrite negb_true_iff. split.
  - intros Hle. apply Qnot_le_lt. intros Hba.
    apply Qle_bool_iff in Hba. congruence.
  - intros Hlt. apply not_true_is_false. intros Hba.
    apply Qle_bool_iff in Hba. by apply Qlt_not_le in Hlt.
Qed.

Lemma int_nonneg (x : Q) : (0 <= x)%Q -> 0 <= int x.
Proof.
  unfold int, Qle. simpl. intros Hx. apply Z.quot_pos; lia.
Qed.

Lemma int_le (x : Q) (n : Z) : (0 <= x)%Q -> (x <= inject_Z n)%Q -> int x <= n.
Proof.
  unfold int, Qle. simpl. intros H0 Hx.
  apply Z.quot_le_upper_bound; lia.
Qed.

Lemma int_ge_1 (x : Q) : (1 <= x)%Q -> 1 <= int x.
Proof.
  unfold int, Qle. simpl. intros Hx.
  apply Z.quot_le_lower_bound; lia.
Qed.

Lemma int_lt_1 (x : Q) : (0 <= x)%Q -> (x < 1)%Q -> int x = 0.
Proof.
  unfold int, Qle, Qlt. simpl. intros H0 Hx.
  apply Z.quot_small. lia.
Qed.


Lemma min_first (x : Q) (r : list Q) :
  Forall (fun y => (x <= y)%Q) r -> min (x :: r) = Ok x.
Proof.
  unfold min. intros HF. f_equal.
  induction HF as [|y r Hy _ IH]; simpl; [done |].
  assert (Hlt : Qltb y x = false).
  { apply not_true_is_false. intros Hlt. apply Qltb_true in Hlt.
    by apply Qlt_not_le in Hlt. }
  by rewrite Hlt.
Qed.

Lemma filter_recent_all (now : Q) (l : list Q) :
  Forall (fun t => (now - t < 60)%Q) l ->
  List.filter (fun req_time => Qltb (now - req_time) 60) l = l.
Proof.
  induction 1 as [|t l Ht _ IH]; simpl; [done |].
  apply Qltb_true in Ht. by rewrite Ht, IH.
Qed.

(** The two branches of [is_rate_limited] on the cleaned list. *)
Lemma is_rate_limited_unfold (self : RateLimiter) (client_ip : string) (now : Q) :
  let l := List.filter (fun req_time => Qltb (now - req_time) 60)
                       (default [] (requests self !! client_ip)) in
  is_rate_limited self client_ip now
  = if Z.of_nat (length l) >=? requests_per_minute self then
      (let* oldest_request := min l in
       Ok (true, int (60 - (now - oldest_request))),
       set_requests client_ip l self)
    else
      (Ok (false, 0),
       set_requests client_ip (l ++ [now]) (set_requests client_ip l self)).
Proof.
  unfold is_rate_limited.
  destruct (requests self !! client_ip) as [l0|]; simpl;
    by rewrite lookup_insert_eq.
Qed.

Lemma in_order_cons (x : Q) (r : list Q) :
  in_order (x :: r) = true -> Forall (fun t => (x <= t)%Q) r /\ in_order r = true.
Proof.
  revert x. induction r as [|y r IH]; intros x Hord; [by split |].
  change (Qle_bool x y && in_order (y :: r) = true) in Hord.
  apply andb_true_iff in Hord as [Hxy Hord]. apply Qle_bool_iff in Hxy.
  destruct (IH y Hord) as [Hy _]. split; [| done].
  constructor; [done |].
  eapply Forall_impl; [exact Hy |]. intros t Ht. simpl. by apply Qle_trans with y.
Qed.

Lemma within_a_minute_bounds (first_time : Q) (times : list Q) :
  within_a_minute (first_time :: times) = true ->
  Forall (fun t => (first_time <= t)%Q /\ (t - first_time < 60)%Q) (first_time :: times).
Proof.
  unfold within_a_minute. intros Hw. apply andb_true_iff in Hw as [Hord Hall].
  apply in_order_cons in Hord as [Hge _].
  rewrite forallb_forall in Hall. rewrite Forall_forall.
  intros t Ht. split.
  - apply elem_of_cons in Ht as [-> | Ht]; [apply Qle_refl |].
    rewrite Forall_forall in Hge. by apply Hge.
  - apply Qltb_true. apply Hall. by apply list_elem_of_In.
Qed.

Lemma is_from_true (client_ip : string) (request : Request) :
  is_from client_ip request = true <-> from_client client_ip request.
Proof.
  unfold is_from, from_client.
  rewrite andb_true_iff, negb_true_iff, String.eqb_eq. done.
Qed.

Lemma is_rate_limited_frame (self : RateLimiter) (client_ip other : string) (now : Q) :
  other <> client_ip ->
  requests (snd (is_rate_limited self client_ip now)) !! other
  =@{option (list Q)} requests self !! other
  /\ requests_per_minute (snd (is_rate_limited self client_ip now))
     = requests_per_minute self.
Proof.
  intros Hne. rewrite is_rate_limited_unfold. simpl.
  destruct (Z.of_nat _ >=? requests_per_minute self); simpl;
    rewrite ?lookup_insert_ne by done; done.
Qed.

Lemma middleware_frame
    (call_next : Request -> Response) (self : RateLimiter) (request : Request) (now : Q)
    (other : string) :
  String.prefix "/health" (path request) = true \/ client_of request <> other ->
  requests (snd (rate_limit_middleware call_next self request now)) !! other
  =@{option (list Q)} requests self !! other
  /\ requests_per_minute (snd (rate_limit_middleware call_next self request now))
     = requests_per_minute self.
Proof.
  intros Hreq. unfold rate_limit_middleware.
  destruct (String.prefix "/health" (path request)) eqn:Hpath; [done |].
  destruct Hreq as [? | Hne]; [done |]. unfold client_of in Hne.
  pose proof (is_rate_limited_frame self (default "unknown" (client request)) other now) as Hf.
  destruct (is_rate_limited self (default "unknown" (client request)) now)
    as [[[is_limited retry_after]|e] self'];
    simpl in *; [destruct is_limited |]; simpl; apply Hf; congruence.
Qed.

(** Requests that are a minute old stay so. *)
Lemma recent_nil_later (first_time now : Q) (l : list Q) :
  recent first_time l = [] -> (first_time <= now)%Q -> recent now l = [].
Proof.
  unfold recent. intros Hl Hnow. induction l as [|t l IH]; [done |]. simpl in *.
  destruct (Qltb (first_time - t) 60) eqn:Ht; [discriminate Hl |].
  assert (Hf : Qltb (now - t) 60 = false).
  { apply not_true_is_false. intros Hlt. apply Qltb_true in Hlt.
    apply not_true_iff_false in Ht. apply Ht. apply Qltb_true. lra. }
  rewrite Hf. by apply IH.
Qed.

Section Interleaved.

Variable call_next : Request -> Response.
Variable client_ip : string.
Variable first_time : Q.

Lemma recent_in_window (now : Q) (counted : list Q) :
  in_window first_time now -> Forall (in_window first_time) counted -> recent now counted = counted.
Proof.
  intros [_ Hnow] Hall. apply filter_recent_all.
  eapply Forall_impl; [exact Hall |]. intros t [Ht _]. simpl. lra.
Qed.

Lemma holds_other (self : RateLimiter) (counted : list Q) (request : Request) (now : Q) :
  holds client_ip first_time self counted ->
  is_from client_ip request = false ->
  holds client_ip first_time (snd (rate_limit_middleware call_next self request now)) counted.
Proof.
  intros [Hrpm Hrecent] Hother.
  assert (Hreq : String.prefix "/health" (path request) = true
                 \/ client_of request <> client_ip).
  { unfold is_from in Hother. apply andb_false_iff in Hother as [Hh | Hc].
    - left. by apply negb_false_iff.
    - right. by apply String.eqb_neq. }
  destruct (middleware_frame call_next self request now client_ip Hreq) as [Hsame Hrpm'].
  split; [congruence |]. intros t Ht. rewrite Hsame. by apply Hrecent.
Qed.

Lemma holds_allowed (self : RateLimiter) (counted : list Q) (request : Request) (now : Q) :
  holds client_ip first_time self counted ->
  Forall (in_window first_time) counted ->
  in_window first_time now ->
  is_from client_ip request = true ->
  (length counted < 60)%nat ->
  fst (rate_limit_middleware call_next self request now)
  = Ok (allowed_response call_next request (59 - Z.of_nat (length counted)))
  /\ holds client_ip first_time (snd (rate_limit_middleware call_next self request now)) (counted ++ [now]).
Proof.
  intros [Hrpm Hrecent] Hall Hnow Hown Hlen.
  apply is_from_true in Hown as [Hpath Hip].
  unfold rate_limit_middleware. rewrite Hpath, Hip.
  pose proof (is_rate_limited_unfold self client_ip now) as Hun. cbv zeta in Hun.
  fold (recent now (default [] (requests self !! client_ip))) in Hun.
  rewrite (Hrecent now Hnow), Hrpm in Hun. rewrite Hun.
  assert (Hlt : (Z.of_nat (length counted) >=? 60) = false) by lia.
  rewrite Hlt. split.
  - unfold allowed_response. simpl. rewrite lookup_insert_eq. simpl.
    rewrite Hrpm, length_app. simpl.
    replace (60 - Z.of_nat (length counted + 1)) with (59 - Z.of_nat (length counted))
      by lia.
    reflexivity.
  - cbn [snd]. split; [done |]. intros t Ht.
    cbn [requests set_requests]. rewrite lookup_insert_eq. cbn [default].
    apply recent_in_window; [done |]. apply Forall_app. split; [done |].
    by constructor.
Qed.

Lemma holds_rejected
    (self : RateLimiter) (rest : list Q) (request : Request) (now : Q) :
  holds client_ip first_time self (first_time :: rest) ->
  Forall (in_window first_time) (first_time :: rest) ->
  in_window first_time now ->
  is_from client_ip request = true ->
  length (first_time :: rest) = 60%nat ->
  fst (rate_limit_middleware call_next self request now)
  = Ok (too_many_requests (int (60 - (now - first_time))))
  /\ holds client_ip first_time (snd (rate_limit_middleware call_next self request now)) (first_time :: rest).
Proof.
  intros [Hrpm Hrecent] Hall Hnow Hown Hlen.
  apply is_from_true in Hown as [Hpath Hip].
  unfold rate_limit_middleware. rewrite Hpath, Hip.
  pose proof (is_rate_limited_unfold self client_ip now) as Hun. cbv zeta in Hun.
  fold (recent now (default [] (requests self !! client_ip))) in Hun.
  rewrite (Hrecent now Hnow), Hrpm, Hlen in Hun. rewrite Hun.
  rewrite min_first.
  - change (Z.of_nat 60 >=? 60) with true. cbn [bind fst snd].
    split; [done |]. split; [done |]. intros t Ht.
    cbn [requests set_requests]. rewrite lookup_insert_eq. cbn [default].
    by apply recent_in_window.
  - apply Forall_cons_1 in Hall as [_ Hall].
    eapply Forall_impl; [exact Hall |]. by intros t [Ht _].
Qed.

(** The client's requests are answered by their rank in the window,
    whatever other traffic comes in between. *)
Lemma serve_window (arrivals : list (Request * Q)) :
  forall (self : RateLimiter) (counted : list Q),
    holds client_ip first_time self counted ->
    Forall (in_window first_time) (counted ++ map snd (own_requests client_ip arrivals)) ->
    head (counted ++ map snd (own_requests client_ip arrivals)) = Some first_time
    \/ own_requests client_ip arrivals = [] ->
    (length counted + length (own_requests client_ip arrivals) <= 61)%nat ->
    own_responses client_ip arrivals (fst (serve call_next self arrivals))
    = imap (fun i a => expected_response call_next first_time (length counted + i) a)
           (own_requests client_ip arrivals).
Proof.
  induction arrivals as [|[request now] arrivals IH];
    intros self counted Hholds Hwin Hhead Hlen; [done |].
  simpl serve.
  destruct (rate_limit_middleware call_next self request now) as [r self1] eqn:Hstep.
  destruct (serve call_next self1 arrivals) as [rs self2] eqn:Hrest.
  unfold own_responses, own_requests in *. simpl in *.
  destruct (is_from client_ip request) eqn:Hown; simpl in *.
  - rewrite Forall_app in Hwin. destruct Hwin as [Hcounted Hwin].
    apply Forall_cons_1 in Hwin as [Hnow Hwin].
    destruct (decide (length counted < 60)%nat) as [Hroom | Hfull].
    + destruct (holds_allowed self counted request now Hholds Hcounted Hnow Hown Hroom)
        as [Hr Hholds1].
      rewrite Hstep in Hr, Hholds1. simpl in Hr, Hholds1. subst r.
      specialize (IH self1 (counted ++ [now]) Hholds1).
      rewrite Hrest in IH. simpl in IH.
      rewrite IH.
      * f_equal.
        -- unfold expected_response. rewrite Nat.add_0_r.
           assert (Hn : (length counted <? 60)%nat = true) by (by apply Nat.ltb_lt).
           by rewrite Hn.
        -- apply imap_ext. intros i a _. simpl.
           rewrite length_app. simpl. f_equal. lia.
      * rewrite <- app_assoc. simpl. apply Forall_app. split; [done |].
        by constructor.
      * left. rewrite <- app_assoc. simpl.
        destruct Hhead as [Hhead | Hnil]; [exact Hhead | discriminate Hnil].
      * rewrite length_app. simpl. lia.
    + assert (Hlen60 : length counted = 60%nat) by lia.
      assert (Hnone : List.filter (fun a => is_from client_ip (fst a)) arrivals = []).
      { apply length_zero_iff_nil. lia. }
      destruct counted as [|t0 rest]; [simpl in Hlen60; lia |].
      assert (t0 = first_time) as ->.
      { destruct Hhead as [Hhead | Hnil]; [| discriminate Hnil].
        simpl in Hhead. by injection Hhead. }
      destruct (holds_rejected self rest request now Hholds Hcounted Hnow Hown Hlen60)
        as [Hr Hholds1].
      rewrite Hstep in Hr, Hholds1. simpl in Hr, Hholds1. subst r.
      specialize (IH self1 (first_time :: rest) Hholds1).
      rewrite Hrest in IH. simpl in IH.
      rewrite IH.
      * rewrite Hnone. cbn [imap]. unfold expected_response. rewrite Nat.add_0_r.
        assert (Hn : (length (first_time :: rest) <? 60)%nat = false)
          by (apply Nat.ltb_ge; lia).
        by rewrite Hn.
      * rewrite Hnone. simpl. rewrite app_nil_r. exact Hcounted.
      * by right.
      * rewrite Hnone. simpl in *. lia.
  - pose proof (holds_other self counted request now Hholds Hown) as Hholds1.
    rewrite Hstep in Hholds1. simpl in Hholds1.
    specialize (IH self1 counted Hholds1). rewrite Hrest in IH. simpl in IH.
    by apply IH.
Qed.

End Interleaved.

(** C9 (as amended).  With the limit at 60 per minute, take a client none of
    whose recorded requests is less than 60 seconds old when its next request
    arrives (a new client in particular).  When it then makes 61 requests to
    non-health endpoints, in order and each less than 60 seconds after the
    first, with any requests of other clients and any health checks in
    between, its first 60 are let through (with the remaining quota counted
    down from 59 to 0) and its 61st is answered 429 with Retry-After equal
    to the whole seconds, rounded down, left until the first request is 60
    seconds old: a value between 0 and 60, positive exactly when the 61st
    request comes at most 59 seconds after the first. *)
Theorem sixty_first_request_limited
    (call_next : Request -> Response) (self : RateLimiter) (client_ip : string)
    (arrivals : list (Request * Q)) (first_time last_time : Q) :
  requests_per_minute self = 60 ->
  recent first_time (default [] (requests self !! client_ip)) = [] ->
  length (own_requests client_ip arrivals) = 61%nat ->
  within_a_minute (map snd (own_requests client_ip arrivals)) = true ->
  snd <$> own_requests client_ip arrivals !! 0%nat = Some first_time ->
  snd <$> own_requests client_ip arrivals !! 60%nat = Some last_time ->
  let retry_after := int (60 - (last_time - first_time)) in
  own_responses client_ip arrivals (fst (serve call_next self arrivals))
  = imap (fun i a => Ok (allowed_response call_next (fst a) (59 - Z.of_nat i)))
         (take 60 (own_requests client_ip arrivals))
    ++ [Ok (too_many_requests retry_after)]
  /\ status_code (too_many_requests retry_after) = 429
  /\ headers (too_many_requests retry_after) !! "Retry-After" = Some (str retry_after)
  /\ 0 <= retry_after <= 60
  /\ (0 < retry_after <-> (last_time - first_time <= 59)%Q).
Proof.
  intros Hrpm Hfresh Hlen Hwin Hfirst Hlast retry_after.
  set (own := own_requests client_ip arrivals) in *.
  destruct (own !! 60%nat) as [[last_request t61]|] eqn:H60; [| done].
  simpl in Hlast. injection Hlast as ->.
  destruct own as [|[first_request t1] tail] eqn:Hown; [done |].
  simpl in Hfirst. injection Hfirst as ->. rewrite <- Hown in *.
  assert (Hbounds : Forall (fun t => (first_time <= t)%Q /\ (t - first_time < 60)%Q)
                           (map snd own)).
  { rewrite Hown in *. by apply within_a_minute_bounds. }
  assert (Hsplit : own = take 60 own ++ [(last_request, last_time)]).
  { rewrite <- (take_drop_middle own 60 _ H60) at 1.
    by rewrite (drop_ge own 61) by lia. }
  assert (Hlast_in : (first_time <= last_time)%Q /\ (last_time - first_time < 60)%Q).
  { rewrite Forall_forall in Hbounds. apply Hbounds.
    apply list_elem_of_fmap. exists (last_request, last_time). split; [done |].
    by apply list_elem_of_lookup_2 in H60. }
  destruct Hlast_in as [Hge Hlt].
  split; [| split; [done | split; [by apply lookup_singleton_eq |]]].
  - pose proof (serve_window call_next client_ip first_time arrivals self []) as Hserve.
    fold own in Hserve. simpl in Hserve. rewrite Hserve.
    + rewrite Hsplit at 1. rewrite imap_app. f_equal.
      * apply imap_ext. intros i a Hi. simpl.
        apply lookup_lt_Some in Hi. rewrite length_take in Hi.
        unfold expected_response.
        assert (Hn : (i <? 60)%nat = true) by (apply Nat.ltb_lt; lia).
        by rewrite Hn.
      * simpl. rewrite length_take, Hlen. simpl. unfold expected_response. simpl.
        reflexivity.
    + split; [done |]. intros now [Hnow _].
      by apply (recent_nil_later first_time).
    + exact Hbounds.
    + left. rewrite Hown. reflexivity.
    + rewrite Hlen. lia.
  - assert (Hx0 : (0 <= 60 - (last_time - first_time))%Q) by lra.
    split; [split |].
    + by apply int_nonneg.
    + apply int_le; [done |]. change (inject_Z 60) with 60%Q. lra.
    + split.
      * intros Hpos. apply Qnot_lt_le. intros Hlate.
        assert (Hzero : int (60 - (last_time - first_time)) = 0)
          by (apply int_lt_1; [done | lra]).
        unfold retry_after in Hpos. lia.
      * intros Hearly.
        assert (1 <= int (60 - (last_time - first_time))) by (apply int_ge_1; lra).
        unfold retry_after. lia.
Qed.

End RateLimitSpec.

Lemma sixty_first_request_limited_witness :
  last (own_responses "203.0.113.7" busy_minute
          (fst (RateLimit.serve ok_response returning_client busy_minute)))
  = Some (Ok (too_many_requests 30))
  /\ 0 < RateLimit.int (60 - (tick 1920 - tick 0)).
Proof.
  destruct (sixty_first_request_limited ok_response returning_client
              "203.0.113.7" busy_minute (tick 0) (tick 1920))
    as (Hserved & _ & _ & _ & Hpositive).
  - reflexivity.
  - by vm_compute.
  - by vm_compute.
  - by vm_compute.
  - by vm_compute.
  - by vm_compute.
  - split.
    + rewrite Hserved. apply last_snoc.
    + apply Hpositive. by vm_compute.
Defined.

(** C9 (as stated) fails: sixty requests in the first second and a 61st
    request 59.5 seconds after the first are 61 requests within a 60-second
    window, and the 61st is answered 429 with Retry-After 0. *)
Lemma retry_after_zero_in_last_second :
  length burst_then_late = 61%nat
  /\ within_a_minute (map snd burst_then_late) = true
  /\ last (fst (RateLimit.serve ok_response RateLimit.rate_limiter burst_then_late))
     = Some (Ok (too_many_requests 0))
  /\ RateLimit.headers (too_many_requests 0) !! "Retry-After" = Some "0"
  /\ ~ 0 < 0.
Proof.
  split; [reflexivity |]. split; [by vm_compute |]. split; [by vm_compute |].
  split; [by vm_compute | lia].
Qed.

(** Requests recorded less than a minute before count against the client:
    after the burst, its next request one second later is refused. *)
Example earlier_requests_are_counted :
  fst (RateLimit.rate_limit_middleware ok_response saturated_limiter
         list_projects_request (tick 64))
  = Ok (too_many_requests 59).
Proof. by vm_compute. Qed.

(** ** Logout *)

Section LogoutSpec.

Import Auth.

(** C10.  Whoever the authenticated caller is, logout answers success and
    the refresh tokens left are exactly those whose token string differs
    from the one in the request body: every row carrying that string is
    deleted, also a row that belongs to another user than the caller, and
    the answer is the same when no row carries it.  No other table
    changes. *)
Theorem logout_deletes_token_of_any_user
    (jwt_decode : string -> option Payload) (creds : HTTPAuthorizationCredentials)
    (token_data : RefreshTokenCreate) (db : DB) (caller : User.t) :
  get_current_user jwt_decode creds db = Ok caller ->
  exists db',
    logout token_data creds db = (Ok "Successfully logged out", db')
    /\ (forall r, r ∈ refresh_tokens db' <->
                  r ∈ refresh_tokens db
                  /\ RefreshToken.token r <> refresh_token token_data)
    /\ (forall r, r ∈ refresh_tokens db ->
                  RefreshToken.token r = refresh_token token_data ->
                  RefreshToken.user_id r <> User.id caller ->
                  r ∉ refresh_tokens db')
    /\ (Forall (fun r => RefreshToken.token r <> refresh_token token_data)
               (refresh_tokens db) -> db' = db)
    /\ users db' = users db /\ projects db' = projects db
    /\ deployments db' = deployments db.
Proof.
  intros _. unfold logout. eexists. split; [reflexivity |].
  split; [| split; [| split; [| by repeat split]]].
  - intros r. simpl. rewrite list_elem_of_filter. tauto.
  - intros r _ Htoken _. simpl. rewrite list_elem_of_filter. tauto.
  - intros Hnone. destruct db as [us ps ds ts]. unfold with_refresh_tokens. simpl in *.
    f_equal. induction Hnone as [|r ts Hr _ IH]; [done |].
    rewrite filter_cons_True by done. by rewrite IH.
Qed.

Lemma logout_deletes_token_of_any_user_witness :
  exists db',
    logout (mkRefreshTokenCreate "bob.refresh") (mkCredentials "Bearer" "alice.access")
           logged_in_db
    = (Ok "Successfully logged out", db')
    /\ bobs_refresh_token ∉ refresh_tokens db'.
Proof.
  destruct (logout_deletes_token_of_any_user only_alice
              (mkCredentials "Bearer" "alice.access")
              (mkRefreshTokenCreate "bob.refresh") logged_in_db Fixture.alice)
    as (db' & Hout & _ & Hgone & _); [reflexivity |].
  exists db'. split; [exact Hout |].
  apply Hgone; [by left | reflexivity | simpl; lia].
Defined.

End LogoutSpec.

(** ** Password hashing *)

Section SecuritySpec.

Import Security.

Variable sha256_hexdigest : string -> string.
Variable hashpw : string -> string -> option string.

(** A bcrypt hash carries its own salt: hashing the same input under the
    hash gives the hash back. *)
Hypothesis hashpw_salt_of_hash :
  forall password salt hashed,
    hashpw password salt = Some hashed -> hashpw password hashed = Some hashed.

(** The stored hash of a password verifies that password. *)
Lemma verify_password_own_hash (password salt hashed : string) :
  get_password_hash sha256_hexdigest hashpw password salt = Ok hashed ->
  verify_password sha256_hexdigest hashpw password hashed = true.
Proof.
  unfold get_password_hash, verify_password, checkpw.
  destruct (128 <? String.length password)%nat; [done |].
  destruct (hashpw (_pre_hash sha256_hexdigest password) salt) as [h|] eqn:Hh; [| done].
  intros [= ->]. rewrite (hashpw_salt_of_hash _ _ _ Hh).
  apply String.eqb_refl.
Qed.

(** Another string verifies against a stored hash exactly when its digest,
    hashed under the stored salt, is the stored hash again. *)
Lemma verify_password_true_iff (plain_password hashed : string) :
  verify_password sha256_hexdigest hashpw plain_password hashed = true
  <-> hashpw (_pre_hash sha256_hexdigest plain_password) hashed = Some hashed.
Proof.
  unfold verify_password, checkpw.
  destruct (hashpw (_pre_hash sha256_hexdigest plain_password) hashed) as [ret|]; simpl.
  - rewrite String.eqb_eq. split; congruence.
  - split; discriminate.
Qed.

End SecuritySpec.

(** ** Trigger, read, cancel again *)

Section DeploymentsMore.

Import Deployments Lifecycle.

Lemma first_app {A : Type} (p : A -> bool) (l1 l2 : list A) :
  first p (l1 ++ l2)
  = match first p l1 with Some x => Some x | None => first p l2 end.
Proof.
  unfold first. induction l1 as [|x l1 IH]; simpl; [done |].
  by destruct (p x).
Qed.

Lemma next_id_fresh (ids : list Z) : Forall (fun k => k < next_id ids) ids.
Proof.
  unfold next_id. induction ids as [|k ids IH]; simpl; constructor.
  - lia.
  - eapply Forall_impl; [exact IH |]. intros j Hj. simpl in Hj. lia.
Qed.

Lemma next_id_not_loaded (db : DB) :
  load db (next_id (map Deployment.id (deployments db))) = None.
Proof.
  apply first_None_iff. pose proof (next_id_fresh (map Deployment.id (deployments db))) as Hf.
  rewrite Forall_fmap in Hf. eapply Forall_impl; [exact Hf |].
  intros d Hd. simpl in *. apply Z.eqb_neq. lia.
Qed.

Lemma query_project_Some (db : DB) (project_id user_id : Z) (p : Project.t) :
  query_project db project_id user_id = Some p ->
  p ∈ projects db /\ Project.id p = project_id /\ Project.user_id p = user_id.
Proof.
  unfold query_project. intros Hq. apply first_Some_inv in Hq as [Hin Hp].
  apply andb_true_iff in Hp as [Hid Hu]. apply Z.eqb_eq in Hid, Hu. done.
Qed.

Lemma trigger_deployment_owned
    (db : DB) (project_id : Z) (current_user : User.t) (now : datetime) :
  is_Some (query_project db project_id (User.id current_user)) ->
  trigger_deployment project_id current_user now db
  = (Ok (queued_row db project_id now),
     with_deployments (deployments db ++ [queued_row db project_id now]) db).
Proof. intros [p Hp]. unfold trigger_deployment. by rewrite Hp. Qed.

(** X1.  When the requester owns the project, trigger inserts a PENDING row
    with a fresh key, the queued log line, the current time as start and no
    completion time; the owner reads that row back with get_deployment and its
    log with get_deployment_logs; no row that existed before is changed. *)
Theorem triggered_deployment_is_readable
    (db : DB) (project_id : Z) (current_user : User.t) (now : datetime) :
  is_Some (query_project db project_id (User.id current_user)) ->
  let deployment := queued_row db project_id now in
  let db' := with_deployments (deployments db ++ [deployment]) db in
  trigger_deployment project_id current_user now db = (Ok deployment, db')
  /\ load db (Deployment.id deployment) = None
  /\ get_deployment (Deployment.id deployment) current_user db' = (Ok deployment, db')
  /\ get_deployment_logs (Deployment.id deployment) current_user db'
     = (Ok ("Deployment queued..." +:+ LF), db')
  /\ (forall k d, load db k = Some d -> load db' k = Some d).
Proof.
  intros [p Hp] deployment db'.
  pose proof (next_id_not_loaded db) as Hfresh.
  assert (Hq : query_deployment db' (Deployment.id deployment) (User.id current_user)
               = Some deployment).
  { unfold query_deployment, db'. simpl. rewrite first_app.
    assert (Hnone : first (fun d => (Deployment.id d =? next_id (map Deployment.id (deployments db)))
                            && existsb (fun p0 => (Project.id p0 =? Deployment.project_id d)
                                                  && (Project.user_id p0 =? User.id current_user))
                                       (projects db)) (deployments db) = None).
    { apply first_None_iff. apply first_None_iff in Hfresh.
      eapply Forall_impl; [exact Hfresh |]. intros d Hd. simpl in *. by rewrite Hd. }
    rewrite Hnone. unfold first. simpl. rewrite Z.eqb_refl. simpl.
    apply query_project_Some in Hp as (Hin & Hid & Hu).
    assert (Hex : existsb (fun p0 => (Project.id p0 =? project_id)
                                     && (Project.user_id p0 =? User.id current_user))
                          (projects db) = true).
    { apply existsb_exists. exists p. split; [by apply list_elem_of_In |].
      apply andb_true_iff. split; by apply Z.eqb_eq. }
    by rewrite Hex. }
  split; [| split; [exact Hfresh | split; [| split]]].
  - unfold trigger_deployment. by rewrite Hp.
  - unfold get_deployment. by rewrite Hq.
  - unfold get_deployment_logs. by rewrite Hq.
  - intros k d Hk. unfold load, db'. simpl. rewrite first_app.
    unfold load in Hk. by rewrite Hk.
Qed.

Lemma triggered_deployment_is_readable_witness :
  get_deployment 1 Fixture.alice (store just_triggered)
  = (Ok (queued_row Fixture.empty_db 1 100), store just_triggered).
Proof.
  destruct (triggered_deployment_is_readable Fixture.empty_db 1 Fixture.alice 100)
    as (_ & _ & Hget & _); [by eexists |].
  exact Hget.
Defined.

(** X2.  Trigger on a project the requester does not own raises 404: no
    row is inserted and no simulator is started, the world is as before. *)
Theorem trigger_on_foreign_project_changes_nothing
    (w : World) (project_id : Z) (current_user : User.t) (now : datetime) :
  not_owner_of_project (store w) (User.id current_user) project_id ->
  trigger_deployment project_id current_user now (store w)
  = (Raise (not_found "Project"), store w)
  /\ exec w (Trigger project_id current_user now) = w.
Proof.
  intros Hno. apply query_project_foreign in Hno.
  unfold exec, trigger_deployment. rewrite Hno. by destruct w.
Qed.

Lemma trigger_on_foreign_project_changes_nothing_witness :
  exec (mkWorld carols_db ∅) (Trigger 7 Fixture.alice 30) = mkWorld carols_db ∅.
Proof.
  apply (trigger_on_foreign_project_changes_nothing (mkWorld carols_db ∅) 7 Fixture.alice 30).
  repeat constructor. simpl. lia.
Defined.




(** X4.  A simulator stage and a cancel write one row only: every row with
    another key reads as before, the number of rows is the same, and the
    users, projects and refresh tokens are untouched. *)
Theorem deployment_writes_are_local
    (db : DB) (deployment_id other : Z) (pc : sim_pc) (rnd : Q) (now : datetime)
    (current_user : User.t) :
  other <> deployment_id ->
  let after_stage := fst (simulate_deployment deployment_id pc rnd now db) in
  let after_cancel := snd (cancel_deployment deployment_id current_user now db) in
  load after_stage other = load db other
  /\ load after_cancel other = load db other
  /\ length (deployments after_stage) = length (deployments db)
  /\ length (deployments after_cancel) = length (deployments db)
  /\ (users after_stage, projects after_stage, refresh_tokens after_stage)
     = (users db, projects db, refresh_tokens db)
  /\ (users after_cancel, projects after_cancel, refresh_tokens after_cancel)
     = (users db, projects db, refresh_tokens db).
Proof.
  intros Hne after_stage after_cancel.
  assert (Hstage : after_stage = db
                   \/ exists d', Deployment.id d' = deployment_id
                                 /\ after_stage = update_deployment d' db).
  { unfold after_stage, simulate_deployment.
    destruct pc; [| | | | by left];
      (destruct (load db deployment_id) as [d|] eqn:Hl; [| by left]);
      pose proof (load_id _ _ _ Hl) as Hid;
      right; eexists; (split; [| reflexivity]); try exact Hid.
    by destruct (Qltb (2 # 10) rnd). }
  assert (Hcancel : after_cancel = db
                    \/ exists d', Deployment.id d' = deployment_id
                                  /\ after_cancel = update_deployment d' db).
  { unfold after_cancel, cancel_deployment.
    destruct (query_deployment db deployment_id (User.id current_user)) as [d|] eqn:Hq;
      [| by left].
    destruct (bool_decide _); [by left |].
    right. eexists. split; [| reflexivity].
    by destruct (query_deployment_id _ _ _ _ Hq). }
  assert (Hlocal : forall db1, (db1 = db \/ exists d', Deployment.id d' = deployment_id
                                                      /\ db1 = update_deployment d' db) ->
                   load db1 other = load db other
                   /\ length (deployments db1) = length (deployments db)
                   /\ (users db1, projects db1, refresh_tokens db1)
                      = (users db, projects db, refresh_tokens db)).
  { intros db1 [-> | (d' & Hid & ->)]; [done |].
    split; [apply load_update_deployment_ne; congruence |].
    split; [| done]. unfold update_deployment. simpl. by rewrite length_map. }
  destruct (Hlocal _ Hstage) as (? & ? & ?). destruct (Hlocal _ Hcancel) as (? & ? & ?).
  done.
Qed.

Lemma deployment_writes_are_local_witness :
  load (fst (simulate_deployment 1 InitialDelay (1 # 2) 102 Fixture.busy_db)) 2
  = load Fixture.busy_db 2.
Proof.
  destruct (deployment_writes_are_local Fixture.busy_db 1 2 InitialDelay (1 # 2) 102
              Fixture.alice) as [Hstage _]; [lia |].
  exact Hstage.
Defined.

(** One resumption of the simulator, read on the row of its deployment. *)
Lemma simulate_stage
    (db : DB) (deployment_id : Z) (pc : sim_pc) (rnd : Q) (now : datetime)
    (d : Deployment.t) :
  load db deployment_id = Some d ->
  snd (simulate_deployment deployment_id pc rnd now db) = next_pc pc
  /\ load (fst (simulate_deployment deployment_id pc rnd now db)) deployment_id
     = Some (stage_row pc rnd now d).
Proof.
  intros Hl. pose proof (load_id _ _ _ Hl) as Hid.
  unfold simulate_deployment.
  destruct pc; rewrite ?Hl; simpl fst; simpl snd; (split; [reflexivity |]).
  - by apply load_committed with d.
  - replace (stage_row BuildDelay rnd now d)
      with (Deployment.set_logs
              ((Deployment.logs d +:+ "✓ Dependencies installed" +:+ LF)
               +:+ "✓ Building application..." +:+ LF) d)
      by (unfold stage_row, Deployment.set_logs; by rewrite append_assoc).
    by apply load_committed with d.
  - replace (stage_row BuildLogged rnd now d)
      with (Deployment.set_logs
              ((Deployment.logs d +:+ "✓ Build completed successfully" +:+ LF)
               +:+ "Starting deployment..." +:+ LF)
              (Deployment.set_status DEPLOYING d))
      by (unfold stage_row, Deployment.set_logs; simpl; by rewrite append_assoc).
    by apply load_committed with d.
  - unfold stage_row. destruct (Qltb (2 # 10) rnd); by apply load_committed with d.
  - exact Hl.
Qed.

Lemma exec_resume (w : World) (deployment_id : Z) (pc : sim_pc) (rnd : Q) (now : datetime)
    (d : Deployment.t) :
  row w deployment_id = Some d ->
  tasks w !! deployment_id = Some pc ->
  row (exec w (Resume deployment_id rnd now)) deployment_id = Some (stage_row pc rnd now d)
  /\ tasks (exec w (Resume deployment_id rnd now)) !! deployment_id = Some (next_pc pc).
Proof.
  intros Hrow Htask. unfold exec. rewrite Htask.
  destruct (simulate_stage (store w) deployment_id pc rnd now d Hrow) as [Hpc Hl].
  destruct (simulate_deployment deployment_id pc rnd now (store w)) as [db pc'].
  simpl in *. subst pc'. split; [exact Hl | apply lookup_insert_eq].
Qed.

(** X5.  A deployment that is triggered and then left alone: after the four
    resumptions of its simulator the row is SUCCESS when the random draw
    exceeds 0.2 and FAILED otherwise, its completion time is the instant of
    the last resumption, its start time that of the trigger, its log the five
    build lines followed by the outcome line, and the simulator has finished. *)
Theorem undisturbed_simulation_completes
    (w : World) (project_id : Z) (current_user : User.t)
    (t0 t1 t2 t3 t4 : datetime) (r1 r2 r3 r4 : Q) :
  is_Some (query_project (store w) project_id (User.id current_user)) ->
  let deployment_id := next_id (map Deployment.id (deployments (store w))) in
  let w' := run w [Trigger project_id current_user t0;
                   Resume deployment_id r1 t1; Resume deployment_id r2 t2;
                   Resume deployment_id r3 t3; Resume deployment_id r4 t4] in
  row w' deployment_id
  = Some (Deployment.mk deployment_id project_id
            (if Qltb (2 # 10) r4 then SUCCESS else FAILED)
            (full_log (Qltb (2 # 10) r4)) t0 (Some t4))
  /\ tasks w' !! deployment_id = Some Finished.
Proof.
  intros Hown deployment_id w'.
  pose proof (trigger_deployment_owned (store w) project_id current_user t0 Hown) as Htrig.
  pose proof (next_id_not_loaded (store w)) as Hfresh.
  set (w0 := exec w (Trigger project_id current_user t0)).
  assert (Hrow0 : row w0 deployment_id = Some (queued_row (store w) project_id t0)).
  { unfold w0, exec. rewrite Htrig. unfold row, load, deployment_id. simpl.
    rewrite first_app. unfold load in Hfresh. simpl in Hfresh. rewrite Hfresh.
    unfold first. simpl. by rewrite Z.eqb_refl. }
  assert (Htask0 : tasks w0 !! deployment_id = Some InitialDelay).
  { unfold w0, exec. rewrite Htrig. simpl. apply lookup_insert_eq. }
  destruct (exec_resume w0 deployment_id _ r1 t1 _ Hrow0 Htask0) as [Hrow1 Htask1].
  destruct (exec_resume _ deployment_id _ r2 t2 _ Hrow1 Htask1) as [Hrow2 Htask2].
  destruct (exec_resume _ deployment_id _ r3 t3 _ Hrow2 Htask2) as [Hrow3 Htask3].
  destruct (exec_resume _ deployment_id _ r4 t4 _ Hrow3 Htask3) as [Hrow4 Htask4].
  split; [| exact Htask4].
  refine (eq_trans Hrow4 _). f_equal.
  unfold stage_row, queued_row, full_log. simpl.
  by destruct (Qltb (2 # 10) r4).
Qed.

Lemma undisturbed_simulation_completes_witness :
  Deployment.status <$> row (run Fixture.idle
                               [Trigger 1 Fixture.alice 100;
                                Resume 1 (1 # 2) 102; Resume 1 (1 # 2) 105;
                                Resume 1 (1 # 2) 105; Resume 1 (1 # 2) 107]) 1
  = Some SUCCESS.
Proof.
  destruct (undisturbed_simulation_completes Fixture.idle 1 Fixture.alice
              100 102 105 105 107 (1 # 2) (1 # 2) (1 # 2) (1 # 2)) as [Hrow _];
    [by eexists |].
  exact (f_equal (fmap Deployment.status) Hrow).
Defined.

Lemma only_row_update (db : DB) (deployment_id : Z) (d d' : Deployment.t) :
  only_row db deployment_id d ->
  Deployment.id d' <> deployment_id ->
  only_row (update_deployment d' db) deployment_id d.
Proof.
  unfold only_row, update_deployment. simpl. intros Hall Hne.
  rewrite Forall_fmap. eapply Forall_impl; [exact Hall |].
  intros x Hx. simpl. destruct (Deployment.id x =? Deployment.id d'); [congruence | done].
Qed.

(** What a stage of the simulator does to the store. *)
Lemma simulate_store (db : DB) (deployment_id : Z) (pc : sim_pc) (rnd : Q) (now : datetime) :
  fst (simulate_deployment deployment_id pc rnd now db) = db
  \/ exists d', Deployment.id d' = deployment_id
                /\ fst (simulate_deployment deployment_id pc rnd now db)
                   = update_deployment d' db.
Proof.
  unfold simulate_deployment.
  destruct pc; [| | | | by left];
    (destruct (load db deployment_id) as [d|] eqn:Hl; [| by left]);
    pose proof (load_id _ _ _ Hl) as Hid;
    right; eexists; (split; [| reflexivity]); try exact Hid.
  by destruct (Qltb (2 # 10) rnd).
Qed.

Lemma settled_exec (w : World) (deployment_id : Z) (d : Deployment.t) (e : event) :
  settled w deployment_id d -> settled (exec w e) deployment_id d.
Proof.
  intros (Hrow & Honly & Hterm & Htask).
  assert (Hin : d ∈ deployments (store w)) by (by apply first_Some_inv in Hrow as [? _]).
  pose proof (load_id _ _ _ Hrow) as Hid.
  destruct e as [project_id current_user now | other current_user now | other rnd now].
  - unfold exec, trigger_deployment.
    destruct (query_project (store w) project_id (User.id current_user)); [| done].
    assert (Hlt : deployment_id < next_id (map Deployment.id (deployments (store w)))).
    { pose proof (next_id_fresh (map Deployment.id (deployments (store w)))) as Hf.
      rewrite Forall_fmap, Forall_forall in Hf. specialize (Hf d Hin). simpl in Hf. lia. }
    split; [| split; [| split; [done |]]].
    + unfold row, load in *. simpl. rewrite first_app. by rewrite Hrow.
    + unfold only_row in *. simpl. apply Forall_app. split; [done |].
      constructor; [| constructor]. simpl. lia.
    + intros pc. simpl. rewrite lookup_insert_ne by lia. apply Htask.
  - unfold exec, cancel_deployment.
    destruct (query_deployment (store w) other (User.id current_user)) as [d0|] eqn:Hq;
      [| done].
    destruct (query_deployment_id _ _ _ _ Hq) as [Hid0 Hin0].
    destruct (bool_decide (Deployment.status d0 ∈ [SUCCESS; FAILED; CANCELLED])) eqn:Ht;
      [done |].
    assert (Hne : other <> deployment_id).
    { intros ->. unfold only_row in Honly. rewrite Forall_forall in Honly.
      rewrite (Honly d0 Hin0 Hid0) in Ht. unfold terminal in Hterm. congruence. }
    split; [| split; [| split; [done |]]]; simpl.
    + unfold row. simpl. rewrite load_update_deployment_ne; [done |]. simpl. congruence.
    + apply only_row_update; [done |]. simpl. congruence.
    + done.
  - unfold exec. destruct (tasks w !! other) as [pc|] eqn:Hpc; [| done].
    destruct (decide (other = deployment_id)) as [-> | Hne].
    + rewrite (Htask pc Hpc). simpl.
      split; [done | split; [done | split; [done |]]].
      intros pc'. simpl. rewrite lookup_insert_eq. congruence.
    + pose proof (simulate_store (store w) other pc rnd now) as Hstore.
      destruct (simulate_deployment other pc rnd now (store w)) as [db pc'].
      simpl in Hstore.
      split; [| split; [| split; [done |]]]; simpl.
      * unfold row. simpl. destruct Hstore as [-> | (d' & Hd' & ->)]; [done |].
        rewrite load_update_deployment_ne; [done | congruence].
      * destruct Hstore as [-> | (d' & Hd' & ->)]; [done |].
        apply only_row_update; [done | congruence].
      * intros pc''. rewrite lookup_insert_ne by done. apply Htask.
Qed.

(** X6.  Once a deployment is settled (terminal status, simulator finished),
    nothing that happens later changes its row: no trigger, no cancel of it
    or of another deployment, no resumption of any simulator. *)
Theorem settled_deployment_never_changes
    (w : World) (deployment_id : Z) (d : Deployment.t) (es : list event) :
  row w deployment_id = Some d ->
  only_row (store w) deployment_id d ->
  terminal (Deployment.status d) = true ->
  (forall pc, tasks w !! deployment_id = Some pc -> pc = Finished) ->
  row (run w es) deployment_id = Some d.
Proof.
  intros Hrow Honly Hterm Htask.
  assert (Hs : settled w deployment_id d) by done.
  clear Hrow Honly Hterm Htask. revert w Hs.
  induction es as [|e es IH]; intros w Hs; [by destruct Hs |].
  simpl. apply IH. by apply settled_exec.
Qed.

Lemma settled_deployment_never_changes_witness :
  row (run (mkWorld Fixture.busy_db ∅)
           [Cancel 2 Fixture.alice 300; Resume 2 (1 # 10) 301; Trigger 1 Fixture.alice 302]) 2
  = Some Fixture.succeeded.
Proof.
  apply settled_deployment_never_changes.
  - reflexivity.
  - repeat constructor; simpl; intros; first [lia | reflexivity].
  - reflexivity.
  - intros pc Hpc. simpl in Hpc. rewrite lookup_empty in Hpc. discriminate Hpc.
Defined.

End DeploymentsMore.

(** ** Projects: list, create, update, delete *)

Section ProjectsMore.

Import Deployments Projects.

(** X7.  For a non-negative offset and limit, list_projects answers with
    projects of the requester only, at most [limit] of them, taken in table
    order from the store; with offset 0 and a limit that is not smaller than
    the number of the requester's projects it answers with all of them. *)
Theorem list_projects_shows_own_projects
    (skip limit : Z) (current_user : User.t) (db : DB) :
  0 <= skip -> 0 <= limit ->
  exists rows,
    list_projects skip limit current_user db = Rows rows
    /\ Forall (fun p => Project.user_id p = User.id current_user) rows
    /\ Z.of_nat (length rows) <= limit
    /\ rows `sublist_of` projects db
    /\ (skip = 0 ->
        Z.of_nat (length (projects_of db (User.id current_user))) <= limit ->
        rows = projects_of db (User.id current_user)).
Proof.
  intros Hskip Hlimit. unfold list_projects, offset_limit.
  assert (Hs : (skip <? 0) = false) by lia. assert (Hl : (limit <? 0) = false) by lia.
  rewrite Hs, Hl. simpl. eexists. split; [reflexivity |].
  fold (projects_of db (User.id current_user)).
  set (own := projects_of db (User.id current_user)).
  assert (Hsub : take (Z.to_nat limit) (drop (Z.to_nat skip) own) `sublist_of` own).
  { etransitivity; [apply sublist_take | apply sublist_drop]. }
  split; [| split; [| split]].
  - apply Forall_forall. intros p Hp.
    apply (sublist_subseteq _ _ Hsub) in Hp.
    by apply list_elem_of_filter in Hp as [? _].
  - rewrite length_take. lia.
  - etransitivity; [exact Hsub |]. apply sublist_filter.
  - intros -> Hall. simpl. rewrite drop_0. apply take_ge. lia.
Qed.

Lemma list_projects_shows_own_projects_witness :
  list_projects 0 100 Fixture.alice Fixture.empty_db = Rows [Fixture.site].
Proof.
  destruct (list_projects_shows_own_projects 0 100 Fixture.alice Fixture.empty_db)
    as (rows & Hlist & _ & _ & _ & Hall); [lia | lia |].
  rewrite Hlist. f_equal. apply Hall; [reflexivity | by vm_compute].
Defined.

Lemma next_project_id_fresh (db : DB) (user_id : Z) :
  query_project db (next_id (map Project.id (projects db))) user_id = None.
Proof.
  apply first_None_iff.
  pose proof (next_id_fresh (map Project.id (projects db))) as Hf.
  rewrite Forall_fmap in Hf. eapply Forall_impl; [exact Hf |].
  intros p Hp. simpl in *. apply andb_false_iff. left. apply Z.eqb_neq. lia.
Qed.

Lemma filter_none {A : Type} (P : A -> Prop) `{forall x, Decision (P x)} (l : list A) :
  Forall (fun x => ~ P x) l -> filter P l = [].
Proof.
  induction 1 as [|x l Hx _ IH]; [done |]. by rewrite filter_cons_False.
Qed.

(** X8.  create_project inserts an ACTIVE project owned by the requester
    under a fresh key; the requester reads it back with get_project, with no
    deployments under it when every deployment of the store sits under an
    existing project; any user with another id gets 404 for it; and the
    projects that were there are found as before. *)
Theorem created_project_belongs_to_creator
    (project : ProjectCreate) (current_user other : User.t) (now : datetime) (db : DB) :
  deployments_have_projects db ->
  User.id other <> User.id current_user ->
  exists db_project db',
    create_project project current_user now db = (Ok db_project, db')
    /\ db_project
       = Project.mk (next_id (map Project.id (projects db))) (name project)
                    (github_url project) ACTIVE (User.id current_user) now
    /\ get_project (Project.id db_project) current_user db' = (Ok (db_project, []), db')
    /\ get_project (Project.id db_project) other db' = (Raise (not_found "Project"), db')
    /\ (forall k u p, query_project db k u = Some p -> query_project db' k u = Some p).
Proof.
  intros Hfk Hother. unfold create_project. do 2 eexists. split; [reflexivity |].
  split; [reflexivity |].
  set (new_id := next_id (map Project.id (projects db))).
  split; [| split].
  - unfold get_project, query_project. simpl. rewrite first_app.
    pose proof (next_project_id_fresh db (User.id current_user)) as Hnone.
    unfold query_project in Hnone. fold new_id in Hnone. rewrite Hnone.
    unfold first. simpl. rewrite !Z.eqb_refl. simpl. do 3 f_equal.
    apply filter_none. eapply Forall_impl; [exact Hfk |].
    intros d Hd Heq. simpl in *. rewrite Heq in Hd.
    pose proof (next_id_fresh (map Project.id (projects db))) as Hf.
    rewrite Forall_forall in Hf. specialize (Hf _ Hd). fold new_id in Hf. lia.
  - unfold get_project, query_project. simpl. rewrite first_app.
    pose proof (next_project_id_fresh db (User.id other)) as Hnone.
    unfold query_project in Hnone. fold new_id in Hnone. rewrite Hnone.
    unfold first. simpl. rewrite Z.eqb_refl. simpl.
    assert (Hne : (User.id current_user =? User.id other) = false) by lia.
    by rewrite Hne.
  - intros k u p Hq. unfold query_project in *. simpl. rewrite first_app. by rewrite Hq.
Qed.

Lemma created_project_belongs_to_creator_witness :
  exists db_project db',
    create_project (mkProjectCreate "shop" "https://github.com/b/shop") Fixture.bob 60
                   Fixture.busy_db = (Ok db_project, db')
    /\ get_project (Project.id db_project) Fixture.bob db' = (Ok (db_project, []), db')
    /\ get_project (Project.id db_project) Fixture.alice db'
       = (Raise (not_found "Project"), db').
Proof.
  destruct (created_project_belongs_to_creator
              (mkProjectCreate "shop" "https://github.com/b/shop")
              Fixture.bob Fixture.alice 60 Fixture.busy_db)
    as (p & db' & Hc & _ & Hown & Hother & _).
  - repeat constructor.
  - simpl. lia.
  - exists p, db'. by repeat split.
Defined.

(** The ownership query after the project it found has been rewritten. *)
Lemma query_project_updated (db : DB) (project_id user_id : Z) (p p' : Project.t) :
  query_project db project_id user_id = Some p ->
  Project.id p' = Project.id p ->
  Project.user_id p' = Project.user_id p ->
  query_project
    (with_projects (map (fun x => if Project.id x =? Project.id p' then p' else x)
                        (projects db)) db) project_id user_id
  = Some p'.
Proof.
  unfold query_project, first. simpl. intros Hq Hid Hu.
  induction (projects db) as [|x rows IH]; simpl in *; [done |].
  destruct (Project.id x =? Project.id p') eqn:Hx.
  - clear IH.
    destruct ((Project.id x =? project_id) && (Project.user_id x =? user_id)) eqn:Hpx.
    + injection Hq as ->. rewrite Hid, Hu. by rewrite Hpx.
    + apply find_some in Hq as [_ Hd]. rewrite Hid, Hu. by rewrite Hd.
  - destruct ((Project.id x =? project_id) && (Project.user_id x =? user_id)) eqn:Hpx.
    + injection Hq as ->. rewrite Hid in Hx. by rewrite Z.eqb_refl in Hx.
    + by apply IH.
Qed.

(** X9.  update_project by the owner rewrites the name and the URL and
    nothing else (keys being unique): in the projects table the row with the
    key gets the new name and URL and keeps its key, owner, status and
    creation time, and every other row is exactly as it was; the ownership
    query then finds the new values, no project changes owner, and users,
    deployments and refresh tokens are untouched. *)
Theorem update_project_keeps_ownership
    (db : DB) (project_id : Z) (project_update : ProjectCreate) (current_user : User.t)
    (p : Project.t) :
  NoDup (map Project.id (projects db)) ->
  query_project db project_id (User.id current_user) = Some p ->
  exists db',
    update_project project_id project_update current_user db
    = (Ok (updated_project p project_update), db')
    /\ query_project db' project_id (User.id current_user)
       = Some (updated_project p project_update)
    /\ Forall2 (fun x x' =>
                  (Project.id x <> project_id -> x' = x)
                  /\ (Project.id x = project_id -> x' = updated_project x project_update))
               (projects db) (projects db')
    /\ map Project.id (projects db') = map Project.id (projects db)
    /\ map Project.user_id (projects db') = map Project.user_id (projects db)
    /\ (users db', deployments db', refresh_tokens db')
       = (users db, deployments db, refresh_tokens db).
Proof.
  intros Hnodup Hq. unfold update_project. rewrite Hq.
  eexists. split; [reflexivity |].
  split; [by apply (query_project_updated db project_id _ p) |].
  assert (Hsame : Forall (fun x => Project.id x = Project.id p -> x = p) (projects db)).
  { apply query_project_Some in Hq as (Hin & _ & _).
    apply Forall_forall. intros x Hx Hid.
    apply list_elem_of_lookup in Hin as [i Hi]. apply list_elem_of_lookup in Hx as [j Hj].
    assert (i = j); [| congruence].
    eapply NoDup_lookup; [exact Hnodup | |]; rewrite list_lookup_fmap.
    - by rewrite Hi.
    - rewrite Hj. simpl. by rewrite Hid. }
  pose proof (query_project_Some _ _ _ _ Hq) as (_ & Hpid & _).
  simpl. split; [| split; [| split; [| done]]].
  - apply Forall2_fmap_r, Forall_Forall2_diag.
    eapply Forall_impl; [exact Hsame |]. intros x Hx. simpl.
    destruct (Project.id x =? Project.id p) eqn:Hid.
    + apply Z.eqb_eq in Hid. rewrite (Hx Hid). split; [congruence | done].
    + apply Z.eqb_neq in Hid. split; [done | congruence].
  - rewrite <- list_fmap_compose. apply Forall_fmap_ext_1.
    eapply Forall_impl; [exact Hsame |]. intros x Hx. simpl.
    destruct (Project.id x =? Project.id p) eqn:Hid; [| done].
    apply Z.eqb_eq in Hid. by rewrite Hid.
  - rewrite <- list_fmap_compose. apply Forall_fmap_ext_1.
    eapply Forall_impl; [exact Hsame |]. intros x Hx. simpl.
    destruct (Project.id x =? Project.id p) eqn:Hid; [| done].
    apply Z.eqb_eq in Hid. by rewrite (Hx Hid).
Qed.

Lemma update_project_keeps_ownership_witness :
  exists db',
    update_project 1 (mkProjectCreate "site-v2" "https://github.com/u/r2") Fixture.alice
                   Fixture.busy_db
    = (Ok (updated_project Fixture.site (mkProjectCreate "site-v2" "https://github.com/u/r2")),
       db')
    /\ map Project.user_id (projects db') = map Project.user_id (projects Fixture.busy_db).
Proof.
  destruct (update_project_keeps_ownership Fixture.busy_db 1
              (mkProjectCreate "site-v2" "https://github.com/u/r2") Fixture.alice Fixture.site)
    as (db' & Hup & _ & _ & _ & Howner & _).
  - repeat constructor. intros Hin. by apply elem_of_nil in Hin.
  - reflexivity.
  - exists db'. by split.
Defined.

(** X10.  delete_project by the owner, for a project without deployments:
    the project is gone (get_project then answers 404), every project with
    another key stays, and users, deployments and refresh tokens are
    untouched. *)
Theorem deleted_project_is_gone
    (db : DB) (project_id : Z) (current_user : User.t) (p : Project.t) :
  query_project db project_id (User.id current_user) = Some p ->
  Forall (fun d => Deployment.project_id d <> project_id) (deployments db) ->
  exists db',
    delete_project project_id current_user db = (Ok tt, db')
    /\ get_project project_id current_user db' = (Raise (not_found "Project"), db')
    /\ (forall x, x ∈ projects db' <-> x ∈ projects db /\ Project.id x <> project_id)
    /\ (users db', deployments db', refresh_tokens db')
       = (users db, deployments db, refresh_tokens db).
Proof.
  intros Hq Hnone. unfold delete_project. rewrite Hq.
  destruct (query_project_Some _ _ _ _ Hq) as (Hin & Hid & Hu).
  assert (Hex : existsb (fun d => Deployment.project_id d =? Project.id p) (deployments db)
                = false).
  { apply not_true_is_false. intros Hex. apply existsb_exists in Hex as (d & Hd & Heq).
    apply Z.eqb_eq in Heq. rewrite Forall_forall in Hnone.
    apply list_elem_of_In in Hd. apply (Hnone d Hd). congruence. }
  rewrite Hex. eexists. split; [reflexivity |].
  split; [| split; [| done]].
  - unfold get_project.
    replace (query_project _ project_id (User.id current_user)) with (@None Project.t);
      [done |].
    symmetry. apply first_None_iff. simpl. apply Forall_forall.
    intros x Hx. apply list_elem_of_filter in Hx as [Hx _].
    apply andb_false_iff. left. apply Z.eqb_neq. congruence.
  - intros x. simpl. rewrite list_elem_of_filter. rewrite Hid. tauto.
Qed.

Lemma deleted_project_is_gone_witness :
  exists db',
    delete_project 1 Fixture.alice Fixture.empty_db = (Ok tt, db')
    /\ get_project 1 Fixture.alice db' = (Raise (not_found "Project"), db').
Proof.
  destruct (deleted_project_is_gone Fixture.empty_db 1 Fixture.alice Fixture.site)
    as (db' & Hdel & Hget & _); [reflexivity | constructor |].
  exists db'. by split.
Defined.

End ProjectsMore.

(** ** The rate limiter in general *)

Section RateLimitMore.

Import RateLimit.

Lemma min_elem_of (xs : list Q) (m : Q) : min xs = Ok m -> m ∈ xs.
Proof.
  destruct xs as [|x r]; [done |]. simpl. intros [= <-].
  assert (Hgen : forall acc, fold_left (fun m y => if Qltb y m then y else m) r acc
                             ∈ acc :: r).
  { induction r as [|y r IH]; intros acc; simpl; [by left |].
    destruct (Qltb y acc).
    - specialize (IH y). apply elem_of_cons in IH as [-> | IH].
      + right. by left.
      + do 2 right. done.
    - specialize (IH acc). apply elem_of_cons in IH as [-> | IH].
      + by left.
      + do 2 right. done. }
  apply Hgen.
Qed.

Lemma recent_spec (now t : Q) (l : list Q) :
  t ∈ recent now l <-> t ∈ l /\ (now - t < 60)%Q.
Proof.
  unfold recent. rewrite !list_elem_of_In, filter_In, Qltb_true. done.
Qed.

Lemma is_rate_limited_under_limit (self : RateLimiter) (client_ip : string) (now : Q) :
  let window := recent now (default [] (requests self !! client_ip)) in
  Z.of_nat (length window) < requests_per_minute self ->
  exists self',
    is_rate_limited self client_ip now = (Ok (false, 0), self')
    /\ requests self' !! client_ip = Some (window ++ [now]).
Proof.
  intros window Hlt. pose proof (is_rate_limited_unfold self client_ip now) as Hun.
  simpl in Hun. fold (recent now (default [] (requests self !! client_ip))) in Hun.
  fold window in Hun.
  assert (Hc : (Z.of_nat (length window) >=? requests_per_minute self) = false) by lia.
  rewrite Hc in Hun. eexists. split; [exact Hun |]. simpl. apply lookup_insert_eq.
Qed.

(** X11.  The decision of the limiter is a count over a sliding window: a
    request is let through, and recorded after the client's recent requests,
    exactly when fewer than the limit of the client's recorded requests are
    less than 60 seconds old; otherwise (for a positive limit) it is refused
    with a Retry-After that is never negative, and at most 60 when no
    recorded request lies in the future; either way the requests of 60
    seconds or older are forgotten. *)
Theorem limiter_counts_recent_requests
    (self : RateLimiter) (client_ip : string) (now : Q) :
  let window := recent now (default [] (requests self !! client_ip)) in
  (Z.of_nat (length window) < requests_per_minute self ->
     exists self',
       is_rate_limited self client_ip now = (Ok (false, 0), self')
       /\ requests self' !! client_ip = Some (window ++ [now]))
  /\ (0 < requests_per_minute self <= Z.of_nat (length window) ->
        exists retry_after self',
          is_rate_limited self client_ip now = (Ok (true, retry_after), self')
          /\ requests self' !! client_ip = Some window
          /\ 0 <= retry_after
          /\ (Forall (fun t => (t <= now)%Q) window -> retry_after <= 60)).
Proof.
  intros window. pose proof (is_rate_limited_unfold self client_ip now) as Hun.
  simpl in Hun. fold (recent now (default [] (requests self !! client_ip))) in Hun.
  fold window in Hun. split.
  - intros Hlt.
    assert (Hc : (Z.of_nat (length window) >=? requests_per_minute self) = false) by lia.
    rewrite Hc in Hun. eexists. split; [exact Hun |]. simpl. apply lookup_insert_eq.
  - intros [Hpos Hge].
    assert (Hc : (Z.of_nat (length window) >=? requests_per_minute self) = true) by lia.
    rewrite Hc in Hun.
    destruct (min window) as [oldest|e] eqn:Hmin.
    + apply min_elem_of in Hmin. pose proof Hmin as Hin.
      apply recent_spec in Hmin as [_ Hyoung].
      do 2 eexists. split; [exact Hun |].
      split; [simpl; apply lookup_insert_eq |]. split.
      * apply int_nonneg. clear - Hyoung. lra.
      * intros Hpast. rewrite Forall_forall in Hpast. specialize (Hpast _ Hin).
        simpl in Hpast. clear - Hyoung Hpast.
        apply int_le; [lra |]. change (inject_Z 60) with 60%Q. lra.
    + destruct window; [simpl in Hge; lia | discriminate Hmin].
Qed.

Lemma limiter_counts_recent_requests_witness :
  exists self',
    is_rate_limited rate_limiter "203.0.113.7" (tick 0) = (Ok (false, 0), self')
    /\ requests self' !! "203.0.113.7" = Some [tick 0].
Proof.
  destruct (limiter_counts_recent_requests rate_limiter "203.0.113.7" (tick 0))
    as [Hallow _].
  apply Hallow. by vm_compute.
Defined.

(** X12.  The window slides: however many requests a client has recorded,
    once all of them are 60 seconds old or older its next request is let
    through (for a limit of at least 1) and its history is that request
    alone. *)
Theorem limiter_forgets_after_a_minute
    (self : RateLimiter) (client_ip : string) (now : Q) :
  0 < requests_per_minute self ->
  Forall (fun t => (60 <= now - t)%Q) (default [] (requests self !! client_ip)) ->
  exists self',
    is_rate_limited self client_ip now = (Ok (false, 0), self')
    /\ requests self' !! client_ip = Some [now].
Proof.
  intros Hpos Hold.
  assert (Hempty : recent now (default [] (requests self !! client_ip)) = []).
  { unfold recent. induction Hold as [|t l Ht _ IH]; simpl; [done |].
    assert (Hf : Qltb (now - t) 60 = false).
    { apply not_true_is_false. intros Hlt. apply Qltb_true in Hlt.
      simpl in Ht. clear - Ht Hlt. lra. }
    by rewrite Hf. }
  pose proof (is_rate_limited_under_limit self client_ip now) as Hallow.
  cbv zeta in Hallow. rewrite Hempty in Hallow. apply Hallow. simpl. lia.
Qed.

Lemma limiter_forgets_after_a_minute_witness :
  exists self',
    is_rate_limited saturated_limiter "203.0.113.7" (tick 7744) = (Ok (false, 0), self')
    /\ requests self' !! "203.0.113.7" = Some [tick 7744].
Proof.
  apply limiter_forgets_after_a_minute; [by vm_compute |].
  vm_compute. repeat (constructor; [by vm_compute |]). constructor.
Defined.

Lemma is_rate_limited_answer_ext (self1 self2 : RateLimiter) (client_ip : string) (now : Q) :
  requests self1 !! client_ip =@{option (list Q)} requests self2 !! client_ip ->
  requests_per_minute self1 = requests_per_minute self2 ->
  fst (is_rate_limited self1 client_ip now) = fst (is_rate_limited self2 client_ip now).
Proof.
  intros Hreq Hrpm. unfold is_rate_limited. rewrite Hreq.
  destruct (requests self2 !! client_ip) as [l|]; simpl;
    rewrite !lookup_insert_eq; simpl; rewrite Hrpm;
    by destruct (_ >=? _).
Qed.

(** X13.  Clients do not share a quota: after any sequence of requests that
    are health checks or come from other clients, the recorded requests of a
    client are what they were, and so is the limiter's answer to that
    client. *)
Theorem other_clients_do_not_consume_quota
    (call_next : Request -> Response) (self : RateLimiter) (client_ip : string)
    (arrivals : list (Request * Q)) (now : Q) :
  Forall (fun a => String.prefix "/health" (path (fst a)) = true
                   \/ client_of (fst a) <> client_ip) arrivals ->
  let self' := snd (serve call_next self arrivals) in
  requests self' !! client_ip =@{option (list Q)} requests self !! client_ip
  /\ requests_per_minute self' = requests_per_minute self
  /\ fst (is_rate_limited self' client_ip now) = fst (is_rate_limited self client_ip now).
Proof.
  intros Hall.
  assert (Hkeep : requests (snd (serve call_next self arrivals)) !! client_ip
                  =@{option (list Q)} requests self !! client_ip
                  /\ requests_per_minute (snd (serve call_next self arrivals))
                     = requests_per_minute self).
  { revert self. induction Hall as [|[request t] arrivals Ha _ IH]; intros self; [done |].
    simpl. pose proof (middleware_frame call_next self request t client_ip Ha) as [Hr Hn].
    destruct (rate_limit_middleware call_next self request t) as [r self1].
    specialize (IH self1). destruct (serve call_next self1 arrivals) as [rs self2].
    simpl in *. destruct IH as [IH1 IH2]. split; congruence. }
  destruct Hkeep as [Hreq Hrpm]. cbv zeta. split; [done | split; [done |]].
  by apply is_rate_limited_answer_ext.
Qed.

Lemma other_clients_do_not_consume_quota_witness :
  fst (is_rate_limited saturated_limiter "198.51.100.9" (tick 64))
  = fst (is_rate_limited rate_limiter "198.51.100.9" (tick 64)).
Proof.
  apply (other_clients_do_not_consume_quota ok_response rate_limiter "198.51.100.9" burst).
  apply Forall_forall. intros a Ha. right.
  unfold burst in Ha. apply list_elem_of_fmap in Ha as (i & -> & _). simpl. discriminate.
Defined.

(** X14.  Health checks are never limited and never counted: however many
    requests to paths under /health arrive, each is answered by the
    application with its response untouched, and the limiter is left as it
    was. *)
Theorem health_checks_bypass_the_limiter
    (call_next : Request -> Response) (self : RateLimiter) (arrivals : list (Request * Q)) :
  Forall (fun a => String.prefix "/health" (path (fst a)) = true) arrivals ->
  serve call_next self arrivals = (map (fun a => Ok (call_next (fst a))) arrivals, self).
Proof.
  induction 1 as [|[request t] arrivals Ha _ IH]; [done |].
  simpl in *. unfold rate_limit_middleware. by rewrite Ha, IH.
Qed.

Lemma health_checks_bypass_the_limiter_witness :
  serve ok_response saturated_limiter (replicate 100 (health_request, tick 64))
  = (replicate 100 (Ok (ok_response health_request)), saturated_limiter).
Proof.
  rewrite (health_checks_bypass_the_limiter ok_response saturated_limiter
             (replicate 100 (health_request, tick 64))).
  - by rewrite fmap_replicate.
  - by apply Forall_replicate.
Defined.

Lemma within_limit_step (self : RateLimiter) (client_ip : string) (now : Q) :
  0 <= requests_per_minute self ->
  within_limit self ->
  within_limit (snd (is_rate_limited self client_ip now)).
Proof.
  intros Hrpm Hin. rewrite is_rate_limited_unfold. simpl.
  set (l := List.filter _ _).
  assert (Hl : Z.of_nat (length l) <= requests_per_minute self).
  { destruct (requests self !! client_ip) as [l0|] eqn:Hl0; simpl in l; [| simpl; lia].
    specialize (Hin client_ip l0 Hl0).
    pose proof (filter_length_le (fun req_time => Qltb (now - req_time) 60) l0).
    subst l. lia. }
  destruct (Z.of_nat (length l) >=? requests_per_minute self) eqn:Hc; simpl;
    intros ip l' Hl'; simpl in Hl'.
  - destruct (decide (ip = client_ip)) as [-> | Hne].
    + rewrite lookup_insert_eq in Hl'. injection Hl' as <-. done.
    + rewrite lookup_insert_ne in Hl' by done. by apply (Hin ip).
  - destruct (decide (ip = client_ip)) as [-> | Hne].
    + rewrite lookup_insert_eq in Hl'. injection Hl' as <-.
      rewrite length_app. simpl. lia.
    + rewrite !lookup_insert_ne in Hl' by done. by apply (Hin ip).
Qed.

(** X15.  The limiter's memory is bounded: for a non-negative limit, if no
    client has more recorded requests than the limit, then after any sequence
    of requests no client has; in particular the global limiter, which starts
    empty with a limit of 60, never holds more than 60 timestamps for a
    client. *)
Theorem limiter_memory_is_bounded
    (call_next : Request -> Response) (self : RateLimiter) (arrivals : list (Request * Q)) :
  0 <= requests_per_minute self ->
  within_limit self ->
  within_limit (snd (serve call_next self arrivals))
  /\ requests_per_minute (snd (serve call_next self arrivals)) = requests_per_minute self.
Proof.
  revert self. induction arrivals as [|[request t] arrivals IH]; intros self Hrpm Hin;
    [done |].
  simpl.
  assert (Hstep : within_limit (snd (rate_limit_middleware call_next self request t))
                  /\ requests_per_minute (snd (rate_limit_middleware call_next self request t))
                     = requests_per_minute self).
  { unfold rate_limit_middleware.
    destruct (String.prefix "/health" (path request)); [done |].
    pose proof (within_limit_step self (default "unknown" (client request)) t Hrpm Hin) as Hw.
    assert (Hn : requests_per_minute
                   (snd (is_rate_limited self (default "unknown" (client request)) t))
                 = requests_per_minute self).
    { rewrite is_rate_limited_unfold. simpl. by destruct (_ >=? _). }
    destruct (is_rate_limited self (default "unknown" (client request)) t)
      as [[[is_limited retry_after]|e] self'];
      simpl in *; [destruct is_limited |]; done. }
  destruct (rate_limit_middleware call_next self request t) as [r self1].
  simpl in Hstep. destruct Hstep as [Hin1 Hrpm1].
  specialize (IH self1). destruct (serve call_next self1 arrivals) as [rs self2].
  simpl in *. destruct IH as [IH1 IH2]; [lia | done |]. split; [done | congruence].
Qed.

Lemma limiter_memory_is_bounded_witness :
  within_limit (snd (serve ok_response rate_limiter burst_then_late)).
Proof.
  apply (limiter_memory_is_bounded ok_response rate_limiter burst_then_late).
  - by vm_compute.
  - intros ip l Hl. simpl in Hl. rewrite lookup_empty in Hl. discriminate Hl.
Defined.

End RateLimitMore.

(** ** Analytics: validation, breakdowns, access *)

Section AnalyticsMore.

Import Analytics.
Context `{FloatOps}.

(** X16.  The date check answers "valid" exactly when both bounds parse,
    both are naive or both offset-aware, the start is not after the end, and
    the end is less than 366 days after the start: the length is counted in
    whole days, so a range of 365 days and 23 hours passes and the empty
    range (start = end) passes too.  When both bounds parse and one is naive
    while the other is offset-aware, the comparison raises TypeError, which
    the check does not catch; it raises in no other case. *)
Theorem validate_date_range_accepts
    (start_date end_date : option isoformat) :
  ((exists msg, validate_date_range start_date end_date = Ok (true, msg))
   <-> exists start end_,
         start_date = Some start /\ end_date = Some end_
         /\ offset_aware start = offset_aware end_
         /\ instant start <= instant end_
         /\ instant end_ - instant start < Calendar.days 366)
  /\ (forall e,
        validate_date_range start_date end_date = Raise e
        <-> e = TypeError
            /\ exists start end_,
                 start_date = Some start /\ end_date = Some end_
                 /\ offset_aware start <> offset_aware end_).
Proof.
  unfold validate_date_range, Calendar.timedelta_days, Calendar.days, Calendar.DAY.
  destruct start_date as [start|], end_date as [end_|];
    try (split; [split; [by intros [msg Hm] | by intros (? & ? & ? & ? & _)]
                | intros e; split; [discriminate | by intros (_ & ? & ? & ? & ? & _)]]).
  destruct (Bool.eqb (offset_aware start) (offset_aware end_)) eqn:Hsame; cbn [negb].
  - apply Bool.eqb_prop in Hsame. split.
    + destruct (instant start >? instant end_) eqn:Hgt.
      * split; [by intros [msg Hm] |].
        intros (s & e & [= <-] & [= <-] & _ & Hle & _). lia.
      * destruct ((instant end_ - instant start) / 86400000000 >? 365) eqn:Hspan.
        -- split; [by intros [msg Hm] |].
           intros (s & e & [= <-] & [= <-] & _ & Hle & Hlt).
           assert ((instant end_ - instant start) / 86400000000 < 366)
             by (apply Z.div_lt_upper_bound; lia).
           lia.
        -- split; [| by eexists]. intros _. exists start, end_.
           split; [done |]. split; [done |]. split; [done |]. split; [lia |].
           assert (Hq : (instant end_ - instant start) / 86400000000 <= 365) by lia.
           pose proof (Z.mul_succ_div_gt (instant end_ - instant start) 86400000000
                         ltac:(lia)).
           lia.
    + intros e. split.
      * destruct (instant start >? instant end_); [discriminate |].
        by destruct (_ >? 365).
      * intros (_ & s & e' & [= <-] & [= <-] & Hne). congruence.
  - apply Bool.eqb_false_iff in Hsame. split.
    + split; [by intros [msg Hm] |].
      intros (s & e & [= <-] & [= <-] & Heq & _). congruence.
    + intros e. split.
      * intros [= <-]. split; [done |]. by exists start, end_.
      * by intros [-> _].
Qed.

Lemma tally_fold `{Countable K} (keys : list K) (m : gmap K Z) (k : K) :
  default 0 (fold_left (fun counts k => <[k := default 0 (counts !! k) + 1]> counts) keys m
             !! k)
  = default 0 (m !! k) + Z.of_nat (length (filter (fun x => x = k) keys)).
Proof.
  revert m. induction keys as [|x keys IH]; intros m; simpl; [lia |].
  rewrite IH. destruct (decide (x = k)) as [-> | Hne].
  - rewrite lookup_insert_eq, filter_cons_True by done. simpl. lia.
  - rewrite lookup_insert_ne, filter_cons_False by done. lia.
Qed.

Lemma tally_count `{Countable K} (keys : list K) (k : K) :
  default 0 (tally keys !! k) = Z.of_nat (length (filter (fun x => x = k) keys)).
Proof. unfold tally. rewrite tally_fold, lookup_empty. simpl. lia. Qed.

Lemma tally_fold_None `{Countable K} (keys : list K) (m : gmap K Z) (k : K) :
  fold_left (fun counts k => <[k := default 0 (counts !! k) + 1]> counts) keys m !! k = None
  <-> m !! k = None /\ k ∉ keys.
Proof.
  revert m. induction keys as [|x keys IH]; intros m; simpl.
  - split; [intros Hm; split; [done | apply not_elem_of_nil] | by intros [? _]].
  - rewrite IH, not_elem_of_cons. destruct (decide (x = k)) as [-> | Hne].
    + rewrite lookup_insert_eq. split; [by intros [? _] | by intros [_ [? _]]].
    + rewrite lookup_insert_ne by done.
      split; [intros [Hm Hk]; repeat split; [done | congruence | done] |].
      by intros (Hm & _ & Hk).
Qed.

Lemma filter_fmap_length {A B : Type} (f : A -> B) (P : B -> Prop)
    (decP : forall y, Decision (P y)) (decQ : forall x, Decision (P (f x))) (l : list A) :
  length (@filter _ _ _ P decP (map f l))
  = length (@filter _ _ _ (fun x => P (f x)) decQ l).
Proof.
  induction l as [|x l IH]; simpl; [done |].
  rewrite !filter_cons. destruct (decP (f x)), (decQ x); simpl; try contradiction;
    by rewrite IH.
Qed.

Lemma status_value_inj (s1 s2 : DeploymentStatus) :
  status_value s1 = status_value s2 -> s1 = s2.
Proof. destruct s1, s2; simpl; intros Heq; try reflexivity; discriminate Heq. Qed.

Lemma status_tally (ds : list Deployment.t) (s : DeploymentStatus) :
  default 0 (tally (map (fun d => status_value (Deployment.status d)) ds) !! status_value s)
  = with_status s ds.
Proof.
  rewrite tally_count. unfold with_status. f_equal.
  rewrite (filter_fmap_length (fun d => status_value (Deployment.status d))
             (fun x => x = status_value s) _ _ ds).
  f_equal. apply list_filter_iff. intros d. split; [apply status_value_inj | by intros ->].
Qed.

Lemma day_tally (ds : list Deployment.t) (day : Z) :
  default 0 (tally (map (fun d => Calendar.date (Deployment.started_at d)) ds) !! day)
  = started_on day ds.
Proof.
  rewrite tally_count. unfold started_on. f_equal.
  apply (filter_fmap_length (fun d => Calendar.date (Deployment.started_at d))
           (fun x => x = day)).
Qed.

Lemma statuses_partition (ds : list Deployment.t) :
  Z.of_nat (length ds) = foldr Z.add 0 (map (fun s => with_status s ds) all_statuses).
Proof.
  unfold all_statuses, with_status. simpl.
  induction ds as [|d ds IH]; simpl; [done |].
  rewrite !filter_cons.
  destruct (Deployment.status d); repeat (case_decide; try congruence); simpl; lia.
Qed.

(** X17.  When user statistics are returned, the breakdowns are exact counts
    over the requester's deployments that started within the range: the
    status breakdown gives, for each status, the number of those deployments
    with that status (a status no deployment has is absent), the daily trend
    gives for each day the number started on that day, and the status counts
    add up to the reported total. *)
Theorem user_breakdowns_are_counts
    (start_date end_date : date_param) (current_user : User.t) (now : datetime) (db : DB)
    (stats : UserStats) :
  get_user_analytics start_date end_date current_user now db = Ok stats ->
  exists start end_,
    or_default start_date (naive (now - Calendar.days 30)) = Some start
    /\ or_default end_date (naive now) = Some end_
    /\ offset_aware start = offset_aware end_
    /\ let ds := user_deployments db (User.id current_user)
                   (instant start) (instant end_) in
       us_total_deployments stats = Z.of_nat (length ds)
       /\ (forall s, default 0 (us_deployment_status stats !! status_value s)
                     = with_status s ds)
       /\ (forall s, us_deployment_status stats !! status_value s = None
                     <-> Forall (fun d => Deployment.status d <> s) ds)
       /\ (forall day, default 0 (us_daily_trend stats !! day) = started_on day ds)
       /\ us_total_deployments stats
          = foldr Z.add 0 (map (fun s => with_status s ds) all_statuses).
Proof.
  unfold get_user_analytics. intros Hret.
  destruct (validate_date_range _ _) as [[[|] msg]|e] eqn:Hv;
    [| discriminate Hret | discriminate Hret].
  apply validate_date_range_true in Hv as (start & end_ & Hs & He & Haware).
  rewrite Hs, He in Hret. cbv zeta in Hret.
  rewrite success_rate_of_Ok, average_Ok in Hret.
  cbn [bind] in Hret. injection Hret as <-.
  exists start, end_. split; [done | split; [done | split; [done |]]]. simpl.
  split; [done |]. split; [apply status_tally |]. split; [| split].
  - intros s. unfold tally. rewrite tally_fold_None, Forall_forall. split.
    + intros [_ Hnot] d Hd Heq. subst s. apply Hnot. apply list_elem_of_fmap. by exists d.
    + intros Hall. split; [apply lookup_empty |].
      intros Hin. apply list_elem_of_fmap in Hin as (d & Heq & Hd).
      apply status_value_inj in Heq. by apply (Hall d Hd).
  - apply day_tally.
  - apply statuses_partition.
Qed.

End AnalyticsMore.

Lemma user_breakdowns_are_counts_witness :
  exists stats,
    Analytics.get_user_analytics (H := exact_floats) (Analytics.Given 0) (Analytics.Given 1000) Fixture.alice mid_march Fixture.busy_db
    = Ok stats
    /\ default 0 (Analytics.us_deployment_status stats !! "success") = 1
    /\ default 0 (Analytics.us_deployment_status stats !! "pending") = 1.
Proof.
  destruct (Analytics.get_user_analytics (H := exact_floats) (Analytics.Given 0) (Analytics.Given 1000) Fixture.alice
              mid_march Fixture.busy_db) as [stats|e] eqn:Hret;
    [| by vm_compute in Hret].
  exists stats. split; [reflexivity |].
  destruct (user_breakdowns_are_counts (H := exact_floats) _ _ _ _ _ _ Hret)
    as (start & end_ & [= <-] & [= <-] & _ & _ & Hcount & _).
  split; [exact (Hcount SUCCESS) | exact (Hcount PENDING)].
Defined.

(** ** Project and admin reports *)

Section AnalyticsReports.

Import Analytics.
Context `{FloatOps}.

Lemma insert_desc_perm (d : Deployment.t) (l : list Deployment.t) :
  insert_desc d l ≡ₚ d :: l.
Proof.
  induction l as [|x l IH]; simpl; [done |].
  destruct (Deployment.started_at x <? Deployment.started_at d); [done |].
  rewrite IH. apply Permutation_swap.
Qed.

Lemma order_by_started_at_desc_perm (l : list Deployment.t) :
  order_by_started_at_desc l ≡ₚ l.
Proof.
  induction l as [|x l IH]; simpl; [done |].
  by rewrite insert_desc_perm, IH.
Qed.

Lemma insert_desc_sorted (d : Deployment.t) (l : list Deployment.t) :
  latest_first l -> latest_first (insert_desc d l).
Proof.
  unfold latest_first. induction 1 as [|x l Hl IH Hx]; simpl.
  - repeat constructor.
  - destruct (Deployment.started_at x <? Deployment.started_at d) eqn:Hlt.
    + apply Z.ltb_lt in Hlt. constructor; [by constructor |].
      constructor; [lia |]. eapply Forall_impl; [exact Hx |]. simpl. intros y Hy. lia.
    + apply Z.ltb_ge in Hlt. constructor; [exact IH |].
      rewrite insert_desc_perm. by constructor.
Qed.

Lemma order_by_started_at_desc_sorted (l : list Deployment.t) :
  latest_first (order_by_started_at_desc l).
Proof.
  induction l as [|x l IH]; simpl; [constructor | by apply insert_desc_sorted].
Qed.

Lemma with_status_perm (s : DeploymentStatus) (l1 l2 : list Deployment.t) :
  l1 ≡ₚ l2 -> with_status s l1 = with_status s l2.
Proof. intros Hp. unfold with_status. by rewrite Hp. Qed.

Lemma started_in_month_perm (ym : Z * Z) (l1 l2 : list Deployment.t) :
  l1 ≡ₚ l2 -> started_in_month ym l1 = started_in_month ym l2.
Proof. intros Hp. unfold started_in_month. by rewrite Hp. Qed.

(** X18.  A project report that is returned describes a project of the
    requester with the key asked for.  Its total is the number of the
    project's deployments that started within the range, its failure count
    and monthly trend count those same rows, and its recent list holds the
    five of them (or all, if fewer) that started latest, latest first: it
    is the first five of an arrangement of exactly those rows, each as often
    as it occurs, by start time, latest first. *)
Theorem project_report_lists_latest_deployments
    (dialect : Dialect) (project_id : Z) (start_date end_date : date_param)
    (current_user : User.t) (now : datetime) (db : DB) (stats : ProjectStats) :
  get_project_analytics dialect project_id start_date end_date current_user now db
  = Ok stats ->
  exists start end_,
    or_default start_date
      (column_isoformat dialect (Project.created_at (ps_project stats))) = Some start
    /\ or_default end_date (naive now) = Some end_
    /\ offset_aware start = offset_aware end_
    /\ ps_project stats ∈ projects db
    /\ Project.id (ps_project stats) = project_id
    /\ Project.user_id (ps_project stats) = User.id current_user
    /\ let rows := selected db project_id (instant start) (instant end_) in
       let recent := ps_recent_deployments stats in
       ps_total_deployments stats = Z.of_nat (length rows)
       /\ ps_failed_deployments stats = with_status FAILED rows
       /\ (forall ym, default 0 (ps_monthly_trend stats !! ym) = started_in_month ym rows)
       /\ (exists older, recent ++ older ≡ₚ rows /\ latest_first (recent ++ older))
       /\ length recent = Nat.min 5 (length rows)
       /\ latest_first recent
       /\ recent ⊆ rows
       /\ (forall d, d ∈ rows ->
             d ∈ recent
             \/ Forall (fun r => Deployment.started_at d <= Deployment.started_at r) recent).
Proof.
  unfold get_project_analytics. intros Hret.
  destruct (query_project db project_id (User.id current_user)) as [project|] eqn:Hq;
    [| discriminate Hret].
  destruct (validate_date_range _ _) as [[[|] msg]|e] eqn:Hv;
    [| discriminate Hret | discriminate Hret].
  apply validate_date_range_true in Hv as (start & end_ & Hs & He & Haware).
  rewrite Hs, He in Hret. cbv zeta in Hret.
  rewrite success_rate_of_Ok, average_Ok in Hret.
  cbn [bind] in Hret. injection Hret as <-. cbn [ps_project].
  exists start, end_. split; [done | split; [done | split; [done |]]].
  apply query_project_Some in Hq as (Hin & Hid & Huid).
  split; [done | split; [done | split; [done |]]].
  cbn [ps_total_deployments ps_failed_deployments ps_monthly_trend ps_recent_deployments].
  pose proof (order_by_started_at_desc_perm
                (selected db project_id (instant start) (instant end_))) as Hperm.
  pose proof (order_by_started_at_desc_sorted
                (selected db project_id (instant start) (instant end_))) as Hsorted.
  change (project_deployments db project_id (instant start) (instant end_))
    with (order_by_started_at_desc
            (selected db project_id (instant start) (instant end_))).
  set (ds := order_by_started_at_desc
               (selected db project_id (instant start) (instant end_))) in *.
  split; [| split; [| split; [| split; [| split; [| split; [| split]]]]]].
  - by rewrite Hperm.
  - change "failed" with (status_value FAILED). rewrite status_tally.
    by apply with_status_perm.
  - intros ym. rewrite tally_count.
    rewrite <- (started_in_month_perm ym _ _ Hperm). unfold started_in_month. f_equal.
    apply (filter_fmap_length (fun d => Calendar.year_month (Deployment.started_at d))
             (fun x => x = ym)).
  - exists (drop 5 ds). by rewrite take_drop.
  - by rewrite length_take, Hperm.
  - unfold latest_first in *. rewrite <- (take_drop 5 ds) in Hsorted.
    by apply StronglySorted_app_1_l in Hsorted.
  - intros d Hd. rewrite <- Hperm. by apply (subseteq_take 5 ds).
  - intros d Hd. rewrite <- Hperm, <- (take_drop 5 ds) in Hd.
    apply elem_of_app in Hd as [Hd | Hd]; [by left | right].
    apply Forall_forall. intros r Hr.
    unfold latest_first in Hsorted. rewrite <- (take_drop 5 ds) in Hsorted.
    apply (StronglySorted_app_1_elem_of _ _ _ r d Hsorted Hr Hd).
Qed.

Lemma count_filter {A : Type} (p : A -> bool) (P : A -> Prop)
    `{forall x, Decision (P x)} (l : list A) :
  (forall x, p x = true <-> P x) ->
  count p l = Z.of_nat (length (filter P l)).
Proof.
  intros Hp. unfold count. f_equal.
  induction l as [|x l IH]; simpl; [done |].
  rewrite filter_cons. destruct (p x) eqn:Hx, (decide (P x)) as [HP | HP]; simpl.
  - by rewrite IH.
  - by apply Hp in Hx.
  - apply Hp in HP. congruence.
  - exact IH.
Qed.

Lemma count_le {A : Type} (p : A -> bool) (l : list A) :
  0 <= count p l <= Z.of_nat (length l).
Proof.
  unfold count. induction l as [|x l IH]; simpl; [lia |].
  destruct (p x); simpl; lia.
Qed.

Lemma count_disjoint {A : Type} (p q : A -> bool) (l : list A) :
  (forall x, p x = true -> q x = false) ->
  count p l + count q l <= Z.of_nat (length l).
Proof.
  intros Hpq. unfold count. induction l as [|x l IH]; simpl; [lia |].
  destruct (p x) eqn:Hp; [rewrite (Hpq x Hp) |]; [| destruct (q x)]; simpl; lia.
Qed.

Lemma date_days_ago (now : datetime) (i : Z) :
  Calendar.date (now - Calendar.days i) = Calendar.date now - i.
Proof.
  unfold Calendar.date, Calendar.days.
  replace (now - i * Calendar.DAY) with (now + (- i) * Calendar.DAY) by lia.
  rewrite Z.div_add by (unfold Calendar.DAY; lia). lia.
Qed.

Lemma between_same_day (t x : datetime) :
  Calendar.between (Calendar.start_of_day t) (Calendar.end_of_day t) x = true
  <-> Calendar.date x = Calendar.date t.
Proof.
  unfold Calendar.between, Calendar.start_of_day, Calendar.end_of_day, Calendar.date.
  rewrite andb_true_iff, Z.leb_le, Z.leb_le.
  assert (Hday : 0 < Calendar.DAY) by (unfold Calendar.DAY; lia).
  generalize dependent Calendar.DAY. intros D HD.
  pose proof (Z.mul_div_le x D HD). pose proof (Z.mul_succ_div_gt x D HD).
  split.
  - intros [Hlo Hhi]. symmetry. apply (Z.div_unique x D (t / D) (x - D * (t / D))); lia.
  - intros <-. lia.
Qed.

Lemma trend_lookup (key value : Z -> Z) (on_day : Z -> Z) (l : list Z) (m : gmap Z Z)
    (day : Z) :
  (forall i, value i = on_day (key i)) ->
  fold_left (fun trend i => <[key i := value i]> trend) l m !! day
  = if bool_decide (day ∈ map key l) then Some (on_day day) else m !! day.
Proof.
  intros Hvalue. revert m. induction l as [|i l IH]; intros m; simpl; [done |].
  rewrite IH. destruct (decide (day ∈ map key l)) as [Hin | Hnin].
  - rewrite (bool_decide_eq_true_2 _ Hin).
    rewrite bool_decide_eq_true_2 by (by right). done.
  - rewrite (bool_decide_eq_false_2 _ Hnin).
    destruct (decide (day = key i)) as [-> | Hne].
    + rewrite lookup_insert_eq, Hvalue.
      rewrite bool_decide_eq_true_2 by (by left). done.
    + rewrite lookup_insert_ne by done.
      rewrite bool_decide_eq_false_2; [done |].
      intros Hin. apply elem_of_cons in Hin as [Heq | Hin]; [by apply Hne | by apply Hnin].
Qed.

(** X19.  The overview is refused with 403 to anyone who is not an
    administrator.  An administrator always gets one (no division is
    attempted on an empty table): its totals are the table sizes, the recent
    and the monthly user counts never exceed the number of users, and the
    deployment trend has exactly the seven days ending today, each with the
    number of deployments started on that day. *)
Theorem admin_overview_for_admins_only (current_user : User.t) (now : datetime) (db : DB) :
  if User.is_admin current_user then
    exists overview,
      get_admin_overview current_user now db = Ok overview
      /\ ao_total_users overview = Z.of_nat (length (users db))
      /\ ao_total_projects overview = Z.of_nat (length (projects db))
      /\ ao_total_deployments overview = Z.of_nat (length (deployments db))
      /\ 0 <= ao_active_users_last_30_days overview <= ao_total_users overview
      /\ ao_new_users_this_month overview + ao_new_users_last_month overview
         <= ao_total_users overview
      /\ forall day,
           ao_deployment_trend_last_7_days overview !! day
           = if bool_decide (Calendar.date now - 6 <= day <= Calendar.date now)
             then Some (started_on day (deployments db)) else None
  else
    get_admin_overview current_user now db
    = Raise (HTTPException HTTP_403_FORBIDDEN (Msg "Admin privileges required")).
Proof.
  unfold get_admin_overview, require_admin.
  destruct (User.is_admin current_user); [| done].
  cbn [negb bind]. rewrite success_rate_of_Ok, user_growth_of_Ok. cbn [bind].
  eexists. split; [reflexivity |].
  cbn [ao_total_users ao_total_projects ao_total_deployments ao_active_users_last_30_days
       ao_new_users_this_month ao_new_users_last_month ao_deployment_trend_last_7_days].
  split; [done | split; [done | split; [done |]]].
  split; [apply count_le |]. split.
  - apply count_disjoint. intros u Hu. apply Z.leb_le in Hu.
    apply andb_false_iff. right. apply Z.ltb_ge. exact Hu.
  - intros day.
    rewrite (trend_lookup (fun i => Calendar.date (now - Calendar.days i))
               (fun i => count (fun d => Calendar.between
                                           (Calendar.start_of_day (now - Calendar.days i))
                                           (Calendar.end_of_day (now - Calendar.days i))
                                           (Deployment.started_at d)) (deployments db))
               (fun key => started_on key (deployments db))).
    + rewrite lookup_empty. simpl map. rewrite !date_days_ago.
      apply (f_equal (fun b : bool => if b then Some (started_on day (deployments db))
                                      else None)).
      apply bool_decide_ext. rewrite !elem_of_cons, elem_of_nil. lia.
    + intros i. unfold started_on. apply count_filter. intros d. apply between_same_day.
Qed.

End AnalyticsReports.

Lemma project_report_lists_latest_deployments_witness :
  exists stats,
    Analytics.get_project_analytics (H := exact_floats) Analytics.PostgreSQL 1
      (Analytics.GivenAware 0) (Analytics.GivenAware 1000) Fixture.alice mid_march
      Fixture.busy_db = Ok stats
    /\ Analytics.ps_total_deployments stats = 2
    /\ latest_first (Analytics.ps_recent_deployments stats).
Proof.
  destruct (Analytics.get_project_analytics (H := exact_floats) Analytics.PostgreSQL 1
              (Analytics.GivenAware 0) (Analytics.GivenAware 1000) Fixture.alice mid_march
              Fixture.busy_db)
    as [stats|e] eqn:Hret; [| by vm_compute in Hret].
  exists stats. split; [reflexivity |].
  destruct (project_report_lists_latest_deployments (H := exact_floats) _ _ _ _ _ _ _ _ Hret)
    as (start & end_ & [= <-] & [= <-] & _ & _ & _ & _ & Htotal & _ & _ & _ & _ & Hsorted & _).
  split; [exact Htotal | exact Hsorted].
Defined.

(** ** Administration *)

Section AdminSpec.

Import Deployments Admin.

Lemma depends_require_admin_403 {A : Type} (current_user : User.t)
    (body : User.t -> handler A) (db : DB) :
  User.is_admin current_user = false ->
  depends_require_admin current_user body db
  = (Raise (HTTPException HTTP_403_FORBIDDEN (Msg "Admin privileges required")), db).
Proof. intros Hna. unfold depends_require_admin, Analytics.require_admin. by rewrite Hna. Qed.

Lemma depends_require_admin_ok {A : Type} (current_user : User.t)
    (body : User.t -> handler A) (db : DB) :
  User.is_admin current_user = true ->
  depends_require_admin current_user body db = body current_user db.
Proof. intros Ha. unfold depends_require_admin, Analytics.require_admin. by rewrite Ha. Qed.

(** X20.  Every administrative operation asked for by a user who is not an
    administrator raises 403 Forbidden and leaves the store as it was,
    whether or not the user or project named exists. *)
Theorem admin_operations_refuse_other_users
    (current_user : User.t) (user_id project_id : Z) (db : DB) :
  User.is_admin current_user = false ->
  let forbidden {A : Type} : result A * DB :=
    (Raise (HTTPException HTTP_403_FORBIDDEN (Msg "Admin privileges required")), db) in
  get_user user_id current_user db = forbidden
  /\ deactivate_user user_id current_user db = forbidden
  /\ activate_user user_id current_user db = forbidden
  /\ make_admin user_id current_user db = forbidden
  /\ remove_admin user_id current_user db = forbidden
  /\ delete_project_admin project_id current_user db = forbidden.
Proof.
  intros Hna. simpl.
  unfold get_user, deactivate_user, activate_user, make_admin, remove_admin,
    delete_project_admin.
  by rewrite !depends_require_admin_403.
Qed.

Lemma admin_operations_refuse_other_users_witness :
  deactivate_user 2 Fixture.alice Fixture.busy_db
  = (Raise (HTTPException HTTP_403_FORBIDDEN (Msg "Admin privileges required")),
     Fixture.busy_db).
Proof.
  destruct (admin_operations_refuse_other_users Fixture.alice 2 1 Fixture.busy_db)
    as (_ & Hdeactivate & _); [reflexivity | exact Hdeactivate].
Defined.

Lemma query_user_Some (db : DB) (user_id : Z) (u : User.t) :
  query_user db user_id = Some u -> u ∈ users db /\ User.id u = user_id.
Proof.
  unfold query_user. intros Hq. apply first_Some_inv in Hq as [Hin Hid].
  by apply Z.eqb_eq in Hid.
Qed.

Lemma user_ids_distinct_inj (l : list User.t) (x y : User.t) :
  NoDup (map User.id l) -> x ∈ l -> y ∈ l -> User.id x = User.id y -> x = y.
Proof.
  induction l as [|z l IH]; simpl; intros Hnd Hx Hy Hid.
  - by apply elem_of_nil in Hx.
  - apply NoDup_cons in Hnd as [Hz Hnd].
    apply elem_of_cons in Hx as [-> | Hx], Hy as [-> | Hy]; [done | | | by apply IH].
    + exfalso. apply Hz. rewrite Hid. apply list_elem_of_fmap. by exists y.
    + exfalso. apply Hz. rewrite <- Hid. apply list_elem_of_fmap. by exists x.
Qed.

Lemma update_user_rows (db : DB) (user user' : User.t) (R : User.t -> User.t -> Prop) :
  user_ids_distinct db ->
  user ∈ users db ->
  User.id user' = User.id user ->
  R user user' ->
  (forall u, R u u) ->
  Forall2 (fun u u' => R u u' /\ (User.id u <> User.id user -> u' = u))
          (users db) (users (update_user user' db)).
Proof.
  unfold user_ids_distinct, update_user. simpl.
  intros Hnd Hin Hid HR Hrefl. rewrite Hid.
  assert (Hall : forall u, u ∈ users db -> u ∈ users db) by done.
  revert Hall. generalize (users db) at 1 3 4. intros l Hall.
  induction l as [|x l IH]; simpl; constructor.
  - destruct (User.id x =? User.id user) eqn:Hx.
    + apply Z.eqb_eq in Hx.
      assert (x = user) as -> by (apply (user_ids_distinct_inj (users db)); auto; apply Hall; by left).
      split; [done | by intros Hne].
    + split; [apply Hrefl | done].
  - apply IH. intros u Hu. apply Hall. by right.
Qed.

Lemma update_user_ids (db : DB) (user' : User.t) :
  map User.id (users (update_user user' db)) = map User.id (users db).
Proof.
  unfold update_user. simpl. induction (users db) as [|x l IH]; simpl; [done |].
  rewrite IH. f_equal. destruct (User.id x =? User.id user') eqn:Hx; [| done].
  apply Z.eqb_eq in Hx. by symmetry.
Qed.

Lemma same_but_flag_refl (op : flag_operation) (u : User.t) : same_but_flag op u u.
Proof. by destruct op. Qed.

Lemma unchanged_rows (op : flag_operation) (user_id : Z) (l : list User.t) :
  Forall2 (fun u u' => same_but_flag op u u' /\ (User.id u <> user_id -> u' = u)) l l.
Proof. apply Forall2_same_length_lookup_2; [done |]. intros i u u' Hu Hu'.
  assert (u' = u) as -> by congruence. split; [apply same_but_flag_refl | done]. Qed.

(** X21.  Whatever its outcome, a flag operation (deactivate, activate,
    make-admin, remove-admin) leaves projects, deployments and refresh
    tokens alone and keeps the users in place with their keys, e-mails,
    password hashes and creation times; a row whose key is not the one named
    is not touched, and the named row keeps the flag the operation is not
    about.  Keys stay distinct. *)
Theorem flag_operations_change_one_flag
    (op : flag_operation) (user_id : Z) (current_user : User.t) (db : DB) :
  user_ids_distinct db ->
  let db' := snd (run_flag_operation op user_id current_user db) in
  projects db' = projects db
  /\ deployments db' = deployments db
  /\ refresh_tokens db' = refresh_tokens db
  /\ user_ids_distinct db'
  /\ Forall2 (fun u u' => same_but_flag op u u' /\ (User.id u <> user_id -> u' = u))
             (users db) (users db').
Proof.
  intros Hnd.
  assert (Hsame : let db' := db in
            projects db' = projects db /\ deployments db' = deployments db
            /\ refresh_tokens db' = refresh_tokens db /\ user_ids_distinct db'
            /\ Forall2 (fun u u' => same_but_flag op u u' /\ (User.id u <> user_id -> u' = u))
                       (users db) (users db'))
    by (simpl; repeat split; [done | apply unchanged_rows]).
  assert (Hupd : forall user user',
            query_user db user_id = Some user ->
            User.id user' = User.id user -> same_but_flag op user user' ->
            let db' := update_user user' db in
            projects db' = projects db /\ deployments db' = deployments db
            /\ refresh_tokens db' = refresh_tokens db /\ user_ids_distinct db'
            /\ Forall2 (fun u u' => same_but_flag op u u' /\ (User.id u <> user_id -> u' = u))
                       (users db) (users db')).
  { intros user user' Hq Hid Hflag. apply query_user_Some in Hq as [Hin <-].
    simpl. repeat split.
    - unfold user_ids_distinct. by rewrite update_user_ids.
    - apply (update_user_rows db user user' (same_but_flag op)); auto.
      apply same_but_flag_refl. }
  destruct op; simpl;
    unfold deactivate_user, activate_user, make_admin, remove_admin, depends_require_admin;
    destruct (Analytics.require_admin current_user) as [admin|e]; try exact Hsame;
    destruct (query_user db user_id) as [user|] eqn:Hq; try exact Hsame;
    try (destruct (User.id user =? User.id admin); [exact Hsame |]);
    by apply (Hupd user).
Qed.

Lemma flag_operations_change_one_flag_witness :
  user_ids_distinct staffed_db
  /\ user_ids_distinct (snd (deactivate_user 1 Fixture.root staffed_db))
  /\ Forall2 (fun u u' => same_but_flag Deactivate u u' /\ (User.id u <> 1 -> u' = u))
             (users staffed_db) (users (snd (deactivate_user 1 Fixture.root staffed_db))).
Proof.
  assert (Hnd : user_ids_distinct staffed_db)
    by (apply (bool_decide_unpack _); by vm_compute).
  destruct (flag_operations_change_one_flag Deactivate 1 Fixture.root staffed_db Hnd)
    as (_ & _ & _ & Hnd' & Hrows).
  split; [exact Hnd | split; [exact Hnd' | exact Hrows]].
Defined.

Lemma query_user_update_ne (db : DB) (user' : User.t) (k : Z) :
  User.id user' <> k ->
  query_user (update_user user' db) k = query_user db k.
Proof.
  intros Hne. unfold query_user, update_user, first. simpl.
  induction (users db) as [|x l IH]; simpl; [done |].
  destruct (User.id x =? User.id user') eqn:Hx.
  - apply Z.eqb_eq in Hx.
    assert (Hk : (User.id user' =? k) = false) by (by apply Z.eqb_neq).
    assert (Hk' : (User.id x =? k) = false) by (apply Z.eqb_neq; congruence).
    by rewrite Hk, Hk'.
  - destruct (User.id x =? k); [done | exact IH].
Qed.

Lemma query_user_update_eq (db : DB) (user user' : User.t) :
  query_user db (User.id user) = Some user ->
  User.id user' = User.id user ->
  query_user (update_user user' db) (User.id user) = Some user'.
Proof.
  intros Hq Hid. unfold query_user, update_user, first in *. simpl. rewrite Hid.
  induction (users db) as [|x l IH]; simpl in *; [discriminate Hq |].
  destruct (User.id x =? User.id user) eqn:Hx.
  - by rewrite Hid, Z.eqb_refl.
  - rewrite Hx. by apply IH.
Qed.

Lemma remove_admin_keeps_caller (user_id : Z) (current_user : User.t) (db : DB) :
  query_user (snd (remove_admin user_id current_user db)) (User.id current_user)
  = query_user db (User.id current_user).
Proof.
  unfold remove_admin, depends_require_admin, Analytics.require_admin.
  destruct (negb (User.is_admin current_user)); [done |].
  destruct (query_user db user_id) as [user|]; [| done].
  destruct (User.id user =? User.id current_user) eqn:Hself; [done |].
  apply Z.eqb_neq in Hself. simpl. by apply query_user_update_ne.
Qed.

Lemma remove_admin_by_other_user (user_id : Z) (current_user : User.t) (db : DB) :
  User.is_admin current_user = false ->
  snd (remove_admin user_id current_user db) = db.
Proof.
  intros Hna. unfold remove_admin. by rewrite depends_require_admin_403.
Qed.

Lemma has_admin_query (db : DB) (u : User.t) :
  query_user db (User.id u) = Some u -> User.is_admin u = true -> has_admin db.
Proof.
  intros Hq Ha. apply query_user_Some in Hq as [Hin _].
  apply Exists_exists. by exists u.
Qed.

Lemma remove_admin_request_keeps_admin (db : DB) (request : Z * Z) :
  has_admin db -> has_admin (remove_admin_request db request).
Proof.
  intros Hadmin. destruct request as [caller_id user_id]. simpl.
  destruct (query_user db caller_id) as [current_user|] eqn:Hq; [| done].
  destruct (User.is_active current_user); [| done].
  destruct (User.is_admin current_user) eqn:Ha.
  - pose proof (query_user_Some _ _ _ Hq) as [_ <-].
    apply (has_admin_query _ current_user); [| done].
    by rewrite remove_admin_keeps_caller.
  - by rewrite remove_admin_by_other_user.
Qed.

(** X22.  Remove-admin never takes the privilege from its caller, so no
    sequence of remove-admin requests, whoever sends them and whomever they
    name, leaves a store that had an administrator without one. *)
Theorem remove_admin_never_removes_the_last_admin (db : DB) (requests : list (Z * Z)) :
  has_admin db -> has_admin (fold_left remove_admin_request requests db).
Proof.
  revert db. induction requests as [|request requests IH]; intros db Hadmin; simpl.
  - exact Hadmin.
  - apply IH. by apply remove_admin_request_keeps_admin.
Qed.

Lemma remove_admin_never_removes_the_last_admin_witness :
  has_admin (fold_left remove_admin_request [(3, 1); (3, 3); (1, 3)] staffed_db).
Proof.
  apply remove_admin_never_removes_the_last_admin.
  apply Exists_exists. exists Fixture.root. split; [| reflexivity].
  apply list_elem_of_In. simpl. auto.
Defined.

(** X23.  Once an administrator has deactivated an existing user, every
    bearer token naming that user is answered 400 Inactive user, whatever else
    the token says; and on a store with distinct keys, activating a user who
    was active before the deactivation gives back the store as it was. *)
Theorem deactivated_user_is_locked_out
    (jwt_decode : string -> option Auth.Payload) (creds : Auth.HTTPAuthorizationCredentials)
    (payload : Auth.Payload) (user_id : Z) (user admin : User.t) (db : DB) :
  User.is_admin admin = true ->
  query_user db user_id = Some user ->
  jwt_decode (Auth.credentials creds) = Some payload ->
  Auth.sub payload = Some user_id ->
  let db' := snd (deactivate_user user_id admin db) in
  Auth.get_current_user jwt_decode creds db'
  = Raise (HTTPException 400 (Msg "Inactive user"))
  /\ (user_ids_distinct db -> User.is_active user = true ->
      snd (activate_user user_id admin db') = db).
Proof.
  intros Ha Hq Hdecode Hsub. simpl.
  pose proof (query_user_Some _ _ _ Hq) as [Hin Hid]. subst user_id.
  unfold deactivate_user. rewrite depends_require_admin_ok by done. rewrite Hq. simpl.
  pose proof (query_user_update_eq db user (set_is_active false user) Hq eq_refl) as Hq'.
  split.
  - unfold Auth.get_current_user. rewrite Hdecode, Hsub.
    unfold query_user in Hq'. by rewrite Hq'.
  - intros Hnd Hactive. unfold activate_user. rewrite depends_require_admin_ok by done.
    rewrite Hq'. simpl. unfold update_user, with_users. simpl.
    destruct db as [us ps ds ts]. simpl in *. f_equal.
    rewrite <- list_fmap_compose. rewrite <- (list_fmap_id us) at 2.
    apply list_fmap_ext. intros i x Hx. simpl.
    destruct (User.id x =? User.id user) eqn:Hsame.
    + rewrite Z.eqb_refl. apply Z.eqb_eq in Hsame.
      assert (x = user) as ->.
      { apply (user_ids_distinct_inj us); auto. by apply list_elem_of_lookup_2 in Hx. }
      destruct user; simpl in *. by subst.
    + by rewrite Hsame.
Qed.

Lemma deactivated_user_is_locked_out_witness :
  Auth.get_current_user (fun _ => Some (Auth.mkPayload (Some 1) (Some "access")))
    (Auth.mkCredentials "Bearer" "t") (snd (deactivate_user 1 Fixture.root staffed_db))
  = Raise (HTTPException 400 (Msg "Inactive user")).
Proof.
  apply (deactivated_user_is_locked_out
           (fun _ => Some (Auth.mkPayload (Some 1) (Some "access")))
           (Auth.mkCredentials "Bearer" "t") (Auth.mkPayload (Some 1) (Some "access"))
           1 Fixture.alice Fixture.root staffed_db); reflexivity.
Defined.

(** X24.  An administrator can delete a project of any owner: the project
    with the key is found whoever owns it, and when it has no deployments the
    store afterwards holds no project with that key and every other project,
    in order.  When it still has deployments the deletion fails with an
    integrity error and the store is as before. *)
Theorem admin_deletes_projects_of_any_owner
    (project_id : Z) (admin : User.t) (project : Project.t) (db : DB) :
  User.is_admin admin = true ->
  project ∈ projects db ->
  Project.id project = project_id ->
  let '(answer, db') := delete_project_admin project_id admin db in
  if existsb (fun d => Deployment.project_id d =? project_id) (deployments db)
  then answer = Raise IntegrityError /\ db' = db
  else (exists message, answer = Ok message)
       /\ projects db' = filter (fun p => Project.id p <> project_id) (projects db)
       /\ users db' = users db /\ deployments db' = deployments db
       /\ refresh_tokens db' = refresh_tokens db.
Proof.
  intros Ha Hin Hid. unfold delete_project_admin.
  rewrite depends_require_admin_ok by done.
  destruct (first (fun p => Project.id p =? project_id) (projects db)) as [found|] eqn:Hq.
  - apply first_Some_inv in Hq as [_ Hfound]. apply Z.eqb_eq in Hfound. rewrite Hfound.
    destruct (existsb _ (deployments db)); [done |].
    split; [by eexists | done].
  - exfalso. apply first_None_iff in Hq. rewrite Forall_forall in Hq.
    specialize (Hq project Hin). apply Z.eqb_neq in Hq. done.
Qed.

Lemma admin_deletes_projects_of_any_owner_witness :
  projects (snd (delete_project_admin 1 Fixture.root Fixture.empty_db)) = [].
Proof.
  pose proof (admin_deletes_projects_of_any_owner 1 Fixture.root Fixture.site
                Fixture.empty_db eq_refl) as Hdel.
  destruct (delete_project_admin 1 Fixture.root Fixture.empty_db) as [answer db'].
  destruct Hdel as (_ & Hprojects & _).
  - apply list_elem_of_In. simpl. auto.
  - reflexivity.
  - exact Hprojects.
Defined.

End AdminSpec.

(** ** Accounts and tokens *)

Lemma token_not_stored (token : string) (rows : list RefreshToken.t) :
  existsb (fun r => String.eqb (RefreshToken.token r) token) rows = false
  <-> Forall (fun r => RefreshToken.token r <> token) rows.
Proof.
  induction rows as [|r rows IH]; simpl.
  - split; [constructor | done].
  - rewrite orb_false_iff, IH, Forall_cons, String.eqb_neq. tauto.
Qed.

Section AccountsSpec.

Import Deployments Accounts.

Variables isupper islower isdigit : ascii -> bool.
Variable sha256_hexdigest : string -> string.
Variable hashpw : string -> string -> option string.
Variable hashpw_error : string.
Variable jwt_encode : Claims -> string.
Variable jwt_decode : string -> option Auth.Payload.

Lemma any_Exists (p : ascii -> bool) (s : string) :
  any p s = true <-> Exists (fun c => p c = true) (list_ascii_of_string s).
Proof.
  unfold any. rewrite existsb_exists, Exists_exists.
  split; intros (c & Hin & Hp); exists c; (split; [| done]); by apply list_elem_of_In.
Qed.

Lemma in_punctuation (c : ascii) :
  existsb (Ascii.eqb c) (list_ascii_of_string punctuation) = true
  <-> c ∈ list_ascii_of_string punctuation.
Proof.
  rewrite existsb_exists. split.
  - intros (x & Hin & Heq). apply Ascii.eqb_eq in Heq as ->. by apply list_elem_of_In.
  - intros Hin. exists c. split; [by apply list_elem_of_In | apply Ascii.eqb_refl].
Qed.

Lemma validate_password_strength_true (password : string) :
  fst (validate_password_strength isupper islower isdigit password) = true
  <-> strong_password isupper islower isdigit password.
Proof.
  unfold validate_password_strength, strong_password.
  destruct (String.length password <? 8)%nat eqn:Hshort.
  { apply Nat.ltb_lt in Hshort. cbn [fst negb]. split; [done | lia]. }
  apply Nat.ltb_ge in Hshort.
  destruct (128 <? String.length password)%nat eqn:Hlong.
  { apply Nat.ltb_lt in Hlong. cbn [fst negb]. split; [done | lia]. }
  apply Nat.ltb_ge in Hlong.
  rewrite <- !any_Exists.
  destruct (any isupper password); cbn [fst negb]; [| split; [done | intros (_ & ? & _); done]].
  destruct (any islower password); cbn [fst negb]; [| split; [done | intros (_ & _ & ? & _); done]].
  destruct (any isdigit password); cbn [fst negb];
    [| split; [done | intros (_ & _ & _ & ? & _); done]].
  destruct (any _ password) eqn:Hspecial; cbn [fst negb].
  - split; [| done]. intros _. repeat (split; [first [lia | done] |]).
    apply any_Exists in Hspecial. eapply Exists_impl; [exact Hspecial |].
    intros c Hc. by apply in_punctuation.
  - split; [done |]. intros (_ & _ & _ & _ & Hex).
    apply not_true_iff_false in Hspecial. exfalso. apply Hspecial.
    apply any_Exists. eapply Exists_impl; [exact Hex |].
    intros c Hc. by apply in_punctuation.
Qed.

Lemma next_user_id_fresh (l : list User.t) :
  next_id (map User.id l) ∉ map User.id l.
Proof.
  assert (Hle : forall x, x ∈ map User.id l -> x <= fold_right Z.max 0 (map User.id l)).
  { induction l as [|u l IH]; simpl; intros x Hx; [by apply elem_of_nil in Hx |].
    apply elem_of_cons in Hx as [-> | Hx]; [lia |]. specialize (IH x Hx). lia. }
  intros Hin. apply Hle in Hin. unfold next_id in Hin. lia.
Qed.

(** X25.  Registration succeeds exactly when no user has the e-mail, the
    password meets every strength rule and the hash is produced.  The new
    user is then appended, active and not an administrator, with a key no
    user had and the hash of the password; nothing else changes.  Every
    failure is a 400 that leaves the store as it was (in particular the
    length check of the hashing step never fires after the strength check). *)
Theorem register_outcomes
    (user : UserCreate) (salt : string) (now : datetime) (db : DB) :
  let '(answer, db') :=
    register isupper islower isdigit sha256_hexdigest hashpw hashpw_error user salt now db in
  match answer with
  | Ok db_user =>
      Forall (fun u => User.email u <> email user) (users db)
      /\ strong_password isupper islower isdigit (password user)
      /\ hashpw (sha256_hexdigest (password user)) salt = Some (User.hashed_password db_user)
      /\ User.email db_user = email user
      /\ User.is_active db_user = true /\ User.is_admin db_user = false
      /\ User.created_at db_user = now
      /\ (User.id db_user ∉ map User.id (users db))
      /\ db' = with_users (users db ++ [db_user]) db
  | Raise e =>
      db' = db
      /\ (exists message, e = HTTPException HTTP_400_BAD_REQUEST (Msg message))
      /\ ~ (Forall (fun u => User.email u <> email user) (users db)
            /\ strong_password isupper islower isdigit (password user)
            /\ is_Some (hashpw (sha256_hexdigest (password user)) salt))
  end.
Proof.
  unfold register, query_user_by_email.
  destruct (first _ (users db)) as [existing|] eqn:Hq.
  { split; [done | split; [by eexists |]]. intros (Hfresh & _).
    apply first_Some_inv in Hq as [Hin Heq]. apply String.eqb_eq in Heq.
    rewrite Forall_forall in Hfresh. by apply (Hfresh existing Hin). }
  apply first_None_iff in Hq.
  assert (Hfresh : Forall (fun u => User.email u <> email user) (users db)).
  { eapply Forall_impl; [exact Hq |]. simpl. intros u Hu. by apply String.eqb_neq. }
  pose proof (validate_password_strength_true (password user)) as Hstrong.
  destruct (validate_password_strength isupper islower isdigit (password user))
    as [[|] message]; simpl in Hstrong.
  2:{ split; [done | split; [by eexists |]]. intros (_ & Hs & _).
      apply Hstrong in Hs. discriminate Hs. }
  assert (Hs : strong_password isupper islower isdigit (password user)) 
    by (by apply Hstrong).
  unfold Security.get_password_hash.
  assert (Hlen : (128 <? String.length (password user))%nat = false).
  { apply Nat.ltb_ge. destruct Hs as [Hl _]. lia. }
  rewrite Hlen. unfold Security._pre_hash.
  destruct (hashpw (sha256_hexdigest (password user)) salt) as [hashed|] eqn:Hh.
  - refine (conj Hfresh (conj Hs (conj eq_refl (conj eq_refl (conj eq_refl
             (conj eq_refl (conj eq_refl (conj _ eq_refl)))))))).
    apply next_user_id_fresh.
  - split; [done | split; [by eexists |]]. intros (_ & _ & Hsome).
    by apply is_Some_None in Hsome.
Qed.

Lemma register_Ok_inv
    (user : UserCreate) (salt : string) (now : datetime) (db db' : DB) (db_user : User.t) :
  register isupper islower isdigit sha256_hexdigest hashpw hashpw_error user salt now db
  = (Ok db_user, db') ->
  Forall (fun u => String.eqb (User.email u) (email user) = false) (users db)
  /\ hashpw (sha256_hexdigest (password user)) salt = Some (User.hashed_password db_user)
  /\ User.email db_user = email user
  /\ User.is_active db_user = true
  /\ db' = with_users (users db ++ [db_user]) db.
Proof.
  unfold register, query_user_by_email, Security.get_password_hash, Security._pre_hash.
  destruct (first _ (users db)) as [existing|] eqn:Hq; [discriminate |].
  apply first_None_iff in Hq.
  destruct (validate_password_strength _ _ _ _) as [[|] message]; [| discriminate].
  destruct (128 <? String.length (password user))%nat; [discriminate |].
  destruct (hashpw (sha256_hexdigest (password user)) salt) as [hashed|]; [| discriminate].
  intros [= <- <-]. done.
Qed.

Lemma issue_tokens_unfold (user : User.t) (now : datetime) (db : DB) :
  issue_tokens jwt_encode user now db
  = if existsb (fun r => String.eqb (RefreshToken.token r)
                           (create_refresh_token jwt_encode (User.id user) now))
               (refresh_tokens db)
    then (Raise IntegrityError, db)
    else
      (Ok (mkToken (create_access_token jwt_encode (User.id user) None now)
                   (create_refresh_token jwt_encode (User.id user) now) "bearer"),
       with_refresh_tokens
         (refresh_tokens db
          ++ [RefreshToken.mk (next_id (map RefreshToken.id (refresh_tokens db)))
                (create_refresh_token jwt_encode (User.id user) now) (User.id user)
                (now + Calendar.days REFRESH_TOKEN_EXPIRE_DAYS) now]) db).
Proof.
  unfold issue_tokens, store_refresh_token.
  by destruct (existsb _ (refresh_tokens db)).
Qed.

(** X26.  A user who has just registered can log in with the same e-mail and
    password (bcrypt reproducing a hash under its own salt): unless the
    refresh token issued is already stored, login answers with a bearer pair
    for that user and stores the refresh token under the user's key. *)
Theorem registered_user_can_log_in
    (user : UserCreate) (salt : string) (now later : datetime) (db db' : DB)
    (db_user : User.t) :
  rehash_stable hashpw ->
  register isupper islower isdigit sha256_hexdigest hashpw hashpw_error user salt now db
  = (Ok db_user, db') ->
  Forall (fun r => RefreshToken.token r
                   <> create_refresh_token jwt_encode (User.id db_user) later)
         (refresh_tokens db) ->
  exists row,
    login sha256_hexdigest hashpw jwt_encode user later db'
    = (Ok (mkToken (create_access_token jwt_encode (User.id db_user) None later)
                   (create_refresh_token jwt_encode (User.id db_user) later) "bearer"),
       with_refresh_tokens (refresh_tokens db ++ [row]) db')
    /\ RefreshToken.user_id row = User.id db_user
    /\ RefreshToken.token row = create_refresh_token jwt_encode (User.id db_user) later
    /\ RefreshToken.expires_at row = later + Calendar.days 7.
Proof.
  intros Hstable Hreg Hnew.
  apply register_Ok_inv in Hreg as (Hfresh & Hhash & Hemail & Hactive & ->).
  unfold login, query_user_by_email. cbn [users with_users].
  rewrite first_app. apply first_None_iff in Hfresh. rewrite Hfresh.
  unfold first. cbn [find]. rewrite Hemail, String.eqb_refl.
  assert (Hverify : Security.verify_password sha256_hexdigest hashpw (password user)
                      (User.hashed_password db_user) = true).
  { apply verify_password_true_iff. unfold Security._pre_hash.
    by apply (Hstable _ salt). }
  rewrite Hverify, Hactive. cbn [negb].
  rewrite issue_tokens_unfold. cbn [refresh_tokens with_users].
  apply token_not_stored in Hnew. rewrite Hnew.
  eexists. split; [reflexivity |]. done.
Qed.

(** X27.  Login answers with tokens only for an active user whose stored
    hash verifies the password; it then stores exactly one new refresh
    token, under that user's key, with a token string that was not stored
    before and an expiry seven days ahead, and changes nothing else.  A
    login that fails leaves the store as it was. *)
Theorem login_outcomes (user : UserCreate) (now : datetime) (db : DB) :
  let '(answer, db') := login sha256_hexdigest hashpw jwt_encode user now db in
  match answer with
  | Ok token =>
      exists db_user row,
        query_user_by_email db (email user) = Some db_user
        /\ Security.verify_password sha256_hexdigest hashpw (password user)
             (User.hashed_password db_user) = true
        /\ User.is_active db_user = true
        /\ token = mkToken (create_access_token jwt_encode (User.id db_user) None now)
                           (create_refresh_token jwt_encode (User.id db_user) now) "bearer"
        /\ db' = with_refresh_tokens (refresh_tokens db ++ [row]) db
        /\ RefreshToken.token row = refresh_token token
        /\ RefreshToken.user_id row = User.id db_user
        /\ RefreshToken.expires_at row = now + Calendar.days 7
        /\ Forall (fun r => RefreshToken.token r <> refresh_token token) (refresh_tokens db)
  | Raise e => db' = db
  end.
Proof.
  unfold login.
  destruct (query_user_by_email db (email user)) as [db_user|] eqn:Hq; [| done].
  destruct (Security.verify_password _ _ _ _) eqn:Hverify; [| done].
  destruct (User.is_active db_user) eqn:Hactive; [| done].
  cbn [negb]. rewrite issue_tokens_unfold.
  destruct (existsb _ (refresh_tokens db)) eqn:Hstored; [done |].
  exists db_user. eexists.
  split; [reflexivity |]. split; [exact Hverify |]. split; [exact Hactive |].
  repeat (split; [reflexivity |]).
  by apply token_not_stored.
Qed.

Lemma same_second_same_token (user_id : Z) (now later : datetime) :
  later / SECOND = now / SECOND ->
  create_refresh_token jwt_encode user_id later
  = create_refresh_token jwt_encode user_id now.
Proof.
  intros Hsame. unfold create_refresh_token. do 2 f_equal.
  unfold Calendar.days, REFRESH_TOKEN_EXPIRE_DAYS.
  change (7 * Calendar.DAY) with (604800 * SECOND).
  rewrite !Z.div_add by (unfold SECOND; lia). by rewrite Hsame.
Qed.

(** X28.  The expiry written into a token is in whole seconds, so a user who
    logs in again within the same clock second is issued the refresh token
    string that was just stored: the insert violates the unique constraint,
    the second login fails with an integrity error and stores nothing. *)
Theorem second_login_in_same_second_fails
    (user : UserCreate) (now later : datetime) (db db' : DB) (token : Token) :
  login sha256_hexdigest hashpw jwt_encode user now db = (Ok token, db') ->
  later / SECOND = now / SECOND ->
  login sha256_hexdigest hashpw jwt_encode user later db' = (Raise IntegrityError, db').
Proof.
  unfold login. unfold query_user_by_email at 1.
  destruct (first _ (users db)) as [db_user|] eqn:Hq; [| discriminate].
  destruct (Security.verify_password _ _ _ _) eqn:Hverify; [| discriminate].
  destruct (User.is_active db_user) eqn:Hactive; [| discriminate].
  cbn [negb]. rewrite issue_tokens_unfold.
  destruct (existsb _ (refresh_tokens db)) eqn:Hstored; [discriminate |].
  intros [= <- <-] Hsame.
  unfold query_user_by_email. cbn [users with_refresh_tokens].
  rewrite Hq, Hverify, Hactive. cbn [negb].
  rewrite issue_tokens_unfold. cbn [refresh_tokens with_refresh_tokens].
  rewrite (same_second_same_token _ _ _ Hsame).
  rewrite existsb_app. cbn [existsb RefreshToken.token].
  by rewrite String.eqb_refl, orb_true_r.
Qed.

End AccountsSpec.

(** The handlers run with toy primitives. *)

Section AccountsRuns.

Import Accounts.

Lemma registered_user_can_log_in_witness :
  exists db' db'',
    snd (register ascii_isupper ascii_islower ascii_isdigit id toy_hashpw "Invalid salt"
           carol "salt" 10 Fixture.empty_db) = db'
    /\ login id toy_hashpw toy_jwt_encode carol 20 db'
       = (Ok (mkToken (create_access_token toy_jwt_encode 4 None 20)
                      (create_refresh_token toy_jwt_encode 4 20) "bearer"), db'').
Proof.
  destruct (register ascii_isupper ascii_islower ascii_isdigit id toy_hashpw "Invalid salt"
              carol "salt" 10 Fixture.empty_db) as [answer db'] eqn:Hreg.
  assert (Hok : answer = Ok (User.mk 4 "carol@example.com" "Passw0rd!" 10 true false))
    by (by vm_compute in Hreg; injection Hreg as <- _).
  subst answer.
  destruct (registered_user_can_log_in ascii_isupper ascii_islower ascii_isdigit id
              toy_hashpw "Invalid salt" toy_jwt_encode carol "salt" 10 20
              Fixture.empty_db db' _ (fun _ _ _ H => H) Hreg (Forall_nil_2 _))
    as (row & Hlogin & _).
  exists db'. eexists. split; [reflexivity | exact Hlogin].
Defined.

Lemma second_login_in_same_second_fails_witness :
  exists db',
    login id toy_hashpw toy_jwt_encode
      (mkUserCreate "alice@example.com" "$2b$12$a") 5000000 Fixture.empty_db
    = (Ok (mkToken (create_access_token toy_jwt_encode 1 None 5000000)
                   (create_refresh_token toy_jwt_encode 1 5000000) "bearer"), db')
    /\ login id toy_hashpw toy_jwt_encode
         (mkUserCreate "alice@example.com" "$2b$12$a") 5999999 db'
       = (Raise IntegrityError, db').
Proof.
  eexists. split; [by vm_compute |].
  apply (second_login_in_same_second_fails id toy_hashpw toy_jwt_encode
           (mkUserCreate "alice@example.com" "$2b$12$a") 5000000 5999999 Fixture.empty_db
           _ (mkToken (create_access_token toy_jwt_encode 1 None 5000000)
                      (create_refresh_token toy_jwt_encode 1 5000000) "bearer"));
    by vm_compute.
Defined.

End AccountsRuns.

(** ** Refresh tokens *)

Section RefreshSpec.

Import Deployments Accounts.

Variable jwt_encode : Claims -> string.
Variable jwt_decode : string -> option Auth.Payload.

Lemma stored_token_lookup (token : string) (later : datetime) (rows : list RefreshToken.t)
    (row : RefreshToken.t) :
  Exists (fun r => RefreshToken.token r = token) rows ->
  Forall (fun r => RefreshToken.token r <> RefreshToken.token row) rows ->
  let live r := String.eqb (RefreshToken.token r) token
                && (later <? RefreshToken.expires_at r) in
  first live (rows ++ [row]) = first live rows.
Proof.
  intros Hstored Hnew live. rewrite first_app.
  destruct (first live rows) as [r|] eqn:Hfirst; [done |].
  unfold first. cbn [find]. unfold live at 1.
  assert (Hne : String.eqb (RefreshToken.token row) token = false); [| by rewrite Hne].
  apply String.eqb_neq. intros Heq.
  apply Exists_exists in Hstored as (r & Hin & Hr).
  rewrite Forall_forall in Hnew. apply (Hnew r Hin). congruence.
Qed.

Lemma verify_refresh_token_stored (token : string) (now : datetime) (db : DB)
    (user : User.t) :
  verify_refresh_token jwt_decode token now db = Ok user ->
  Exists (fun r => RefreshToken.token r = token) (refresh_tokens db).
Proof.
  unfold verify_refresh_token.
  destruct (jwt_decode token) as [payload|]; [| discriminate].
  destruct (negb _); [discriminate |].
  destruct (Auth.sub payload) as [user_id|]; [| discriminate].
  destruct (first _ (refresh_tokens db)) as [db_token|] eqn:Hq; [| discriminate].
  intros _. apply first_Some_inv in Hq as [Hin Hlive].
  apply andb_true_iff in Hlive as [Heq _]. apply String.eqb_eq in Heq.
  apply Exists_exists. by exists db_token.
Qed.

(** X29.  A refresh that succeeds only adds a row: the token that was
    presented stays stored, and at any later time it is answered exactly as
    it would have been without the refresh, so until it expires it can be
    presented again. *)
Theorem refresh_keeps_the_old_token
    (token_data : Auth.RefreshTokenCreate) (now : datetime) (db db' : DB) (token : Token) :
  refresh jwt_encode jwt_decode token_data now db = (Ok token, db') ->
  (exists row,
     refresh_tokens db' = refresh_tokens db ++ [row]
     /\ RefreshToken.token row = refresh_token token
     /\ refresh_token token <> Auth.refresh_token token_data)
  /\ users db' = users db
  /\ (exists user,
        verify_refresh_token jwt_decode (Auth.refresh_token token_data) now db' = Ok user)
  /\ forall later,
       verify_refresh_token jwt_decode (Auth.refresh_token token_data) later db'
       = verify_refresh_token jwt_decode (Auth.refresh_token token_data) later db.
Proof.
  unfold refresh.
  destruct (verify_refresh_token jwt_decode (Auth.refresh_token token_data) now db)
    as [user|e] eqn:Hverify; [| discriminate].
  rewrite issue_tokens_unfold.
  destruct (existsb _ (refresh_tokens db)) eqn:Hnew; [discriminate |].
  intros [= <- <-]. apply token_not_stored in Hnew.
  pose proof (verify_refresh_token_stored _ _ _ _ Hverify) as Hstored.
  assert (Hlater : forall later,
            verify_refresh_token jwt_decode (Auth.refresh_token token_data) later
              (with_refresh_tokens
                 (refresh_tokens db
                  ++ [RefreshToken.mk (next_id (map RefreshToken.id (refresh_tokens db)))
                        (create_refresh_token jwt_encode (User.id user) now) (User.id user)
                        (now + Calendar.days REFRESH_TOKEN_EXPIRE_DAYS) now]) db)
            = verify_refresh_token jwt_decode (Auth.refresh_token token_data) later db).
  { intros later. unfold verify_refresh_token. cbn [refresh_tokens users with_refresh_tokens].
    set (row := RefreshToken.mk _ _ _ _ _).
    by rewrite (stored_token_lookup _ later _ row Hstored Hnew). }
  split; [| split; [done | split; [| exact Hlater]]].
  - eexists. split; [reflexivity |]. split; [reflexivity |]. cbn [refresh_token].
    intros Heq. apply Exists_exists in Hstored as (r & Hin & Hr).
    rewrite Forall_forall in Hnew. apply (Hnew r Hin). cbn [RefreshToken.token]. congruence.
  - exists user. by rewrite Hlater.
Qed.

(** X30.  After logout, the token that was logged out cannot be refreshed:
    whatever it decodes to and whenever it is presented, refresh raises and
    stores nothing. *)
Theorem logged_out_token_cannot_refresh
    (token_data : Auth.RefreshTokenCreate) (creds : Auth.HTTPAuthorizationCredentials)
    (now : datetime) (db : DB) :
  let db' := snd (Auth.logout token_data creds db) in
  exists e, refresh jwt_encode jwt_decode token_data now db' = (Raise e, db').
Proof.
  simpl. unfold refresh, verify_refresh_token.
  destruct (jwt_decode (Auth.refresh_token token_data)) as [payload|]; [| by eexists].
  destruct (negb _); [by eexists |].
  destruct (Auth.sub payload) as [user_id|]; [| by eexists].
  cbn [refresh_tokens with_refresh_tokens].
  assert (Hgone : first (fun r => String.eqb (RefreshToken.token r)
                                    (Auth.refresh_token token_data)
                                  && (now <? RefreshToken.expires_at r))
                    (filter (fun r => RefreshToken.token r ≠ Auth.refresh_token token_data)
                            (refresh_tokens db)) = None).
  { apply first_None_iff, Forall_forall. intros r Hr.
    apply list_elem_of_filter in Hr as [Hne _].
    apply andb_false_iff. left. by apply String.eqb_neq. }
  rewrite Hgone. by eexists.
Qed.

End RefreshSpec.

Section RefreshRuns.

Import Accounts.

Lemma refresh_keeps_the_old_token_witness :
  exists db' user,
    snd (refresh toy_jwt_encode (fun _ => Some (Auth.mkPayload (Some 1) (Some "refresh")))
           (Auth.mkRefreshTokenCreate "alice.refresh") 50 logged_in_db) = db'
    /\ verify_refresh_token (fun _ => Some (Auth.mkPayload (Some 1) (Some "refresh")))
         "alice.refresh" 50 db' = Ok user.
Proof.
  destruct (refresh toy_jwt_encode (fun _ => Some (Auth.mkPayload (Some 1) (Some "refresh")))
              (Auth.mkRefreshTokenCreate "alice.refresh") 50 logged_in_db)
    as [answer db'] eqn:Hrefresh.
  destruct answer as [token|e]; [| by vm_compute in Hrefresh].
  destruct (refresh_keeps_the_old_token _ _ _ _ _ _ _ Hrefresh)
    as (_ & _ & (user & Hvalid) & _).
  exists db', user. split; [reflexivity | exact Hvalid].
Defined.

End RefreshRuns.
